(** * The data grid of Read-CSV-and-JSON-Online, embedded in Rocq

    The development follows [src/components/DataGrid.tsx] (two versions of
    the component are kept in the repository: the full grid with selection,
    keyboard navigation and column resizing, and an earlier plain grid),
    the [Sheet]/[DataRow] types, the host application's state and
    handlers ([App.tsx]: tabs, zoom, comparison, [handleCellEdit]) and the
    CSV reader and writer of [utils/fileParser.ts].

    Conventions of the embedding:
    - a JavaScript number that measures pixels or a zoom percentage is
      the rational [Q] its double is; every arithmetic operation rounds
      its exact result ([Js.Arithmetic]): [Js.binary64] is the rounding
      of the code's doubles, [Js.exact] rounds nothing;
    - row and column indices are integers [Z] ([-1] is what [indexOf]
      returns for a missing element);
    - an object used as a dictionary is a [gmap string _] of its own
      entries; where the code writes or reads the column widths the
      properties it inherits from [Object.prototype] are modelled too
      ([Js.set], [Js.get]);
    - an array is a list; an array of rows may have holes (an assignment
      past the end creates them), so its elements are [option]al;
    - a React event handler reads the state of the render it was created
      in (its snapshot) and queues updates, which are applied together
      once the event has been handled;
    - the text of a CSV file is the list of its code units; the set of
      code units that [trim] removes is a parameter. *)

From Stdlib Require Import ZArith QArith Qpower Qround Qminmax Lqa Lia Ascii.
From stdpp Require Import base option list gmap strings pretty.

Local Open Scope Z_scope.

(** ** JavaScript primitives *)

Module Js.

(** *** Numbers

    A number of the program is a double. The model computes with the
    rationals that the finite doubles are: an operation gives its exact
    result rounded by [fl]. Integers (indices and counts) are kept in
    [Z]; the code holds them in doubles, which is the same below 2^53.
    The exponent range of doubles is not modelled (no result overflows
    or is subnormal), and a division is by a divisor that is not zero:
    the host keeps the zoom level between 20 and 200. *)
Class Arithmetic : Type := { fl : Q -> Q }.

Section Operations.
Context {arith : Arithmetic}.
Definition add (a b : Q) : Q := fl (a + b).
Definition sub (a b : Q) : Q := fl (a - b).
Definition mul (a b : Q) : Q := fl (a * b).
Definition div (a b : Q) : Q := fl (a / b).
End Operations.

(** Arithmetic without rounding. *)
Definition exact : Arithmetic := {| fl := fun x => x |}.

(** [floor (log2 x)] for a positive [x]. *)
Definition ilog2 (x : Q) : Z :=
  let e := Z.log2 (Qnum x) - Z.log2 (Zpos (Qden x)) in
  if Qle_bool (2 ^ e)%Q x then e else e - 1.

(** The integer nearest to [x]; a tie goes to the even one. *)
Definition roundHalfEven (x : Q) : Z :=
  let f := Qfloor x in
  match (x - inject_Z f ?= 1 # 2)%Q with
  | Lt => f
  | Gt => f + 1
  | Eq => if Z.even f then f else f + 1
  end.

(** The double nearest to a positive [x]: 53 significant bits. *)
Definition nearest (x : Q) : Q :=
  let ulp := (2 ^ (ilog2 x - 52))%Q in
  (inject_Z (roundHalfEven (x / ulp)) * ulp)%Q.

(** IEEE 754 binary64, round to nearest, ties to even. *)
Definition binary64 : Arithmetic :=
  {| fl := fun x =>
       match (x ?= 0)%Q with
       | Eq => 0%Q
       | Gt => nearest x
       | Lt => (- nearest (- x))%Q
       end |}.

(** What a theorem that depends on the rounding assumes of it: rounding
    keeps the order, the sign and zero. *)
Record Rounding (arith : Arithmetic) : Prop := {
  fl_le : forall x y : Q, (x <= y)%Q -> (fl x <= fl y)%Q;
  fl_opp : forall x : Q, (fl (- x) == - fl x)%Q;
  fl_0 : (fl 0 == 0)%Q
}.

(** A number that is stored: a double, or [NaN]. *)
Inductive Num : Type := Number (x : Q) | NaN.

(** *** Objects used as dictionaries

    An object made by [{}] or by an object literal has the prototype
    [Object.prototype], whose properties these are. *)
Definition prototypeNames : list string :=
  ["__proto__"; "constructor"; "hasOwnProperty"; "isPrototypeOf";
   "propertyIsEnumerable"; "toLocaleString"; "toString"; "valueOf";
   "__defineGetter__"; "__defineSetter__"; "__lookupGetter__";
   "__lookupSetter__"].

Definition inherited (k : string) : bool := bool_decide (k ∈ prototypeNames).

(** [o[k] = v] for a [v] that is not an object: the assignment defines
    or overwrites the own entry, except under the name [__proto__] when
    the object has no entry of that name; it then calls the setter of
    [Object.prototype], which ignores such a [v]. *)
Definition set {A} (o : gmap string A) (k : string) (v : A) : gmap string A :=
  if String.eqb k "__proto__" && negb (bool_decide (is_Some (o !! k)))
  then o else <[k := v]> o.

(** [o[k]]: the own entry, or else a property of the prototype (an
    object or a function), or else [undefined]. *)
Inductive Read (A : Type) : Type := Own (v : A) | Inherited | Undefined.
#[global] Arguments Own {A} v.
#[global] Arguments Inherited {A}.
#[global] Arguments Undefined {A}.

Definition get {A} (o : gmap string A) (k : string) : Read A :=
  match o !! k with
  | Some v => Own v
  | None => if inherited k then Inherited else Undefined
  end.

Definition Math_max (a b : Z) : Z := Z.max a b.
Definition Math_min (a b : Z) : Z := Z.min a b.
Definition Math_floor (x : Q) : Z := Qfloor x.
Definition Math_ceil (x : Q) : Z := Qceiling x.

(** [a[i]] on an array: [undefined] outside [0 .. length-1]. *)
Definition index {A} (a : list A) (i : Z) : option A :=
  if i <? 0 then None else a !! Z.to_nat i.

(** [a[i] = v] on an array whose elements may be holes. Inside the array
    the element is replaced; past the end the array grows and the
    skipped positions are holes; a negative index names a property of
    the array object and leaves its elements alone. *)
Definition array_set {A} (a : list (option A)) (i : Z) (v : A)
  : list (option A) :=
  if i <? 0 then a
  else
    let n := Z.to_nat i in
    if (n <? length a)%nat then <[n := Some v]> a
    else a ++ replicate (n - length a) None ++ [Some v].

(** [a.indexOf(x)]: position of the first occurrence, or [-1]. *)
Fixpoint indexOf (a : list string) (x : string) : Z :=
  match a with
  | [] => -1
  | y :: a' =>
      if String.eqb y x then 0
      else let k := indexOf a' x in if k =? -1 then -1 else k + 1
  end.

(** [a.slice(start, end)]; negative arguments count from the end. *)
Definition slice {A} (a : list A) (start stop : Z) : list A :=
  let len := Z.of_nat (length a) in
  let k := if start <? 0 then Z.max (len + start) 0 else Z.min start len in
  let fin := if stop <? 0 then Z.max (len + stop) 0 else Z.min stop len in
  take (Z.to_nat (fin - k)) (drop (Z.to_nat k) a).

(** [x || d] for an [x] read from a dictionary of numbers: zero, [NaN]
    and [undefined] are falsy. An inherited property is truthy and is
    not a number, which is [None]. *)
Definition or_default (x : Read Num) (d : Q) : option Q :=
  match x with
  | Own (Number w) => Some (if Qeq_bool w 0 then d else w)
  | Own NaN | Undefined => Some d
  | Inherited => None
  end.

End Js.

(** ** Data model ([types.ts]) *)

Section DataModel.

(** The numbers stored in cells, with their [String(n)] rendering, are
    kept abstract. *)
Context {number : Type}.

(** [string | number | boolean | null]; a key that is absent from a row
    reads as [undefined], which is [None] of [option Value]. *)
Inductive Value : Type :=
| VString (s : string)
| VNumber (n : number)
| VBoolean (b : bool)
| VNull.

(** [DataRow], a dictionary from column names to values. *)
Abbreviation DataRow := (gmap string Value).

Inductive SheetType : Type := csv | json.

Record Sheet : Type := mkSheet {
  sheet_id : string;
  sheet_name : string;
  sheet_data : list (option DataRow);
  sheet_columns : list string;
  sheet_type : SheetType
}.

Variable number_to_string : number -> string.

(** [String(v)]. *)
Definition String_ (v : option Value) : string :=
  match v with
  | None => "undefined"
  | Some VNull => "null"
  | Some (VString s) => s
  | Some (VNumber n) => number_to_string n
  | Some (VBoolean true) => "true"
  | Some (VBoolean false) => "false"
  end.

(** [v ?? '']. *)
Definition or_empty (v : option Value) : option Value :=
  match v with
  | None | Some VNull => Some (VString "")
  | _ => v
  end.

(** [val !== null && val !== undefined ? String(val) : ''], the text a
    cell shows and an edit starts from. *)
Definition displayVal (val : option Value) : string :=
  match val with
  | None | Some VNull => ""
  | _ => String_ val
  end.

(** [sheet.data[i]]: a hole reads as [undefined] too. *)
Definition row_at (s : Sheet) (i : Z) : option DataRow :=
  Js.index (sheet_data s) i ≫= id.

(** [row[col]]. *)
Definition cell (row : DataRow) (col : string) : option Value := row !! col.

End DataModel.

Arguments Value : clear implicits.
Arguments Sheet : clear implicits.

Abbreviation DataRow number := (gmap string (Value number)).

(** ** The host application's edit handler *)

Module Host.
Section Host.

Context {number : Type}.

Record App : Type := mkApp {
  sheets : list (Sheet number);
  activeSheetId : option string
}.

(** [{ ...newData[rowIndex], [colKey]: value }] *)
Definition editedRow (old : option (DataRow number)) (colKey value : string)
  : DataRow number :=
  <[colKey := VString value]> (default ∅ old).

Definition editSheet (rowIndex : Z) (colKey value : string)
    (sheet : Sheet number) : Sheet number :=
  let newData :=
    Js.array_set (sheet_data sheet) rowIndex
      (editedRow (row_at sheet rowIndex) colKey value) in
  {| sheet_id := sheet_id sheet;
     sheet_name := sheet_name sheet;
     sheet_data := newData;
     sheet_columns := sheet_columns sheet;
     sheet_type := sheet_type sheet |}.

(** [!activeSheetId] holds for [null] and for the empty string. *)
Definition handleCellEdit (rowIndex : Z) (colKey value : string) (app : App)
  : App :=
  match activeSheetId app with
  | None => app
  | Some aid =>
      if String.eqb aid "" then app
      else
        {| sheets :=
             map (fun sheet =>
                    if String.eqb (sheet_id sheet) aid
                    then editSheet rowIndex colKey value sheet
                    else sheet)
                 (sheets app);
           activeSheetId := activeSheetId app |}
  end.

End Host.
End Host.

(** ** Virtualization: the visible window of rows

    Both versions of the grid compute the window with the same text. *)

Module Virtualization.

Definition ROW_HEIGHT_BASE : Q := 36.
Definition buffer : Z := 10.

Definition rowHeight {arith : Js.Arithmetic} (zoomLevel : Q) : Q :=
  Js.mul ROW_HEIGHT_BASE (Js.div zoomLevel 100).

Section Window.
Context {arith : Js.Arithmetic}.
Variables (rowHeight : Q) (totalRows : Z) (scrollTop containerHeight : Q).

Definition totalHeight : Q := Js.mul (inject_Z totalRows) rowHeight.

Definition startIndex : Z :=
  Js.Math_max 0 (Js.Math_floor (Js.div scrollTop rowHeight) - buffer).

Definition endIndex : Z :=
  Js.Math_min totalRows
    (Js.Math_ceil (Js.div (Js.add scrollTop containerHeight) rowHeight)
     + buffer).

Definition topSpacerHeight : Q := Js.mul (inject_Z startIndex) rowHeight.

Definition bottomSpacerHeight : Q :=
  Js.mul (inject_Z (totalRows - endIndex)) rowHeight.
End Window.

(** [sheet.data.slice(startIndex, endIndex).map((row, index) => ...)]:
    the rendered rows with their absolute indices. *)
Definition visibleRows {A} (data : list A) (startIndex endIndex : Z)
  : list (A * Z) :=
  imap (fun index row => (row, startIndex + Z.of_nat index))
       (Js.slice data startIndex endIndex).

End Virtualization.

(** ** The grid with selection, keyboard navigation and column resizing

    First version of [DataGrid.tsx]. *)

Module Grid.

Inductive Key : Type :=
| ArrowUp | ArrowDown | ArrowRight | ArrowLeft | Tab | Enter | Escape
| OtherKey.

(** Which element holds the keyboard focus: the edit [<input>], the
    scroll container ([tabIndex=0]) or something outside the grid. *)
Inductive Focus : Type := FocusInput | FocusContainer | FocusElsewhere.

(** [resizingRef.current]. [startWidth] is [None] when it is not a
    number but a property of [Object.prototype]. *)
Record ResizeSession : Type := mkResize {
  rs_col : string;
  rs_startX : Q;
  rs_startWidth : option Q
}.

(** The component's [useState]/[useRef] cells. [editingCell.col] is a
    column name, or [undefined] when it was read past the column list. *)
Record State : Type := mkState {
  scrollTop : Q;
  containerHeight : Q;
  colWidths : gmap string Js.Num;
  editingCell : option (Z * option string);
  editValue : string;
  selectedCell : option (Z * Z);
  resizingRef : option ResizeSession;
  isResizing : bool
}.

(** What a handler does to the outside: a call of the [onCellEdit] prop,
    or an assignment to [containerRef.current.scrollTop]. *)
Inductive Effect : Type :=
| OnCellEdit (rowIndex : Z) (colKey : option string) (value : string)
| AssignScrollTop (top : Q).

(** Readings the environment supplies when an event is handled: the
    container's [scrollTop] and [clientHeight], and the 2d canvas
    context's [measureText(_).width] when a context can be obtained. *)
Record Env : Type := mkEnv {
  c_scrollTop : Q;
  c_clientHeight : Q;
  getContext : option (string -> Q)
}.

(** The run of one event: the queued state (starting from the
    snapshot), the focus, and the effects so far, oldest first. *)
Record Run : Type := mkRun {
  next : State;
  nfocus : Focus;
  effects : list Effect
}.

Definition update (f : State -> State) (r : Run) : Run :=
  {| next := f (next r); nfocus := nfocus r; effects := effects r |}.

Definition emit (e : Effect) (r : Run) : Run :=
  {| next := next r; nfocus := nfocus r; effects := effects r ++ [e] |}.

Definition withFocus (f : Focus) (r : Run) : Run :=
  {| next := next r; nfocus := f; effects := effects r |}.

Definition setScrollTop (v : Q) : Run -> Run :=
  update (fun s => mkState v (containerHeight s) (colWidths s)
    (editingCell s) (editValue s) (selectedCell s) (resizingRef s)
    (isResizing s)).

Definition setContainerHeight (v : Q) : Run -> Run :=
  update (fun s => mkState (scrollTop s) v (colWidths s)
    (editingCell s) (editValue s) (selectedCell s) (resizingRef s)
    (isResizing s)).

Definition setColWidths (f : gmap string Js.Num -> gmap string Js.Num)
  : Run -> Run :=
  update (fun s => mkState (scrollTop s) (containerHeight s)
    (f (colWidths s)) (editingCell s) (editValue s) (selectedCell s)
    (resizingRef s) (isResizing s)).

Definition setEditingCell (v : option (Z * option string)) : Run -> Run :=
  update (fun s => mkState (scrollTop s) (containerHeight s) (colWidths s)
    v (editValue s) (selectedCell s) (resizingRef s) (isResizing s)).

Definition setEditValue (v : string) : Run -> Run :=
  update (fun s => mkState (scrollTop s) (containerHeight s) (colWidths s)
    (editingCell s) v (selectedCell s) (resizingRef s) (isResizing s)).

Definition setSelectedCell (v : option (Z * Z)) : Run -> Run :=
  update (fun s => mkState (scrollTop s) (containerHeight s) (colWidths s)
    (editingCell s) (editValue s) v (resizingRef s) (isResizing s)).

Definition setResizingRef (v : option ResizeSession) : Run -> Run :=
  update (fun s => mkState (scrollTop s) (containerHeight s) (colWidths s)
    (editingCell s) (editValue s) (selectedCell s) v (isResizing s)).

Definition setIsResizing (v : bool) : Run -> Run :=
  update (fun s => mkState (scrollTop s) (containerHeight s) (colWidths s)
    (editingCell s) (editValue s) (selectedCell s) (resizingRef s) v).

(** [useState] initial values. *)
Definition initialState : State :=
  mkState 0 0 ∅ None "" None None false.

Section Component.

Context {arith : Js.Arithmetic}.
Context {number : Type} (number_to_string : number -> string).

Record Props : Type := mkProps {
  sheet : Sheet number;
  zoomLevel : Q;
  compareSheet : option (Sheet number)
}.

Variable p : Props.

Definition columns : list string := sheet_columns (sheet p).
Definition totalRows : Z := Z.of_nat (length (sheet_data (sheet p))).
Definition rowHeight : Q := Virtualization.rowHeight (zoomLevel p).

(** The grid proper is rendered only for a sheet with rows; otherwise
    the empty-state message is, and [containerRef.current] is [null]. *)
Definition mounted : bool := negb (totalRows =? 0).

(** *** Reset on sheet change *)

(** [sheet.columns.forEach(c => initialWidths[c] = 150)], from [{}]. *)
Definition initialWidths : gmap string Js.Num :=
  foldl (fun widths c => Js.set widths c (Js.Number 150)) ∅ columns.

Definition resetOnSheetChange (r : Run) : Run :=
  setScrollTop 0
    (setSelectedCell None
       (setEditingCell None
          (setColWidths (fun _ => initialWidths) r))).

(** *** Auto size *)

(** The sampling loop over the first rows of the sheet; reading a column
    of a hole throws, which is [None]. *)
Fixpoint sampleWidth (measureText : string -> Q) (col : string)
    (rows : list (option (DataRow number))) (maxWidth : Q) : option Q :=
  match rows with
  | [] => Some maxWidth
  | None :: _ => None
  | Some row :: rest =>
      let txt := displayVal number_to_string (cell row col) in
      let w := Js.add (measureText txt) 24 in
      sampleWidth measureText col rest
        (if Qle_bool w maxWidth then maxWidth else w)
  end.

Definition fitColumn (measureText : string -> Q) (sampleCap : nat)
    (upper : Q) (col : string) : option Q :=
  let sampleLimit := Nat.min (length (sheet_data (sheet p))) sampleCap in
  maxWidth ← sampleWidth measureText col
               (take sampleLimit (sheet_data (sheet p)))
               (Js.add (measureText col) 40);
  Some (Qmin (Qmax maxWidth 60) upper).

(** [columnsToResize.forEach(col => ... newWidths[col] = ...)] *)
Fixpoint fitColumns (measureText : string -> Q)
    (cols : list string) (newWidths : gmap string Js.Num)
  : option (gmap string Js.Num) :=
  match cols with
  | [] => Some newWidths
  | col :: rest =>
      w ← fitColumn measureText 500 800 col;
      fitColumns measureText rest (Js.set newWidths col (Js.Number w))
  end.

(** [performAutoSize(specificCol?)]; an empty column name is falsy and
    selects every column. [None] when the sampling loop throws. *)
Definition performAutoSize (env : Env) (specificCol : option string)
    (s : State) (r : Run) : option Run :=
  match getContext env with
  | None => Some r
  | Some measureText =>
      let columnsToResize :=
        match specificCol with
        | Some c => if String.eqb c "" then columns else [c]
        | None => columns
        end in
      newWidths ← fitColumns measureText columnsToResize (colWidths s);
      Some (setColWidths (fun _ => newWidths) r)
  end.

(** *** Virtualization *)

Definition startIndex (s : State) : Z :=
  Virtualization.startIndex rowHeight (scrollTop s).
Definition endIndex (s : State) : Z :=
  Virtualization.endIndex rowHeight totalRows (scrollTop s)
    (containerHeight s).
Definition visibleRows (s : State) : list (option (DataRow number) * Z) :=
  Virtualization.visibleRows (sheet_data (sheet p))
    (startIndex s) (endIndex s).

(** A cell [(absoluteIndex, colIndex)] that the render produced. *)
Definition renderedCell (s : State) (absoluteIndex colIndex : Z) : bool :=
  mounted
  && bool_decide (absoluteIndex ∈ (visibleRows s).*2)
  && (0 <=? colIndex) && (colIndex <? Z.of_nat (length columns)).

(** [isEditing] of the cell render: the edit session names its cell by
    the index of the row and the name of the column. *)
Definition isEditing (s : State) (absoluteIndex : Z) (col : string) : bool :=
  match editingCell s with
  | Some (row, Some c) => (row =? absoluteIndex) && String.eqb c col
  | _ => false
  end.

(** The rendered cells, by row and column index, that show the edit
    [<input>]: columns of one name show an input each. *)
Definition editInputs (s : State) : list (Z * Z) :=
  if mounted then
    '(_, absoluteIndex) ← visibleRows s;
    '(colIndex, col) ← imap (fun i col => (Z.of_nat i, col)) columns;
    if isEditing s absoluteIndex col then [(absoluteIndex, colIndex)] else []
  else [].

(** Whether the render shows the edit [<input>] ([isEditing] holds for
    some rendered cell). The events of the input are modelled for one
    input, which is what a sheet with distinct column names shows. *)
Definition inputRendered (s : State) : bool :=
  match editingCell s with
  | Some (row, Some col) =>
      mounted
      && bool_decide (row ∈ (visibleRows s).*2)
      && bool_decide (col ∈ columns)
  | _ => false
  end.

(** *** Compare logic of the cell render

    The class fragment appended to [cellClass]. *)
Definition compareClass (absoluteIndex : Z) (col : string)
    (val : option (Value number)) : string :=
  match compareSheet p with
  | None => ""
  | Some cmp =>
      match row_at cmp absoluteIndex with
      | None => "bg-green-50 text-green-700 "
      | Some compareRow =>
          if String.eqb (String_ number_to_string val)
               (String_ number_to_string (or_empty (cell compareRow col)))
          then ""
          else "bg-amber-50 text-amber-800 font-medium "
      end
  end.

(** *** Resizing *)

(** [colWidths[col] || 150], the base width the header is rendered
    with (scaled by [zoomLevel / 100]) and a resize starts from; [None]
    when it is not a number. *)
Definition baseWidth (s : State) (col : string) : option Q :=
  Js.or_default (Js.get (colWidths s) col) 150.

Definition startResizing (clientX : Q) (col : string) (s : State)
    (r : Run) : Run :=
  setIsResizing true
    (setResizingRef
       (Some {| rs_col := col;
                rs_startX := clientX;
                rs_startWidth := baseWidth s col |})
       r).

(** [Math.max(50, startWidth + adjustedDiff)] is [NaN] when
    [startWidth] is not a number: the sum is then a string that names no
    number. The computed key of [{ ...prev, [col]: finalWidth }] defines
    the entry under every name. *)
Definition handleMouseMove (clientX : Q) (r : Run) : Run :=
  match resizingRef (next r) with
  | None => r
  | Some (mkResize col startX startWidth) =>
      let adjustedDiff :=
        Js.mul (Js.sub startX clientX) (Js.div 100 (zoomLevel p)) in
      let finalWidth :=
        match startWidth with
        | Some width => Js.Number (Qmax 50 (Js.add width adjustedDiff))
        | None => Js.NaN
        end in
      setColWidths (fun prev => <[col := finalWidth]> prev) r
  end.

Definition handleMouseUp (r : Run) : Run :=
  match resizingRef (next r) with
  | None => r
  | Some _ => setIsResizing false (setResizingRef None r)
  end.

(** *** Keyboard navigation *)

Definition scrollToCell (env : Env) (row : Z) (r : Run) : Run :=
  let rowTop := Js.mul (inject_Z row) rowHeight in
  let rowBottom := Js.add rowTop rowHeight in
  if mounted then
    let viewTop := c_scrollTop env in
    let viewBottom := Js.add viewTop (c_clientHeight env) in
    if negb (Qle_bool viewTop rowTop) then emit (AssignScrollTop rowTop) r
    else if negb (Qle_bool rowBottom viewBottom)
         then emit (AssignScrollTop (Js.sub rowBottom (c_clientHeight env))) r
         else r
  else r.

Definition handleCellClick (rowIdx colIdx : Z) (r : Run) : Run :=
  setSelectedCell (Some (rowIdx, colIdx)) r.

Definition startEditing (rowIdx : Z) (col : option string)
    (val : option (Value number)) (r : Run) : Run :=
  setEditValue (displayVal number_to_string val)
    (setEditingCell (Some (rowIdx, col)) r).

(** [containerRef.current?.focus()]. Moving the focus is synchronous:
    the element that loses it receives its blur event before [focus()]
    returns. When the edit input holds the focus, its [onBlur] prop runs
    at that point; it is a closure of the same render as the handler that
    is running, so it reads the same snapshot, and the updates queued so
    far are not visible to it. *)
Definition focusContainer (onBlur : Run -> Run) (r : Run) : Run :=
  if mounted then
    match nfocus r with
    | FocusInput => onBlur (withFocus FocusContainer r)
    | _ => withFocus FocusContainer r
    end
  else r.

(** What [saveEdit] does to an open session before it moves the focus:
    the call of [onCellEdit], the end of the session and the selection
    of the edited cell. *)
Definition commit (s : State) (row : Z) (col : option string) (r : Run)
  : Run :=
  let r := emit (OnCellEdit row col (editValue s)) r in
  let r := setEditingCell None r in
  let colIdx :=
    match col with Some c => Js.indexOf columns c | None => -1 end in
  if colIdx =? -1 then r else setSelectedCell (Some (row, colIdx)) r.

(** The body of [saveEdit], given what the input's [onBlur] does. *)
Definition saveEdit_with (onBlur : Run -> Run) (s : State) (r : Run) : Run :=
  match editingCell s with
  | Some (row, col) => focusContainer onBlur (commit s row col r)
  | None => r
  end.

(** [saveEdit]. The input's [onBlur] is [saveEdit] of the same render;
    by the time it runs the focus has left the input, so its own
    [focus()] call cannot trigger it again. *)
Definition saveEdit (s : State) (r : Run) : Run :=
  saveEdit_with (saveEdit_with (fun r' => r') s) s r.

(** The column a Shift+Tab or Tab press moves to, with the row. *)
Definition tabTarget (shiftKey : bool) (row colIdx : Z) : Z * Z :=
  if shiftKey then
    let newColIdx := Js.Math_max 0 (colIdx - 1) in
    if (newColIdx =? 0) && (0 <? row)
    then (row - 1, Z.of_nat (length columns) - 1)
    else (row, newColIdx)
  else
    (row, Js.Math_min (Z.of_nat (length columns) - 1) (colIdx + 1)).

(** The container's [onKeyDown]. [None] when [sheet.data[row]] is
    [undefined] and reading its column throws. *)
Definition handleKeyDown (env : Env) (key : Key) (shiftKey : bool)
    (s : State) (r : Run) : option Run :=
  match editingCell s with
  | Some _ =>
      let r := match key with Enter => saveEdit s r | _ => r end in
      Some (match key with Escape => setEditingCell None r | _ => r end)
  | None =>
      match selectedCell s with
      | None => Some r
      | Some (row, colIdx) =>
          let moveTo (target : Z * Z) :=
            Some (scrollToCell env (fst target)
                    (setSelectedCell (Some target) r)) in
          match key with
          | ArrowUp => moveTo (Js.Math_max 0 (row - 1), colIdx)
          | ArrowDown => moveTo (Js.Math_min (totalRows - 1) (row + 1), colIdx)
          | ArrowRight => moveTo (row, Js.Math_max 0 (colIdx - 1))
          | ArrowLeft =>
              moveTo (row,
                      Js.Math_min (Z.of_nat (length columns) - 1) (colIdx + 1))
          | Tab => moveTo (tabTarget shiftKey row colIdx)
          | Enter =>
              let col := Js.index columns colIdx in
              dataRow ← row_at (sheet p) row;
              Some (startEditing row col
                      (cell dataRow (default "undefined" col)) r)
          | Escape | OtherKey => Some r
          end
      end
  end.

(** The edit input's [onKeyDown]; it stops the propagation, so the
    container's handler does not see the key. *)
Definition inputKeyDown (key : Key) (s : State) (r : Run) : Run :=
  let r := match key with Enter => saveEdit s r | _ => r end in
  match key with Escape => setEditingCell None r | _ => r end.

(** *** Events

    The events the environment can deliver to the rendered component. A
    key goes to the element that holds the focus; the window listeners
    of a resize exist while [isResizing] holds. *)

Inductive Event : Type :=
| Scroll
| WindowResize
| CellClick (absoluteIndex colIndex : Z)
| CellDoubleClick (absoluteIndex colIndex : Z)
| ContainerKeyDown (key : Key) (shiftKey : bool)
| InputChange (value : string)
| InputKeyDown (key : Key)
| InputBlur (target : Focus)
| ResizerMouseDown (col : string) (clientX : Q)
| ResizerDoubleClick (col : string)
| WindowMouseMove (clientX : Q)
| WindowMouseUp
| AutoSizeColumns.

Record World : Type := mkWorld {
  st : State;
  focus : Focus
}.

(** [handleResize] of the resize observer effect. *)
Definition handleResize (env : Env) (r : Run) : Run :=
  if mounted then setContainerHeight (c_clientHeight env) r else r.

Definition isFocusInput (f : Focus) : bool :=
  match f with FocusInput => true | _ => false end.
Definition isFocusContainer (f : Focus) : bool :=
  match f with FocusContainer => true | _ => false end.

(** The handler an event runs, on the snapshot [s]; [None] when the
    event cannot occur in this render or its handler throws. *)
Definition handle (env : Env) (ev : Event) (s : State) (r : Run)
  : option Run :=
  match ev with
  | Scroll =>
      if mounted then Some (setScrollTop (c_scrollTop env) r) else None
  | WindowResize => Some (handleResize env r)
  | CellClick absoluteIndex colIndex =>
      if renderedCell s absoluteIndex colIndex then
        let r := if isFocusInput (nfocus r) then r
                 else withFocus FocusContainer r in
        Some (handleCellClick absoluteIndex colIndex r)
      else None
  | CellDoubleClick absoluteIndex colIndex =>
      if renderedCell s absoluteIndex colIndex then
        row ← row_at (sheet p) absoluteIndex;
        col ← Js.index columns colIndex;
        Some (startEditing absoluteIndex (Some col) (cell row col) r)
      else None
  | ContainerKeyDown key shiftKey =>
      if mounted && isFocusContainer (nfocus r)
      then handleKeyDown env key shiftKey s r
      else None
  | InputChange value =>
      if inputRendered s && isFocusInput (nfocus r)
      then Some (setEditValue value r) else None
  | InputKeyDown key =>
      if inputRendered s && isFocusInput (nfocus r)
      then Some (inputKeyDown key s r) else None
  | InputBlur target =>
      if inputRendered s && isFocusInput (nfocus r)
         && negb (isFocusInput target)
      then Some (withFocus target (saveEdit s (withFocus FocusElsewhere r)))
      else None
  | ResizerMouseDown col clientX =>
      if mounted && bool_decide (col ∈ columns)
      then Some (startResizing clientX col s r) else None
  | ResizerDoubleClick col =>
      if mounted && bool_decide (col ∈ columns)
      then performAutoSize env (Some col) s r else None
  | WindowMouseMove clientX =>
      if isResizing s then Some (handleMouseMove clientX r) else None
  | WindowMouseUp =>
      if isResizing s then Some (handleMouseUp r) else None
  | AutoSizeColumns => performAutoSize env None s r
  end.

(** The focus once the next render is committed: a newly mounted edit
    input takes it ([autoFocus]); when the input that held it is gone,
    nothing in the grid holds it. *)
Definition settleFocus (old new : State) (f : Focus) : Focus :=
  if inputRendered new then
    if inputRendered old
       && bool_decide (editingCell old = editingCell new)
    then f else FocusInput
  else
    match f with FocusInput => FocusElsewhere | _ => f end.

Definition dispatch (env : Env) (ev : Event) (w : World)
  : option (World * list Effect) :=
  r ← handle env ev (st w) (mkRun (st w) (focus w) []);
  Some (mkWorld (next r) (settleFocus (st w) (next r) (nfocus r)),
        effects r).

(** A sequence of events, each with the readings of its moment; the
    effects are collected in order. *)
Fixpoint dispatchAll (evs : list (Env * Event)) (w : World)
  : option (World * list Effect) :=
  match evs with
  | [] => Some (w, [])
  | (env, ev) :: rest =>
      '(w1, e1) ← dispatch env ev w;
      '(w2, e2) ← dispatchAll rest w1;
      Some (w2, e1 ++ e2)
  end.

(** The first render: the initial state, then the mount effects. *)
Definition mount (env : Env) : World :=
  let r := handleResize env
             (resetOnSheetChange (mkRun initialState FocusElsewhere [])) in
  mkWorld (next r) (settleFocus initialState (next r) (nfocus r)).

(** The states the grid can be in on the props [p]: the first render,
    and what any deliverable event makes of such a state. *)
Inductive reachable : World -> Prop :=
| reachable_mount env : reachable (mount env)
| reachable_step w env ev w' effs :
    reachable w ->
    dispatch env ev w = Some (w', effs) ->
    reachable w'.

(** The effect on [sheet.id, sheet.columns], run after a render in
    which a dependency differs from the previous render's. Whether the
    [columns] array is the same object is the caller's to say. *)
Definition sheetEffect (previous : Props) (sameColumnsArray : bool)
    (r : Run) : Run :=
  if String.eqb (sheet_id (sheet previous)) (sheet_id (sheet p))
     && sameColumnsArray
  then r else resetOnSheetChange r.

(** The selected cell, when there is one, is a cell of the sheet. *)
Definition selectionInBounds (s : State) : Prop :=
  match selectedCell s with
  | Some (row, colIdx) =>
      0 <= row < totalRows /\ 0 <= colIdx < Z.of_nat (length columns)
  | None => True
  end.

(** The edited cell, when there is one, is in a row of the sheet. *)
Definition editInBounds (s : State) : Prop :=
  match editingCell s with
  | Some (row, _) => 0 <= row < totalRows
  | None => True
  end.

End Component.

Arguments Props : clear implicits.

End Grid.

(** ** The plain grid

    Second version of [DataGrid.tsx]: no selection, no resizing; the
    comparison is the helper [getCellClass]. Its props are the same. *)

Module PlainGrid.

Record State : Type := mkState {
  scrollTop : Q;
  containerHeight : Q;
  editingCell : option (Z * string);
  editValue : string;
  colWidths : gmap string Js.Num
}.

Inductive Effect : Type :=
| OnCellEdit (rowIndex : Z) (colKey : string) (value : string).

Record Run : Type := mkRun {
  next : State;
  effects : list Effect
}.

Definition update (f : State -> State) (r : Run) : Run :=
  {| next := f (next r); effects := effects r |}.

Definition emit (e : Effect) (r : Run) : Run :=
  {| next := next r; effects := effects r ++ [e] |}.

Definition setScrollTop (v : Q) : Run -> Run :=
  update (fun s => mkState v (containerHeight s) (editingCell s)
    (editValue s) (colWidths s)).

Definition setContainerHeight (v : Q) : Run -> Run :=
  update (fun s => mkState (scrollTop s) v (editingCell s)
    (editValue s) (colWidths s)).

Definition setEditingCell (v : option (Z * string)) : Run -> Run :=
  update (fun s => mkState (scrollTop s) (containerHeight s) v
    (editValue s) (colWidths s)).

Definition setEditValue (v : string) : Run -> Run :=
  update (fun s => mkState (scrollTop s) (containerHeight s)
    (editingCell s) v (colWidths s)).

Definition setColWidths (v : gmap string Js.Num) : Run -> Run :=
  update (fun s => mkState (scrollTop s) (containerHeight s)
    (editingCell s) (editValue s) v).

Definition initialState : State := mkState 0 0 None "" ∅.

Section Component.

Context {arith : Js.Arithmetic}.
Context {number : Type} (number_to_string : number -> string).
Variable p : Grid.Props number.

Definition columns : list string := sheet_columns (Grid.sheet p).
Definition totalRows : Z := Z.of_nat (length (sheet_data (Grid.sheet p))).
Definition rowHeight : Q := Virtualization.rowHeight (Grid.zoomLevel p).
Definition mounted : bool := negb (totalRows =? 0).

(** *** Reset widths when the sheet changes *)

(** [sheet.columns.forEach(c => initialWidths[c] = 150)], from [{}]. *)
Definition initialWidths : gmap string Js.Num :=
  foldl (fun widths c => Js.set widths c (Js.Number 150)) ∅ columns.

Definition resetOnSheetChange (r : Run) : Run :=
  setEditingCell None (setColWidths initialWidths r).

(** *** The [autoSizeColumns] handle

    The measuring loop is the one of the full grid, with a sample of 200
    rows and an upper bound of 600; the new widths start from [{}]. *)
Fixpoint fitColumns (measureText : string -> Q)
    (cols : list string) (newWidths : gmap string Js.Num)
  : option (gmap string Js.Num) :=
  match cols with
  | [] => Some newWidths
  | col :: rest =>
      w ← Grid.fitColumn number_to_string p measureText 200 600 col;
      fitColumns measureText rest (Js.set newWidths col (Js.Number w))
  end.

Definition autoSizeColumns (env : Grid.Env) (r : Run) : option Run :=
  match Grid.getContext env with
  | None => Some r
  | Some measureText =>
      newWidths ← fitColumns measureText columns ∅;
      Some (setColWidths newWidths r)
  end.

(** *** Virtualization *)

Definition startIndex (s : State) : Z :=
  Virtualization.startIndex rowHeight (scrollTop s).
Definition endIndex (s : State) : Z :=
  Virtualization.endIndex rowHeight totalRows (scrollTop s)
    (containerHeight s).
Definition visibleRows (s : State) : list (option (DataRow number) * Z) :=
  Virtualization.visibleRows (sheet_data (Grid.sheet p))
    (startIndex s) (endIndex s).

(** *** Comparison *)

Definition getCellClass (rowIdx : Z) (colName : string)
    (val : option (Value number)) : string :=
  match Grid.compareSheet p with
  | None => ""
  | Some cmp =>
      match row_at cmp rowIdx with
      | None => "bg-green-50 text-green-700"
      | Some compareRow =>
          let compareVal := cell compareRow colName in
          if String.eqb (String_ number_to_string val)
               (String_ number_to_string (or_empty compareVal))
          then ""
          else "bg-amber-50 text-amber-800 font-medium"
      end
  end.

(** [base * (zoomLevel / 100)] is [NaN] when [base] is not a number. *)
Definition getScaledColWidth (s : State) (col : string) : Js.Num :=
  match Js.or_default (Js.get (colWidths s) col) 150 with
  | Some base => Js.Number (Js.mul base (Js.div (Grid.zoomLevel p) 100))
  | None => Js.NaN
  end.

(** *** Editing *)

Definition startEditing (rowIdx : Z) (col : string)
    (val : option (Value number)) (r : Run) : Run :=
  setEditValue (displayVal number_to_string val)
    (setEditingCell (Some (rowIdx, col)) r).

Definition saveEdit (s : State) (r : Run) : Run :=
  match editingCell s with
  | Some (row, col) =>
      setEditingCell None (emit (OnCellEdit row col (editValue s)) r)
  | None => r
  end.

Definition handleKeyDown (key : Grid.Key) (s : State) (r : Run) : Run :=
  match key with
  | Grid.Enter => saveEdit s r
  | Grid.Escape => setEditingCell None r
  | _ => r
  end.

(** *** Events *)

Inductive Event : Type :=
| Scroll
| WindowResize
| CellDoubleClick (absoluteIndex colIndex : Z)
| InputChange (value : string)
| InputKeyDown (key : Grid.Key)
| InputBlur
| AutoSizeColumns.

Definition renderedCell (s : State) (absoluteIndex colIndex : Z) : bool :=
  mounted
  && bool_decide (absoluteIndex ∈ (visibleRows s).*2)
  && (0 <=? colIndex) && (colIndex <? Z.of_nat (length columns)).

Definition isEditing (s : State) (absoluteIndex : Z) (col : string) : bool :=
  match editingCell s with
  | Some (row, c) => (row =? absoluteIndex) && String.eqb c col
  | None => false
  end.

(** The rendered cells that show the edit [<input>], as in the full
    grid. *)
Definition editInputs (s : State) : list (Z * Z) :=
  if mounted then
    '(_, absoluteIndex) ← visibleRows s;
    '(colIndex, col) ← imap (fun i col => (Z.of_nat i, col)) columns;
    if isEditing s absoluteIndex col then [(absoluteIndex, colIndex)] else []
  else [].

Definition inputRendered (s : State) : bool :=
  match editingCell s with
  | Some (row, col) =>
      mounted
      && bool_decide (row ∈ (visibleRows s).*2)
      && bool_decide (col ∈ columns)
  | None => false
  end.

Definition handleResize (env : Grid.Env) (r : Run) : Run :=
  if mounted then setContainerHeight (Grid.c_clientHeight env) r else r.

(** The edit input is removed by the render that follows a commit or a
    cancel; an element that is removed receives no blur event. *)
Definition handle (env : Grid.Env) (ev : Event) (s : State) (r : Run)
  : option Run :=
  match ev with
  | Scroll =>
      if mounted then Some (setScrollTop (Grid.c_scrollTop env) r) else None
  | WindowResize => Some (handleResize env r)
  | CellDoubleClick absoluteIndex colIndex =>
      if renderedCell s absoluteIndex colIndex then
        row ← row_at (Grid.sheet p) absoluteIndex;
        col ← Js.index columns colIndex;
        Some (startEditing absoluteIndex col (cell row col) r)
      else None
  | InputChange value =>
      if inputRendered s then Some (setEditValue value r) else None
  | InputKeyDown key =>
      if inputRendered s then Some (handleKeyDown key s r) else None
  | InputBlur =>
      if inputRendered s then Some (saveEdit s r) else None
  | AutoSizeColumns => autoSizeColumns env r
  end.

Definition dispatch (env : Grid.Env) (ev : Event) (s : State)
  : option (State * list Effect) :=
  r ← handle env ev s (mkRun s []);
  Some (next r, effects r).

Fixpoint dispatchAll (evs : list (Grid.Env * Event)) (s : State)
  : option (State * list Effect) :=
  match evs with
  | [] => Some (s, [])
  | (env, ev) :: rest =>
      '(s1, e1) ← dispatch env ev s;
      '(s2, e2) ← dispatchAll rest s1;
      Some (s2, e1 ++ e2)
  end.

(** The first render: the initial state, then the mount effects. *)
Definition mount (env : Grid.Env) : State :=
  next (handleResize env (resetOnSheetChange (mkRun initialState []))).

Definition sheetEffect (previous : Grid.Props number)
    (sameColumnsArray : bool) (r : Run) : Run :=
  if String.eqb (sheet_id (Grid.sheet previous)) (sheet_id (Grid.sheet p))
     && sameColumnsArray
  then r else resetOnSheetChange r.

End Component.
End PlainGrid.

(** ** The workspace of the host application ([App.tsx])

    The state the handlers below read and write: the open sheets, the
    active and the comparison sheet, and the zoom. A sheet id is what
    [generateId] returned when the sheet was opened; it comes with the
    event. *)

Module Workspace.
Section Workspace.

Context {number : Type}.

Record State : Type := mkState {
  sheets : list (Sheet number);
  activeSheetId : option string;
  compareSheetId : option string;
  isCompareMode : bool;
  zoomLevel : Z
}.

Definition initialState : State := mkState [] None None false 100.

Definition hasId (id : string) (sheet : Sheet number) : bool :=
  String.eqb (sheet_id sheet) id.

(** [sheets.find(s => s.id === id)] for an id that may be [null]. *)
Definition findSheet (st : State) (id : option string)
  : option (Sheet number) :=
  match id with
  | Some i => List.find (hasId i) (sheets st)
  | None => None
  end.

Definition activeSheet (st : State) : option (Sheet number) :=
  findSheet st (activeSheetId st).

(** [isCompareMode && compareSheetId ? sheets.find(...) : null]; the
    empty string is falsy. *)
Definition comparisonSheet (st : State) : option (Sheet number) :=
  match compareSheetId st with
  | Some c =>
      if isCompareMode st && negb (String.eqb c "")
      then findSheet st (Some c) else None
  | None => None
  end.

(** The state updates at the end of [handleFileUpload], once the file is
    parsed into [newSheet]. The second version of the application opens
    the sheet only when it has rows ([requireRows]). *)
Definition handleFileUpload (requireRows : bool) (newSheet : Sheet number)
    (st : State) : State :=
  if requireRows && (length (sheet_data newSheet) =? 0)%nat then st
  else mkState (sheets st ++ [newSheet]) (Some (sheet_id newSheet))
         (compareSheetId st) (isCompareMode st) (zoomLevel st).

Definition createEmptySheet (id : string) (st : State) : State :=
  let newSheet :=
    mkSheet id ("New Sheet " +:+ pretty (length (sheets st) + 1)%nat)
      [] [] csv in
  mkState (sheets st ++ [newSheet]) (Some id)
    (compareSheetId st) (isCompareMode st) (zoomLevel st).

Definition closeTab (id : string) (st : State) : State :=
  let newSheets := filter (fun s => sheet_id s <> id) (sheets st) in
  let active :=
    if bool_decide (activeSheetId st = Some id)
    then sheet_id <$> last newSheets
    else activeSheetId st in
  if bool_decide (compareSheetId st = Some id)
  then mkState newSheets active None false (zoomLevel st)
  else mkState newSheets active (compareSheetId st) (isCompareMode st)
         (zoomLevel st).

Definition adjustZoom (delta : Z) (st : State) : State :=
  mkState (sheets st) (activeSheetId st) (compareSheetId st)
    (isCompareMode st)
    (Js.Math_min (Js.Math_max 20 (zoomLevel st + delta)) 200).

Definition resetZoom (st : State) : State :=
  mkState (sheets st) (activeSheetId st) (compareSheetId st)
    (isCompareMode st) 100.

Definition setActiveSheetId (id : string) (st : State) : State :=
  mkState (sheets st) (Some id) (compareSheetId st) (isCompareMode st)
    (zoomLevel st).

(** [onChange] of the comparison [<select>]. *)
Definition selectComparison (value : string) (st : State) : State :=
  if String.eqb value ""
  then mkState (sheets st) (activeSheetId st) None false (zoomLevel st)
  else mkState (sheets st) (activeSheetId st) (Some value) true
         (zoomLevel st).

Definition handleCellEdit (rowIndex : Z) (colKey value : string)
    (st : State) : State :=
  let app :=
    Host.handleCellEdit rowIndex colKey value
      (Host.mkApp (sheets st) (activeSheetId st)) in
  mkState (Host.sheets app) (activeSheetId st) (compareSheetId st)
    (isCompareMode st) (zoomLevel st).

(** The props the grid is rendered with, when it is rendered. *)
Definition gridProps (st : State) : option (Grid.Props number) :=
  match sheets st with
  | [] => None
  | _ =>
      sheet ← activeSheet st;
      Some (Grid.mkProps sheet (inject_Z (zoomLevel st)) (comparisonSheet st))
  end.

(** The tabs, the zoom buttons and the comparison select exist only in
    the renders that show them, with the values of that render. *)
Inductive Event : Type :=
| FileUploaded (requireRows : bool) (newSheet : Sheet number)
| EmptySheetCreated (id : string)
| TabClicked (id : string)
| TabClosed (id : string)
| ZoomAdjusted (delta : Z)
| ZoomReset
| ComparisonSelected (value : string)
| CellEdited (rowIndex : Z) (colKey value : string).

Definition isOpen (st : State) (id : string) : bool :=
  existsb (hasId id) (sheets st).

Definition dispatch (ev : Event) (st : State) : option State :=
  match ev with
  | FileUploaded requireRows newSheet =>
      Some (handleFileUpload requireRows newSheet st)
  | EmptySheetCreated id => Some (createEmptySheet id st)
  | TabClicked id =>
      if isOpen st id then Some (setActiveSheetId id st) else None
  | TabClosed id => if isOpen st id then Some (closeTab id st) else None
  | ZoomAdjusted delta =>
      if bool_decide (is_Some (activeSheet st))
      then Some (adjustZoom delta st) else None
  | ZoomReset =>
      if bool_decide (is_Some (activeSheet st))
      then Some (resetZoom st) else None
  | ComparisonSelected value =>
      if bool_decide (is_Some (activeSheet st))
         && (1 <? length (sheets st))%nat
         && (String.eqb value ""
             || isOpen st value
                && negb (bool_decide (activeSheetId st = Some value)))
      then Some (selectComparison value st) else None
  | CellEdited rowIndex colKey value =>
      if bool_decide (is_Some (gridProps st))
      then Some (handleCellEdit rowIndex colKey value st) else None
  end.

Inductive reachable : State -> Prop :=
| reachable_initial : reachable initialState
| reachable_step st ev st' :
    reachable st -> dispatch ev st = Some st' -> reachable st'.

End Workspace.

Arguments State : clear implicits.

End Workspace.

(** ** CSV text ([utils/fileParser.ts])

    A string is taken as the list of its code units. Which code units
    [trim] removes (the white space and line terminators of ECMAScript) is
    a parameter of the development. *)

Module Csv.

Definition QUOTE : ascii := "034"%char.
Definition COMMA : ascii := ","%char.
Definition LF : ascii := "010"%char.
Definition CR : ascii := "013"%char.

(** [a.join(sep)] *)
Fixpoint join (sep : ascii) (parts : list (list ascii)) : list ascii :=
  match parts with
  | [] => []
  | [part] => part
  | part :: rest => part ++ sep :: join sep rest
  end.

(** [text.split(/\r?\n/)]: a line ends at a line feed, and a carriage
    return right before it belongs to the separator. *)
Fixpoint splitLines_from (cur text : list ascii) : list (list ascii) :=
  match text with
  | [] => [cur]
  | c :: rest =>
      if Ascii.eqb c LF then cur :: splitLines_from [] rest
      else
        match rest with
        | c' :: rest' =>
            if Ascii.eqb c CR && Ascii.eqb c' LF
            then cur :: splitLines_from [] rest'
            else splitLines_from (cur ++ [c]) rest
        | [] => splitLines_from (cur ++ [c]) rest
        end
  end.

Definition splitLines (text : list ascii) : list (list ascii) :=
  splitLines_from [] text.

Definition includes (val : list ascii) (c : ascii) : bool :=
  existsb (Ascii.eqb c) val.

(** [val.replace]: every quote character becomes two. *)
Definition doubleQuotes (val : list ascii) : list ascii :=
  flat_map (fun c => if Ascii.eqb c QUOTE then [QUOTE; QUOTE] else [c]) val.

Section Csv.

Context {number : Type} (number_to_string : number -> string).
Variable isWhiteSpace : ascii -> bool.

Fixpoint trimStart (s : list ascii) : list ascii :=
  match s with
  | c :: rest => if isWhiteSpace c then trimStart rest else s
  | [] => []
  end.

Definition trimEnd (s : list ascii) : list ascii :=
  reverse (trimStart (reverse s)).

Definition trim (s : list ascii) : list ascii := trimEnd (trimStart s).

(** The loop of [parseLine] over the rest of the line. *)
Fixpoint parseLine_from (text : list ascii) (result : list (list ascii))
    (cur : list ascii) (inQuote : bool) : list (list ascii) :=
  match text with
  | [] => result ++ [trim cur]
  | char :: rest =>
      if Ascii.eqb char QUOTE
      then parseLine_from rest result cur (negb inQuote)
      else if Ascii.eqb char COMMA && negb inQuote
           then parseLine_from rest (result ++ [trim cur]) [] inQuote
           else parseLine_from rest result (cur ++ [char]) inQuote
  end.

Definition parseLine (text : list ascii) : list (list ascii) :=
  parseLine_from text [] [] false.

(** [row[header] = value] on an object made by [{}]: the assignment
    defines the entry, except under the name [__proto__], where it calls
    the setter of [Object.prototype], which ignores a string. *)
Definition assign (row : DataRow number) (header value : list ascii)
  : DataRow number :=
  let key := String.string_of_list_ascii header in
  if String.eqb key "__proto__" then row
  else <[key := VString (String.string_of_list_ascii value)]> row.

(** [headers.forEach((header, index) => row[header] = values[index])],
    for as many values as headers. *)
Definition makeRow (headers values : list (list ascii)) : DataRow number :=
  foldl (fun row hv => assign row (fst hv) (snd hv)) ∅ (zip headers values).

(** The loop over the lines after the header: a line with another number
    of fields than the header is skipped. *)
Fixpoint parseRows (headers : list (list ascii))
    (lines : list (list ascii)) : list (option (DataRow number)) :=
  match lines with
  | [] => []
  | line :: rest =>
      let values := parseLine line in
      if (length values =? length headers)%nat
      then Some (makeRow headers values) :: parseRows headers rest
      else parseRows headers rest
  end.

Definition parseCSV (content : string)
  : list (option (DataRow number)) * list string :=
  match splitLines (trim (String.list_ascii_of_string content)) with
  | [] => ([], [])
  | first :: rest =>
      let headers := parseLine first in
      (parseRows headers rest, map String.string_of_list_ascii headers)
  end.

(** One field of [exportToCSV]. *)
Definition exportField (v : option (Value number)) : list ascii :=
  let val := String.list_ascii_of_string (displayVal number_to_string v) in
  if includes val COMMA || includes val QUOTE || includes val LF
  then QUOTE :: doubleQuotes val ++ [QUOTE]
  else val.

(** One line of [exportToCSV]. [map] leaves the holes of [data] in place
    and [join] prints them as empty lines. *)
Definition exportRow (columns : list string)
    (row : option (DataRow number)) : list ascii :=
  match row with
  | Some r => join COMMA (map (fun col => exportField (cell r col)) columns)
  | None => []
  end.

Definition exportToCSV (data : list (option (DataRow number)))
    (columns : list string) : string :=
  let headerRow := join COMMA (map String.list_ascii_of_string columns) in
  String.string_of_list_ascii (join LF (headerRow :: map (exportRow columns) data)).

End Csv.
End Csv.

(** ** A small table to run the grid on

    Columns [A, B, C] and the two rows [{A:"1", B:"2", C:"3"}] and
    [{A:"4", B:"5", C:"6"}], at zoom 100 in a container 600 pixels high. *)

Module Scenario.

(** The scenario runs with the arithmetic of the code. *)
#[local] Existing Instance Js.binary64.

Section Scenario.

Context {number : Type}.

Definition row1 : DataRow number :=
  <["A" := VString "1"]> (<["B" := VString "2"]> (<["C" := VString "3"]> ∅)).
Definition row2 : DataRow number :=
  <["A" := VString "4"]> (<["B" := VString "5"]> (<["C" := VString "6"]> ∅)).

Definition table : Sheet number :=
  mkSheet "sheet1" "table.json" [Some row1; Some row2] ["A"; "B"; "C"] json.

Definition props : Grid.Props number := Grid.mkProps table 100 None.

Definition env : Grid.Env := Grid.mkEnv 0 600 None.

(** The table at another zoom level. *)
Definition propsAt (zoomLevel : Q) : Grid.Props number :=
  Grid.mkProps table zoomLevel None.

(** The sheet read from the CSV text of the two lines [__proto__,A] and
    [1,2]: its first column has the name of the prototype link of
    objects, under which the reader stores no cell. *)
Definition protoRow : DataRow number := <["A" := VString "2"]> ∅.
Definition protoTable : Sheet number :=
  mkSheet "sheet3" "proto.csv" [Some protoRow] ["__proto__"; "A"] csv.
Definition protoProps : Grid.Props number :=
  Grid.mkProps protoTable 100 None.

(** A one-column sheet whose only cell is [null], compared with itself. *)
Definition nullRow : DataRow number := <["A" := VNull]> ∅.
Definition nullTable : Sheet number :=
  mkSheet "sheet2" "nulls.json" [Some nullRow] ["A"] json.
Definition nullProps : Grid.Props number :=
  Grid.mkProps nullTable 100 (Some nullTable).

(** Runs a list of events with the readings of [env]. *)
Definition run (nts : number -> string) (p : Grid.Props number)
    (evs : list Grid.Event) (w : Grid.World)
  : option (Grid.World * list Grid.Effect) :=
  Grid.dispatchAll nts p (map (pair env) evs) w.

Definition runPlain (nts : number -> string) (p : Grid.Props number)
    (evs : list PlainGrid.Event) (s : PlainGrid.State)
  : option (PlainGrid.State * list PlainGrid.Effect) :=
  PlainGrid.dispatchAll nts p (map (pair env) evs) s.

End Scenario.

(** The same table with integers as the numbers of cells, printed in
    decimal. *)
Definition showZ : Z -> string := pretty.

(** A canvas on which every character is 8 pixels wide. *)
Definition measureText (txt : string) : Q :=
  inject_Z (8 * Z.of_nat (String.length txt)).

Definition canvasEnv : Grid.Env := Grid.mkEnv 0 600 (Some measureText).

Definition start : Grid.World := Grid.mount (number := Z) props env.

(** The grid after the events [evs], from the first render. *)
Definition after (evs : list Grid.Event) : Grid.World :=
  default start (fst <$> run showZ props evs start).

(** The same on other props. *)
Definition afterOn (p : Grid.Props Z) (evs : list Grid.Event) : Grid.World :=
  let start := Grid.mount p env in
  default start (fst <$> run showZ p evs start).

(** The workspace after [table.json] and then [nulls.json] are opened:
    the second file is the active sheet. *)
Definition workspace : Workspace.State Z :=
  Workspace.handleFileUpload false nullTable
    (Workspace.handleFileUpload false table Workspace.initialState).

(** The white space of [trim] among the first 256 code units: tab, line
    feed, vertical tab, form feed, carriage return, space and no-break
    space. *)
Definition isWhiteSpace (c : ascii) : bool :=
  let n := N_of_ascii c in
  ((9 <=? n) && (n <=? 13) || (n =? 32) || (n =? 160))%N.

End Scenario.

(** * Properties

    A statement that does not name its arithmetic is about the
    arithmetic of the code, [Js.binary64]. *)

#[local] Existing Instance Js.binary64.

(** ** The arithmetic *)

Lemma exact_rounding : Js.Rounding Js.exact.
Proof. by split; cbn; intros; try lra. Qed.

Section RoundingFacts.

Context {arith : Js.Arithmetic}.
Hypothesis rounding : Js.Rounding arith.

Lemma fl_proper (x y : Q) : (x == y)%Q -> (Js.fl x == Js.fl y)%Q.
Proof.
  intros E. apply Qle_antisym; apply (Js.fl_le _ rounding); rewrite E; lra.
Qed.

Lemma fl_nonneg (x : Q) : (0 <= x)%Q -> (0 <= Js.fl x)%Q.
Proof.
  intros Hx. rewrite <- (Js.fl_0 _ rounding). by apply (Js.fl_le _ rounding).
Qed.

Lemma div_le (a b h : Q) :
  (0 < h)%Q -> (a <= b)%Q -> (Js.div a h <= Js.div b h)%Q.
Proof.
  intros Hh Hab. apply (Js.fl_le _ rounding).
  apply Qmult_le_compat_r; [exact Hab|].
  apply Qlt_le_weak, Qinv_lt_0_compat, Hh.
Qed.

Lemma div_nonneg (a h : Q) : (0 < h)%Q -> (0 <= a)%Q -> (0 <= Js.div a h)%Q.
Proof.
  intros Hh Ha. apply fl_nonneg. apply Qle_shift_div_l; [exact Hh|]. lra.
Qed.

End RoundingFacts.

(** *** The rounding of doubles *)

Section Binary64Facts.

Local Open Scope Q_scope.

Lemma pow2_pos (e : Z) : 0 < 2 ^ e.
Proof. by apply Qpower_0_lt. Qed.

Lemma pow2_succ (e : Z) : 2 ^ (e + 1) == 2 * 2 ^ e.
Proof. rewrite Qpower_plus by done. change (2 ^ 1) with 2. ring. Qed.

Lemma pow2_inject (k : Z) : (0 <= k)%Z -> inject_Z (2 ^ k) == 2 ^ k.
Proof. intros Hk. by rewrite Zpower_Qpower. Qed.

Lemma pow2_sub (a b : Z) : 2 ^ (a - b) * 2 ^ b == 2 ^ a.
Proof.
  rewrite <- Qpower_plus by done. by replace (a - b + b)%Z with a by lia.
Qed.

(** [ilog2] is the exponent of its argument. *)
Lemma ilog2_spec (x : Q) :
  0 < x -> 2 ^ Js.ilog2 x <= x /\ x < 2 ^ (Js.ilog2 x + 1).
Proof.
  intros Hx. destruct x as [n d].
  assert (Hn : (0 < n)%Z).
  { unfold Qlt in Hx. cbn in Hx. lia. }
  unfold Js.ilog2. cbn [Qnum Qden].
  set (ln := Z.log2 n). set (ld := Z.log2 (Z.pos d)).
  pose proof (Z.log2_spec n Hn) as [Hn1 Hn2].
  pose proof (Z.log2_spec (Z.pos d) eq_refl) as [Hd1 Hd2].
  fold ln in Hn1, Hn2. fold ld in Hd1, Hd2.
  pose proof (Z.log2_nonneg n). pose proof (Z.log2_nonneg (Z.pos d)).
  fold ln in H. fold ld in H0.
  rewrite Zle_Qle, pow2_inject in Hn1, Hd1 by done.
  rewrite Zlt_Qlt, pow2_inject in Hn2, Hd2 by lia.
  unfold Z.succ in *.
  rewrite pow2_succ in Hn2, Hd2.
  set (x := n # d) in *.
  assert (Ex : x * inject_Z (Z.pos d) == inject_Z n).
  { unfold x. rewrite Qmake_Qdiv. field.
    intros E. rewrite E in Hd1. pose proof (pow2_pos ld). lra. }
  pose proof (pow2_sub ln ld) as E0.
  pose proof (pow2_pos (ln - ld)) as P0. pose proof (pow2_pos ld) as Pd.
  pose proof (pow2_pos ln) as Pn.
  destruct (Qle_bool (2 ^ (ln - ld)) x) eqn:Hb.
  - apply Qle_bool_iff in Hb. split; [exact Hb|].
    rewrite pow2_succ. nra.
  - assert (Hlt : x < 2 ^ (ln - ld)).
    { apply Qnot_le_lt. intros Hle. apply Qle_bool_iff in Hle. congruence. }
    replace (ln - ld - 1 + 1)%Z with (ln - ld)%Z by lia.
    split; [|exact Hlt].
    assert (E1 : 2 ^ (ln - ld) == 2 * 2 ^ (ln - ld - 1)).
    { rewrite <- pow2_succ. by replace (ln - ld - 1 + 1)%Z with (ln - ld)%Z by lia. }
    pose proof (pow2_pos (ln - ld - 1)). nra.
Qed.

Lemma ilog2_unique (x : Q) (e : Z) :
  2 ^ e <= x -> x < 2 ^ (e + 1) -> Js.ilog2 x = e.
Proof.
  intros H1 H2.
  assert (Hx : 0 < x) by (pose proof (pow2_pos e); lra).
  destruct (ilog2_spec x Hx) as [H3 H4].
  assert (e < Js.ilog2 x + 1)%Z.
  { apply (Qpower_lt_compat_l_inv 2); [lra|done]. }
  assert (Js.ilog2 x < e + 1)%Z.
  { apply (Qpower_lt_compat_l_inv 2); [lra|done]. }
  lia.
Qed.

Lemma ilog2_le (x y : Q) : 0 < x -> x <= y -> (Js.ilog2 x <= Js.ilog2 y)%Z.
Proof.
  intros Hx Hxy.
  destruct (ilog2_spec x Hx) as [H1 _].
  destruct (ilog2_spec y) as [_ H2]; [lra|].
  assert (Js.ilog2 x < Js.ilog2 y + 1)%Z; [|lia].
  apply (Qpower_lt_compat_l_inv 2); [lra|done].
Qed.

Lemma roundHalfEven_bounds (x : Q) :
  (Qfloor x <= Js.roundHalfEven x <= Qfloor x + 1)%Z.
Proof.
  unfold Js.roundHalfEven.
  destruct (_ ?= _); [destruct (Z.even _)|..]; lia.
Qed.

Lemma roundHalfEven_le (x y : Q) :
  x <= y -> (Js.roundHalfEven x <= Js.roundHalfEven y)%Z.
Proof.
  intros Hxy. pose proof (Qfloor_resp_le _ _ Hxy) as Hf.
  pose proof (roundHalfEven_bounds x). pose proof (roundHalfEven_bounds y).
  destruct (decide (Qfloor x = Qfloor y)) as [E|]; [|lia].
  unfold Js.roundHalfEven. rewrite <- E.
  destruct (Qcompare_spec (x - inject_Z (Qfloor x)) (1 # 2));
    destruct (Qcompare_spec (y - inject_Z (Qfloor x)) (1 # 2));
    try destruct (Z.even _); try lia; lra.
Qed.

Lemma roundHalfEven_integer (x : Q) (z : Z) :
  x == inject_Z z -> Js.roundHalfEven x = z.
Proof.
  intros E.
  assert (Hz : Js.roundHalfEven (inject_Z z) = z).
  { unfold Js.roundHalfEven. rewrite Qfloor_Z.
    destruct (Qcompare_spec (inject_Z z - inject_Z z) (1 # 2)); try lra; done. }
  assert (H1 : x <= inject_Z z) by (rewrite E; apply Qle_refl).
  assert (H2 : inject_Z z <= x) by (rewrite E; apply Qle_refl).
  apply roundHalfEven_le in H1, H2. lia.
Qed.

(** The significand of a positive number has 53 bits. *)
Lemma significand_range (x : Q) :
  0 < x ->
  let m := x / 2 ^ (Js.ilog2 x - 52) in 2 ^ 52 <= m /\ m < 2 ^ 53.
Proof.
  intros Hx m. destruct (ilog2_spec x Hx) as [H1 H2].
  set (e := Js.ilog2 x) in *.
  pose proof (pow2_pos (e - 52)) as Hu.
  pose proof (pow2_sub e 52) as E1.
  assert (E2 : 2 ^ (e + 1) == 2 ^ (e - 52) * 2 ^ 53).
  { rewrite <- Qpower_plus by done. by replace (e - 52 + 53)%Z with (e + 1)%Z by lia. }
  subst m. split.
  - apply Qle_shift_div_l; [done|]. by rewrite (Qmult_comm (2 ^ 52)), E1.
  - apply Qlt_shift_div_r; [done|]. by rewrite (Qmult_comm (2 ^ 53)), <- E2.
Qed.

Lemma nearest_range (x : Q) :
  0 < x ->
  2 ^ Js.ilog2 x <= Js.nearest x /\ Js.nearest x <= 2 ^ (Js.ilog2 x + 1).
Proof.
  intros Hx. destruct (significand_range x Hx) as [H1 H2].
  unfold Js.nearest. set (e := Js.ilog2 x) in *.
  set (m := x / 2 ^ (e - 52)) in *.
  pose proof (pow2_pos (e - 52)) as Hu.
  pose proof (pow2_sub e 52) as E1.
  assert (E2 : 2 ^ (e + 1) == 2 ^ (e - 52) * 2 ^ 53).
  { rewrite <- Qpower_plus by done. by replace (e - 52 + 53)%Z with (e + 1)%Z by lia. }
  assert (L : (2 ^ 52 <= Js.roundHalfEven m)%Z).
  { rewrite <- (roundHalfEven_integer (2 ^ 52) (2 ^ 52)%Z) by reflexivity.
    by apply roundHalfEven_le. }
  assert (U : (Js.roundHalfEven m <= 2 ^ 53)%Z).
  { transitivity (Js.roundHalfEven (2 ^ 53)).
    - apply roundHalfEven_le. lra.
    - by rewrite (roundHalfEven_integer (2 ^ 53) (2 ^ 53)%Z). }
  rewrite Zle_Qle in L, U.
  change (inject_Z (2 ^ 52)) with (2 ^ 52) in L.
  change (inject_Z (2 ^ 53)) with (2 ^ 53) in U.
  split.
  - rewrite <- E1. rewrite (Qmult_comm (2 ^ (e - 52))).
    apply Qmult_le_compat_r; [done|lra].
  - rewrite E2. rewrite (Qmult_comm (2 ^ (e - 52))).
    apply Qmult_le_compat_r; [done|lra].
Qed.

Lemma nearest_pos (x : Q) : 0 < x -> 0 < Js.nearest x.
Proof.
  intros Hx. destruct (nearest_range x Hx) as [H _].
  pose proof (pow2_pos (Js.ilog2 x)). lra.
Qed.

Lemma nearest_le (x y : Q) : 0 < x -> x <= y -> Js.nearest x <= Js.nearest y.
Proof.
  intros Hx Hxy. assert (Hy : 0 < y) by lra.
  pose proof (ilog2_le x y Hx Hxy) as He.
  destruct (decide (Js.ilog2 x = Js.ilog2 y)) as [E|Hne].
  - unfold Js.nearest. rewrite E.
    pose proof (pow2_pos (Js.ilog2 y - 52)) as Hu.
    apply Qmult_le_compat_r; [|lra].
    rewrite <- Zle_Qle. apply roundHalfEven_le.
    apply Qmult_le_compat_r; [done|]. apply Qlt_le_weak, Qinv_lt_0_compat, Hu.
  - destruct (nearest_range x Hx) as [_ H1].
    destruct (nearest_range y Hy) as [H2 _].
    assert (2 ^ (Js.ilog2 x + 1) <= 2 ^ Js.ilog2 y).
    { apply Qpower_le_compat_l; [lia|lra]. }
    lra.
Qed.

Lemma nearest_proper (x y : Q) :
  0 < x -> x == y -> Js.nearest x == Js.nearest y.
Proof.
  intros Hx E. apply Qle_antisym; apply nearest_le; lra.
Qed.

Lemma binary64_fl_cases (x : Q) :
  let fl := Js.fl (Arithmetic := Js.binary64) in
  (x < 0 /\ fl x = - Js.nearest (- x))
  \/ (x == 0 /\ fl x = 0)
  \/ (0 < x /\ fl x = Js.nearest x).
Proof.
  cbn. destruct (Qcompare_spec x 0); auto.
Qed.

(** The rounding of doubles keeps the order, the sign and zero. *)
Lemma binary64_rounding : Js.Rounding Js.binary64.
Proof.
  split.
  - intros x y Hxy.
    destruct (binary64_fl_cases x) as [[Hx ->]|[[Hx ->]|[Hx ->]]];
      destruct (binary64_fl_cases y) as [[Hy ->]|[[Hy ->]|[Hy ->]]];
      try lra.
    + assert (Js.nearest (- y) <= Js.nearest (- x))
        by (apply nearest_le; lra). lra.
    + pose proof (nearest_pos (- x)). lra.
    + pose proof (nearest_pos (- x)). pose proof (nearest_pos y). lra.
    + pose proof (nearest_pos y). lra.
    + by apply nearest_le.
  - intros x.
    destruct (binary64_fl_cases x) as [[Hx ->]|[[Hx ->]|[Hx ->]]];
      destruct (binary64_fl_cases (- x)) as [[Hy ->]|[[Hy ->]|[Hy ->]]];
      try lra.
    assert (Js.nearest (- - x) == Js.nearest x)
      by (apply nearest_proper; lra). lra.
  - reflexivity.
Qed.

End Binary64Facts.

Section Binary64Error.

Local Open Scope Q_scope.

Lemma roundHalfEven_near (x : Q) :
  x - (1 # 2) <= inject_Z (Js.roundHalfEven x)
  /\ inject_Z (Js.roundHalfEven x) <= x + (1 # 2).
Proof.
  pose proof (Qfloor_le x) as H1. pose proof (Qlt_floor x) as H2.
  rewrite inject_Z_plus in H2. change (inject_Z 1) with 1 in H2.
  unfold Js.roundHalfEven.
  destruct (Qcompare_spec (x - inject_Z (Qfloor x)) (1 # 2)) as [E|E|E];
    [destruct (Z.even _)|..];
    rewrite ?inject_Z_plus; change (inject_Z 1) with 1; lra.
Qed.

(** Rounding a positive number changes it by at most half a unit in the
    last place, which is at most the number times 2^-53. *)
Lemma nearest_error (x : Q) :
  0 < x ->
  (1 - (1 # 2 ^ 53)) * x <= Js.nearest x
  /\ Js.nearest x <= (1 + (1 # 2 ^ 53)) * x.
Proof.
  intros Hx. destruct (ilog2_spec x Hx) as [He _].
  unfold Js.nearest. set (e := Js.ilog2 x) in *.
  pose proof (pow2_pos (e - 52)) as Hu.
  set (ulp := 2 ^ (e - 52)) in *.
  destruct (roundHalfEven_near (x / ulp)) as [L U].
  set (r := inject_Z (Js.roundHalfEven (x / ulp))) in *.
  assert (Em : x / ulp * ulp == x) by (field; lra).
  assert (Eu : 2 ^ e == ulp * 2 ^ 52).
  { unfold ulp. by rewrite pow2_sub. }
  assert (Hhalf : ulp * (1 # 2) <= (1 # 2 ^ 53) * x).
  { assert (Ec : (1 # 2 ^ 53) * 2 ^ 52 == 1 # 2) by reflexivity.
    assert (ulp * (1 # 2) == (1 # 2 ^ 53) * (ulp * 2 ^ 52)) as ->
      by (rewrite <- Ec; ring).
    rewrite <- Eu. apply Qmult_le_l; [reflexivity|exact He]. }
  assert (L' : (x / ulp - (1 # 2)) * ulp <= r * ulp)
    by (apply Qmult_le_compat_r; lra).
  assert (U' : r * ulp <= (x / ulp + (1 # 2)) * ulp)
    by (apply Qmult_le_compat_r; lra).
  assert (E1 : (x / ulp - (1 # 2)) * ulp == x - ulp * (1 # 2))
    by (rewrite <- Em at 2; ring).
  assert (E2 : (x / ulp + (1 # 2)) * ulp == x + ulp * (1 # 2))
    by (rewrite <- Em at 2; ring).
  rewrite E1 in L'. rewrite E2 in U'. split; lra.
Qed.

Lemma binary64_pos (x : Q) : 0 < x -> 0 < Js.fl x.
Proof.
  intros Hx. destruct (binary64_fl_cases x) as [[? _]|[[? _]|[_ E]]];
    [lra..|].
  cbv zeta in E. rewrite E. by apply nearest_pos.
Qed.

(** The relative error of one operation on numbers that are not
    negative. *)
Lemma binary64_error (x : Q) :
  0 <= x ->
  (1 - (1 # 2 ^ 53)) * x <= Js.fl x /\ Js.fl x <= (1 + (1 # 2 ^ 53)) * x.
Proof.
  intros Hx. destruct (binary64_fl_cases x) as [[? _]|[[H0 E]|[Hp E]]];
    [lra|..]; cbv zeta in E; rewrite E.
  - rewrite H0. split; lra.
  - by apply nearest_error.
Qed.

(** An integer below 2^53 is a double. *)
Lemma binary64_integer (k : Z) :
  (0 <= k < 2 ^ 53)%Z -> Js.fl (inject_Z k) == inject_Z k.
Proof.
  intros [Hk0 Hk].
  destruct (decide (k = 0%Z)) as [->|Hne]; [reflexivity|].
  assert (Hpos : 0 < inject_Z k).
  { change 0 with (inject_Z 0). rewrite <- Zlt_Qlt. lia. }
  destruct (binary64_fl_cases (inject_Z k)) as [[? _]|[[? _]|[_ E]]];
    [lra..|].
  cbv zeta in E. rewrite E. clear E.
  destruct (ilog2_spec _ Hpos) as [He _].
  unfold Js.nearest. set (e := Js.ilog2 (inject_Z k)) in *.
  assert (Hle : (e <= 52)%Z).
  { assert (e < 53)%Z; [|lia].
    apply (Qpower_lt_compat_l_inv 2); [|lra].
    eapply Qle_lt_trans; [exact He|].
    change (2 ^ 53) with (inject_Z (2 ^ 53)). by rewrite <- Zlt_Qlt. }
  pose proof (pow2_pos (e - 52)) as Hu.
  set (ulp := 2 ^ (e - 52)) in *.
  set (P := (2 ^ (52 - e))%Z).
  assert (Es : ulp * inject_Z P == 1).
  { unfold ulp, P. rewrite pow2_inject by lia. rewrite <- Qpower_plus by done.
    by replace (e - 52 + (52 - e))%Z with 0%Z by lia. }
  assert (Em : inject_Z k / ulp == inject_Z (k * P)).
  { rewrite inject_Z_mult. unfold Qdiv.
    assert (Ei : / ulp == inject_Z P).
    { rewrite <- (Qmult_1_r (/ ulp)), <- Es, Qmult_assoc,
        (Qmult_comm (/ ulp)), Qmult_inv_r by lra. ring. }
    by rewrite Ei. }
  rewrite (roundHalfEven_integer _ _ Em), inject_Z_mult.
  rewrite <- Qmult_assoc, (Qmult_comm (inject_Z P)), Es. ring.
Qed.

End Binary64Error.

(** ** The window of rendered rows *)

Section WindowFacts.

Import Virtualization.

Context {arith : Js.Arithmetic}.
Variables (h : Q) (n : Z) (s v : Q).

Lemma startIndex_nonneg : 0 <= startIndex h s.
Proof. unfold startIndex, Js.Math_max. lia. Qed.

Lemma endIndex_le_total : endIndex h n s v <= n.
Proof. unfold endIndex, Js.Math_min. lia. Qed.

Hypothesis rounding : Js.Rounding arith.
Hypothesis h_pos : (0 < h)%Q.
Hypothesis s_nonneg : (0 <= s)%Q.
Hypothesis v_nonneg : (0 <= v)%Q.
Hypothesis s_number : (Js.fl s == s)%Q.

Lemma floor_div_le_ceil_div :
  Js.Math_floor (Js.div s h) <= Js.Math_ceil (Js.div (Js.add s v) h).
Proof.
  unfold Js.Math_floor, Js.Math_ceil. rewrite Zle_Qle.
  eapply Qle_trans; [apply Qfloor_le|].
  eapply Qle_trans; [|apply Qle_ceiling].
  apply div_le; [exact rounding|exact h_pos|].
  rewrite <- s_number at 1. apply (Js.fl_le _ rounding). lra.
Qed.

Lemma ceil_div_nonneg : 0 <= Js.Math_ceil (Js.div (Js.add s v) h).
Proof.
  unfold Js.Math_ceil. rewrite Zle_Qle.
  eapply Qle_trans; [|apply Qle_ceiling].
  change (inject_Z 0) with 0%Q.
  apply div_nonneg; [exact rounding|exact h_pos|].
  apply fl_nonneg; [exact rounding|lra].
Qed.

Lemma startIndex_le_endIndex :
  0 <= n -> Js.Math_floor (Js.div s h) <= n + 10 ->
  startIndex h s <= endIndex h n s v.
Proof.
  intros Hn Hbound.
  pose proof floor_div_le_ceil_div. pose proof ceil_div_nonneg.
  unfold startIndex, endIndex, Js.Math_max, Js.Math_min, buffer in *. lia.
Qed.

End WindowFacts.

Lemma slice_length_in_range {A} (a : list A) (start stop : Z) :
  0 <= start <= stop -> stop <= Z.of_nat (length a) ->
  Z.of_nat (length (Js.slice a start stop)) = stop - start.
Proof.
  intros Hs He. unfold Js.slice.
  replace (start <? 0) with false by lia.
  replace (stop <? 0) with false by lia.
  rewrite length_take, length_drop. lia.
Qed.

(** The heights of the two spacers and of the rows between them
    against the total height, when one multiplication has a relative
    error of at most [u]. *)
Lemma pixel_heights {arith : Js.Arithmetic} (h u : Q)
    (start rendered rest : Z) :
  (0 <= h)%Q -> (0 <= u)%Q ->
  (forall x : Q, (0 <= x)%Q ->
     ((1 - u) * x <= Js.fl x)%Q /\ (Js.fl x <= (1 + u) * x)%Q) ->
  0 <= start -> 0 <= rendered -> 0 <= rest ->
  let totalRows := start + rendered + rest in
  let pixels :=
    (Js.mul (inject_Z start) h + inject_Z rendered * h
     + Js.mul (inject_Z rest) h)%Q in
  let slack := (2 * u * (inject_Z totalRows * h))%Q in
  (Js.mul (inject_Z totalRows) h - slack <= pixels)%Q
  /\ (pixels <= Js.mul (inject_Z totalRows) h + slack)%Q.
Proof.
  intros Hh Hu Hacc Hs Hm Hr totalRows pixels slack.
  subst pixels slack. unfold Js.mul.
  assert (H0 : forall z, 0 <= z -> (0 <= inject_Z z * h)%Q).
  { intros z Hz. apply Qmult_le_0_compat; [|exact Hh].
    change 0%Q with (inject_Z 0). by rewrite <- Zle_Qle. }
  assert (Et : (inject_Z totalRows * h
                == inject_Z start * h + inject_Z rendered * h
                   + inject_Z rest * h)%Q).
  { unfold totalRows. rewrite !inject_Z_plus. ring. }
  set (a := (inject_Z start * h)%Q) in *.
  set (m := (inject_Z rendered * h)%Q) in *.
  set (b := (inject_Z rest * h)%Q) in *.
  set (t := (inject_Z totalRows * h)%Q) in *.
  assert (Ha : (0 <= a)%Q) by by apply H0.
  assert (Hm' : (0 <= m)%Q) by by apply H0.
  assert (Hb : (0 <= b)%Q) by by apply H0.
  assert (Ht : (0 <= t)%Q) by (apply H0; unfold totalRows; lia).
  destruct (Hacc a Ha) as [La Ua]. destruct (Hacc b Hb) as [Lb Ub].
  destruct (Hacc t Ht) as [Lt Ut].
  assert (Eu : (u * t == u * a + u * m + u * b)%Q) by (rewrite Et; ring).
  assert (Hum : (0 <= u * m)%Q) by by apply Qmult_le_0_compat.
  assert (Hua : (0 <= u * a)%Q) by by apply Qmult_le_0_compat.
  assert (Hub : (0 <= u * b)%Q) by by apply Qmult_le_0_compat.
  clearbody a m b t. split; lra.
Qed.




(** ** Comparison with a second sheet *)

Section CompareFacts.

Context {arith : Js.Arithmetic}.
Context {number : Type} (nts : number -> string).
Variables (p : Grid.Props number) (cmp : Sheet number).
Hypothesis compare_on : Grid.compareSheet p = Some cmp.

Lemma getCellClass_new_row rowIdx colName val :
  row_at cmp rowIdx = None ->
  PlainGrid.getCellClass nts p rowIdx colName val
  = "bg-green-50 text-green-700".
Proof. intros H. unfold PlainGrid.getCellClass. by rewrite compare_on, H. Qed.

Lemma getCellClass_row rowIdx colName val compareRow :
  row_at cmp rowIdx = Some compareRow ->
  PlainGrid.getCellClass nts p rowIdx colName val
  = if String.eqb (String_ nts val)
         (String_ nts (or_empty (cell compareRow colName)))
    then "" else "bg-amber-50 text-amber-800 font-medium".
Proof. intros H. unfold PlainGrid.getCellClass. by rewrite compare_on, H. Qed.

(** Past the last row of the comparison sheet every column is a new
    row. *)
Lemma getCellClass_past_end rowIdx colName val :
  Z.of_nat (length (sheet_data cmp)) <= rowIdx ->
  PlainGrid.getCellClass nts p rowIdx colName val
  = "bg-green-50 text-green-700".
Proof.
  intros H. apply getCellClass_new_row.
  unfold row_at, Js.index.
  destruct (rowIdx <? 0) eqn:E; [done|].
  rewrite lookup_ge_None_2; [done|lia].
Qed.

(** The inline comparison of the full grid classifies as [getCellClass]
    does; its fragments end in a space. *)
Lemma compareClass_getCellClass absoluteIndex col val :
  Grid.compareClass nts p absoluteIndex col val
  = let c := PlainGrid.getCellClass nts p absoluteIndex col val in
    if String.eqb c "" then "" else c +:+ " ".
Proof.
  unfold Grid.compareClass, PlainGrid.getCellClass. rewrite compare_on.
  destruct (row_at cmp absoluteIndex); [|done].
  by destruct (String.eqb _ _).
Qed.

End CompareFacts.

(** C2 at its failing input. A sheet whose cell [A] of row 0 is [null] is
    compared with itself: both versions of the grid mark the cell as
    changed, although the two values are the same [null] and both cells
    show the same empty text. [String(null)] is ["null"] on the primary
    side, while the comparison side is turned into [''] first. *)
Theorem compare_null_with_null_is_changed {number : Type}
    (nts : number -> string) :
  let val := cell (Scenario.nullRow (number := number)) "A" in
  val = Some VNull
  /\ row_at (Scenario.nullTable (number := number)) 0 = Some Scenario.nullRow
  /\ PlainGrid.getCellClass nts Scenario.nullProps 0 "A" val
     = "bg-amber-50 text-amber-800 font-medium"
  /\ Grid.compareClass nts Scenario.nullProps 0 "A" val
     = "bg-amber-50 text-amber-800 font-medium "
  /\ displayVal nts val = "".
Proof. repeat split; by vm_compute. Qed.

(** ** Committing and cancelling an edit *)

Section EditFacts.

Context {arith : Js.Arithmetic}.
Context {number : Type} (nts : number -> string).
Variable p : Grid.Props number.

Lemma focusContainer_unfocused onBlur r :
  Grid.nfocus r <> Grid.FocusInput ->
  Grid.focusContainer p onBlur r
  = if Grid.mounted p then Grid.withFocus Grid.FocusContainer r else r.
Proof.
  intros H. unfold Grid.focusContainer.
  destruct (Grid.mounted p); [|done]. by destruct (Grid.nfocus r).
Qed.

Lemma commit_effects s row col r :
  Grid.effects (Grid.commit p s row col r)
  = Grid.effects r ++ [Grid.OnCellEdit row col (Grid.editValue s)].
Proof. unfold Grid.commit. by destruct (_ =? -1). Qed.

Lemma commit_editingCell s row col r :
  Grid.editingCell (Grid.next (Grid.commit p s row col r)) = None.
Proof. unfold Grid.commit. by destruct (_ =? -1). Qed.

Lemma commit_nfocus s row col r :
  Grid.nfocus (Grid.commit p s row col r) = Grid.nfocus r.
Proof. unfold Grid.commit. by destruct (_ =? -1). Qed.

Lemma focusContainer_focused onBlur r :
  Grid.mounted p = true ->
  Grid.nfocus r = Grid.FocusInput ->
  Grid.focusContainer p onBlur r
  = onBlur (Grid.withFocus Grid.FocusContainer r).
Proof. intros Hm Hf. unfold Grid.focusContainer. by rewrite Hm, Hf. Qed.

Lemma saveEdit_with_unfocused onBlur s r row col :
  Grid.editingCell s = Some (row, col) ->
  Grid.nfocus r <> Grid.FocusInput ->
  Grid.saveEdit_with p onBlur s r
  = if Grid.mounted p
    then Grid.withFocus Grid.FocusContainer (Grid.commit p s row col r)
    else Grid.commit p s row col r.
Proof.
  intros He Hf. unfold Grid.saveEdit_with. rewrite He.
  apply focusContainer_unfocused. by rewrite commit_nfocus.
Qed.

(** A commit with the focus outside the input (a blur, or Enter on the
    container) calls [onCellEdit] once, with the draft as it is. *)
Lemma saveEdit_unfocused s r row col :
  Grid.editingCell s = Some (row, col) ->
  Grid.nfocus r <> Grid.FocusInput ->
  Grid.effects (Grid.saveEdit p s r)
  = Grid.effects r ++ [Grid.OnCellEdit row col (Grid.editValue s)]
  /\ Grid.editingCell (Grid.next (Grid.saveEdit p s r)) = None.
Proof.
  intros He Hf. unfold Grid.saveEdit.
  rewrite (saveEdit_with_unfocused _ _ _ _ _ He Hf).
  pose proof (commit_effects s row col r).
  pose proof (commit_editingCell s row col r).
  by destruct (Grid.mounted p).
Qed.

(** A commit by Enter in the input: [focus()] takes the focus from the
    input, whose [onBlur] is [saveEdit] of the same render, so
    [onCellEdit] is called a second time. *)
Lemma saveEdit_focused s r row col :
  Grid.mounted p = true ->
  Grid.editingCell s = Some (row, col) ->
  Grid.nfocus r = Grid.FocusInput ->
  Grid.effects (Grid.saveEdit p s r)
  = Grid.effects r ++ [Grid.OnCellEdit row col (Grid.editValue s);
                       Grid.OnCellEdit row col (Grid.editValue s)]
  /\ Grid.editingCell (Grid.next (Grid.saveEdit p s r)) = None.
Proof.
  intros Hm He Hf.
  assert (E : Grid.saveEdit p s r
              = Grid.withFocus Grid.FocusContainer
                  (Grid.commit p s row col
                     (Grid.withFocus Grid.FocusContainer
                        (Grid.commit p s row col r)))).
  { unfold Grid.saveEdit. unfold Grid.saveEdit_with at 1. rewrite He.
    rewrite focusContainer_focused by (by rewrite ?commit_nfocus).
    rewrite (saveEdit_with_unfocused _ _ _ _ _ He) by done.
    by rewrite Hm. }
  rewrite E. cbn [Grid.withFocus Grid.effects Grid.next]. split.
  - rewrite commit_effects. cbn [Grid.withFocus Grid.effects].
    by rewrite commit_effects, <- app_assoc.
  - apply commit_editingCell.
Qed.

(** Escape in the input ends the session without a call. *)
Lemma inputKeyDown_Escape s r :
  Grid.effects (Grid.inputKeyDown p Grid.Escape s r) = Grid.effects r
  /\ Grid.editingCell (Grid.next (Grid.inputKeyDown p Grid.Escape s r))
     = None.
Proof. done. Qed.

(** The plain grid commits with one call, on Enter and on blur alike. *)
Lemma plain_saveEdit s r row col :
  PlainGrid.editingCell s = Some (row, col) ->
  PlainGrid.effects (PlainGrid.saveEdit s r)
  = PlainGrid.effects r ++ [PlainGrid.OnCellEdit row col (PlainGrid.editValue s)]
  /\ PlainGrid.editingCell (PlainGrid.next (PlainGrid.saveEdit s r)) = None.
Proof. intros He. unfold PlainGrid.saveEdit. by rewrite He. Qed.

Lemma plain_handleKeyDown_Escape s r :
  PlainGrid.effects (PlainGrid.handleKeyDown Grid.Escape s r)
  = PlainGrid.effects r
  /\ PlainGrid.editingCell
       (PlainGrid.next (PlainGrid.handleKeyDown Grid.Escape s r)) = None.
Proof. done. Qed.

End EditFacts.

(** C3 at its failing input. In the full grid a double click on cell
    (0, A), the text [42] and Enter call [onCellEdit(0, "A", "42")] twice:
    once from the key handler and once more from the blur handler that
    [containerRef.current.focus()] sets off inside [saveEdit], which still
    sees the edit session of its render. The same events in the plain
    grid, whose [saveEdit] does not move the focus, give one call; so do
    a blur in the full grid, and Escape gives none. *)
Theorem enter_commits_twice {number : Type} (nts : number -> string) :
  let call := Grid.OnCellEdit 0 (Some "A") "42" in
  let typed := [Grid.CellDoubleClick 0 0; Grid.InputChange "42"] in
  let start := Grid.mount (number := number) Scenario.props Scenario.env in
  snd <$> Scenario.run nts Scenario.props
            (typed ++ [Grid.InputKeyDown Grid.Enter]) start
  = Some [call; call]
  /\ (Grid.editingCell ∘ Grid.st ∘ fst)
       <$> Scenario.run nts Scenario.props
             (typed ++ [Grid.InputKeyDown Grid.Enter]) start
     = Some None
  /\ snd <$> Scenario.run nts Scenario.props
               (typed ++ [Grid.InputBlur Grid.FocusElsewhere]) start
     = Some [call]
  /\ snd <$> Scenario.run nts Scenario.props
               (typed ++ [Grid.InputKeyDown Grid.Escape]) start
     = Some []
  /\ snd <$> Scenario.runPlain nts Scenario.props
               [PlainGrid.CellDoubleClick 0 0; PlainGrid.InputChange "42";
                PlainGrid.InputKeyDown Grid.Enter]
               (PlainGrid.mount (number := number) Scenario.props Scenario.env)
     = Some [PlainGrid.OnCellEdit 0 "A" "42"].
Proof. repeat split; by vm_compute. Qed.

(** ** Tab and Shift+Tab *)

Section TabFacts.

Context {arith : Js.Arithmetic}.
Context {number : Type}.
Variable p : Grid.Props number.

Let lastCol : Z := Z.of_nat (length (Grid.columns p)) - 1.

Lemma tabTarget_forward row colIdx :
  Grid.tabTarget p false row colIdx = (row, Z.min lastCol (colIdx + 1)).
Proof. done. Qed.

Lemma tabTarget_back_inner row colIdx :
  2 <= colIdx -> Grid.tabTarget p true row colIdx = (row, colIdx - 1).
Proof.
  intros H. unfold Grid.tabTarget, Js.Math_max.
  replace (Z.max 0 (colIdx - 1) =? 0) with false by lia.
  cbn. f_equal. lia.
Qed.

(** The wrap is decided on the column after the step: it happens from
    column 1 as well as from column 0. *)
Lemma tabTarget_back_wrap row colIdx :
  colIdx <= 1 -> 0 < row ->
  Grid.tabTarget p true row colIdx = (row - 1, lastCol).
Proof.
  intros H Hr. unfold Grid.tabTarget, Js.Math_max.
  replace (Z.max 0 (colIdx - 1) =? 0) with true by lia.
  by replace (0 <? row) with true by lia.
Qed.

Lemma tabTarget_back_first_row row colIdx :
  colIdx <= 1 -> row <= 0 -> Grid.tabTarget p true row colIdx = (row, 0).
Proof.
  intros H Hr. unfold Grid.tabTarget, Js.Math_max.
  replace (Z.max 0 (colIdx - 1) =? 0) with true by lia.
  replace (0 <? row) with false by lia. cbn. f_equal. lia.
Qed.

End TabFacts.

(** C5 at its failing input. On the table with columns [A, B, C] and two
    rows, Shift+Tab from the cell (row 1, column 1) selects (row 0,
    column 2): the step to column 0 is overwritten by the wrap to the
    previous row, and column 0 of row 1 is skipped. From (row 1,
    column 2) the selection moves to (row 1, column 1), from (row 0,
    column 1) to (row 0, column 0), and Tab at the last column stays. *)
Theorem shift_tab_skips_first_column {number : Type} (nts : number -> string) :
  let start := Grid.mount (number := number) Scenario.props Scenario.env in
  let selectionAfter evs :=
    (Grid.selectedCell ∘ Grid.st ∘ fst)
      <$> Scenario.run nts Scenario.props evs start in
  selectionAfter [Grid.CellClick 1 1; Grid.ContainerKeyDown Grid.Tab true]
  = Some (Some (0, 2))
  /\ selectionAfter [Grid.CellClick 1 2; Grid.ContainerKeyDown Grid.Tab true]
     = Some (Some (1, 1))
  /\ selectionAfter [Grid.CellClick 0 1; Grid.ContainerKeyDown Grid.Tab true]
     = Some (Some (0, 0))
  /\ selectionAfter [Grid.CellClick 0 2; Grid.ContainerKeyDown Grid.Tab false]
     = Some (Some (0, 2)).
Proof. repeat split; by vm_compute. Qed.

(** ** Resizing a column by its handle *)

Lemma or_default_ge (w d lo : Q) :
  (0 < lo)%Q -> (lo <= w)%Q ->
  Js.or_default (Js.Own (Js.Number w)) d = Some w.
Proof.
  intros Hlo Hw. unfold Js.or_default.
  destruct (Qeq_bool w 0) eqn:E; [|done].
  apply Qeq_bool_iff in E. lra.
Qed.

Lemma get_insert {A} (o : gmap string A) (k : string) (v : A) :
  Js.get (<[k := v]> o) k = Js.Own v.
Proof. unfold Js.get. by rewrite lookup_insert_eq. Qed.

Lemma get_insert_ne {A} (o : gmap string A) (k k' : string) (v : A) :
  k <> k' -> Js.get (<[k := v]> o) k' = Js.get o k'.
Proof. intros Hk. unfold Js.get. by rewrite lookup_insert_ne. Qed.

Section ResizeFacts.

Context {arith : Js.Arithmetic}.
Context {number : Type} (nts : number -> string).
Variable p : Grid.Props number.

(** [finalWidth] of [handleMouseMove]. *)
Let finalWidth (startWidth : option Q) (startX clientX : Q) : Js.Num :=
  match startWidth with
  | Some width =>
      Js.Number
        (Qmax 50
           (Js.add width
              (Js.mul (Js.sub startX clientX)
                 (Js.div 100 (Grid.zoomLevel p)))))
  | None => Js.NaN
  end.

Lemma dispatch_ResizerMouseDown env col clientX w w1 e1 :
  Grid.dispatch nts p env (Grid.ResizerMouseDown col clientX) w
  = Some (w1, e1) ->
  Grid.colWidths (Grid.st w1) = Grid.colWidths (Grid.st w)
  /\ Grid.resizingRef (Grid.st w1)
     = Some (Grid.mkResize col clientX (Grid.baseWidth (Grid.st w) col))
  /\ Grid.isResizing (Grid.st w1) = true.
Proof.
  unfold Grid.dispatch, Grid.handle.
  destruct (_ && _); [|done]. cbn. by intros [= <- _].
Qed.

Lemma dispatch_WindowMouseMove env clientX w w1 e1 rs :
  Grid.resizingRef (Grid.st w) = Some rs ->
  Grid.dispatch nts p env (Grid.WindowMouseMove clientX) w
  = Some (w1, e1) ->
  Grid.colWidths (Grid.st w1)
  = <[Grid.rs_col rs :=
        finalWidth (Grid.rs_startWidth rs) (Grid.rs_startX rs) clientX]>
      (Grid.colWidths (Grid.st w))
  /\ Grid.resizingRef (Grid.st w1) = Some rs
  /\ Grid.isResizing (Grid.st w1) = Grid.isResizing (Grid.st w).
Proof.
  destruct w as [s f]. cbn. intros Hrs.
  unfold Grid.dispatch, Grid.handle. cbn.
  destruct (Grid.isResizing s) eqn:Hres; [|done].
  unfold Grid.handleMouseMove. cbn. rewrite Hrs. destruct rs.
  intros [= <- _]. by destruct s.
Qed.

Lemma dispatch_WindowMouseUp env w w1 e1 :
  Grid.dispatch nts p env Grid.WindowMouseUp w = Some (w1, e1) ->
  Grid.colWidths (Grid.st w1) = Grid.colWidths (Grid.st w)
  /\ Grid.resizingRef (Grid.st w1) = None.
Proof.
  destruct w as [s f]. unfold Grid.dispatch, Grid.handle. cbn.
  destruct (Grid.isResizing s) eqn:Hres; [|done].
  unfold Grid.handleMouseUp. cbn.
  destruct (Grid.resizingRef s) eqn:E; cbn; by intros [= <- _].
Qed.

(** One press of the handle of [col] at [startX] and one move of the
    pointer to [clientX]. *)
Lemma resize_step_width env env' col startX clientX w w1 w2 e1 e2 :
  Grid.dispatch nts p env (Grid.ResizerMouseDown col startX) w
  = Some (w1, e1) ->
  Grid.dispatch nts p env' (Grid.WindowMouseMove clientX) w1
  = Some (w2, e2) ->
  Grid.colWidths (Grid.st w2)
  = <[col := finalWidth (Grid.baseWidth (Grid.st w) col) startX clientX]>
      (Grid.colWidths (Grid.st w)).
Proof.
  intros H1 H2.
  destruct (dispatch_ResizerMouseDown _ _ _ _ _ _ H1) as (Hw & Hr & _).
  destruct (dispatch_WindowMouseMove _ _ _ _ _ _ Hr H2) as (Hw2 & _).
  by rewrite Hw2, Hw.
Qed.

Lemma baseWidth_insert_ge s s' col w :
  Grid.colWidths s' = <[col := Js.Number (Qmax 50 w)]> (Grid.colWidths s) ->
  Grid.baseWidth s' col = Some (Qmax 50 w).
Proof.
  intros H. unfold Grid.baseWidth. rewrite H, get_insert.
  apply (or_default_ge _ _ 50); [done|apply Q.le_max_l].
Qed.

Lemma baseWidth_insert_NaN s s' col :
  Grid.colWidths s' = <[col := Js.NaN]> (Grid.colWidths s) ->
  Grid.baseWidth s' col = Some 150%Q.
Proof. intros H. unfold Grid.baseWidth. by rewrite H, get_insert. Qed.

(** The width a column starts from is a number when the column has an
    entry of its own in [colWidths], or a name that is not one of
    [Object.prototype]'s. *)
Lemma baseWidth_is_number s col :
  is_Some (Grid.baseWidth s col)
  <-> is_Some (Grid.colWidths s !! col) \/ Js.inherited col = false.
Proof.
  unfold Grid.baseWidth, Js.get.
  destruct (Grid.colWidths s !! col) as [[x|]|] eqn:E; cbn.
  - split; [by left|by eexists].
  - split; [by left|by eexists].
  - destruct (Js.inherited col); cbn.
    + split; [by intros [? ?]|]. intros [[? ?]|]; done.
    + split; [by right|by eexists].
Qed.

End ResizeFacts.

Lemma dispatchAll_cons {arith : Js.Arithmetic} {number : Type}
    (nts : number -> string)
    (p : Grid.Props number) env ev rest w w' effs :
  Grid.dispatchAll nts p ((env, ev) :: rest) w = Some (w', effs) ->
  exists w1 e1 e2,
    Grid.dispatch nts p env ev w = Some (w1, e1)
    /\ Grid.dispatchAll nts p rest w1 = Some (w', e2)
    /\ effs = e1 ++ e2.
Proof.
  cbn. destruct (Grid.dispatch nts p env ev w) as [[w1 e1]|]; [|done]. cbn.
  destruct (Grid.dispatchAll nts p rest w1) as [[w2 e2]|] eqn:E; [|done].
  cbn. intros [= <- <-]. by exists w1, e1, e2.
Qed.




(** C7, as the code has it. A drag of the handle of [col] that moves
    the pointer by [delta] to the left, followed by a drag that moves it
    by [delta] to the right at the same zoom, brings the base width of
    [col] back to the number [startWidth] it was up to the rounding of
    the two sums, when neither sum went below the bound 50 of the
    resize: the final width differs from [startWidth] by at most [u]
    times the two sums together, where [u] bounds the relative error of
    an addition ([2^-53] in doubles, [0] in exact arithmetic). It is
    [startWidth] itself when the first sum is computed without
    rounding. *)
Theorem resize_round_trip {arith : Js.Arithmetic} {number : Type}
    (nts : number -> string) (p : Grid.Props number)
    col delta x y w w' effs env1 env2 env3 env4 env5 env6 startWidth u :
  Js.Rounding arith ->
  (0 < Grid.zoomLevel p)%Q ->
  Grid.dispatchAll nts p
    [(env1, Grid.ResizerMouseDown col x);
     (env2, Grid.WindowMouseMove (x - delta));
     (env3, Grid.WindowMouseUp);
     (env4, Grid.ResizerMouseDown col y);
     (env5, Grid.WindowMouseMove (y + delta));
     (env6, Grid.WindowMouseUp)] w
  = Some (w', effs) ->
  Grid.baseWidth (Grid.st w) col = Some startWidth ->
  let diff1 :=
    Js.mul (Js.sub x (x - delta)) (Js.div 100 (Grid.zoomLevel p)) in
  let diff2 :=
    Js.mul (Js.sub y (y + delta)) (Js.div 100 (Grid.zoomLevel p)) in
  let width1 := Js.add startWidth diff1 in
  let width2 := Js.add width1 diff2 in
  (50 <= width1)%Q -> (50 <= width2)%Q ->
  exists finalWidth : Q,
    Grid.baseWidth (Grid.st w') col = Some finalWidth
    /\ ((0 <= u)%Q ->
        (forall z : Q, (0 <= z)%Q ->
           ((1 - u) * z <= Js.fl z)%Q /\ (Js.fl z <= (1 + u) * z)%Q) ->
        let slack := (u * ((startWidth + diff1) + (width1 + diff2)))%Q in
        (startWidth - slack <= finalWidth)%Q
        /\ (finalWidth <= startWidth + slack)%Q)
    /\ ((Js.fl startWidth == startWidth)%Q ->
        (width1 == startWidth + diff1)%Q ->
        (finalWidth == startWidth)%Q).
Proof.
  intros Hr _ Hrun Hb d1 d2 w1 w2 Hlo1 Hlo2.
  apply dispatchAll_cons in Hrun as (wa & ? & ? & H1 & Hrun & _).
  apply dispatchAll_cons in Hrun as (wb & ? & ? & H2 & Hrun & _).
  apply dispatchAll_cons in Hrun as (wc & ? & ? & H3 & Hrun & _).
  apply dispatchAll_cons in Hrun as (wd & ? & ? & H4 & Hrun & _).
  apply dispatchAll_cons in Hrun as (we & ? & ? & H5 & Hrun & _).
  apply dispatchAll_cons in Hrun as (wf & ? & ? & H6 & Hrun & _).
  injection Hrun as <- _.
  pose proof (resize_step_width nts p _ _ _ _ _ _ _ _ _ _ H1 H2) as Hw2.
  rewrite Hb in Hw2. fold d1 in Hw2. fold w1 in Hw2.
  pose proof (baseWidth_insert_ge _ _ _ _ Hw2) as Hb2.
  destruct (dispatch_WindowMouseUp nts p _ _ _ _ H3) as [Hw3 _].
  assert (Hb3 : Grid.baseWidth (Grid.st wc) col
                = Grid.baseWidth (Grid.st wb) col)
    by (unfold Grid.baseWidth; by rewrite Hw3).
  pose proof (resize_step_width nts p _ _ _ _ _ _ _ _ _ _ H4 H5) as Hw5.
  rewrite Hb3, Hb2 in Hw5. fold d2 in Hw5.
  pose proof (baseWidth_insert_ge _ _ _ _ Hw5) as Hb5.
  destruct (dispatch_WindowMouseUp nts p _ _ _ _ H6) as [Hw6 _].
  eexists. split.
  { unfold Grid.baseWidth. rewrite Hw6. exact Hb5. }
  (* the second difference is the first one with the other sign *)
  assert (Ed : (d2 == - d1)%Q).
  { unfold d2, d1, Js.mul, Js.sub.
    rewrite <- (Js.fl_opp _ Hr). apply (fl_proper Hr).
    assert (E : (Js.fl (y - (y + delta)) == - Js.fl (x - (x - delta)))%Q).
    { rewrite <- (Js.fl_opp _ Hr). apply (fl_proper Hr). ring. }
    rewrite E. ring. }
  (* no bound is hit *)
  assert (E1 : (Qmax 50 w1 == w1)%Q) by by apply Q.max_r.
  assert (E2 : (Js.add (Qmax 50 w1) d2 == w2)%Q).
  { unfold w2, Js.add. apply (fl_proper Hr). by rewrite E1. }
  assert (E3 : (Qmax 50 (Js.add (Qmax 50 w1) d2) == w2)%Q).
  { rewrite Q.max_r; [exact E2|]. by rewrite E2. }
  split.
  - intros Hu Hacc slack. subst slack. rewrite E3.
    assert (Hpos : forall z, (50 <= Js.fl z)%Q -> (0 <= z)%Q).
    { intros z Hz. apply Qnot_lt_le. intros Hneg.
      pose proof (Js.fl_le _ Hr z 0 (Qlt_le_weak _ _ Hneg)) as H.
      rewrite (Js.fl_0 _ Hr) in H. lra. }
    destruct (Hacc (startWidth + d1)%Q (Hpos _ Hlo1)) as [L1 U1].
    destruct (Hacc (w1 + d2)%Q (Hpos _ Hlo2)) as [L2 U2].
    fold (Js.add startWidth d1) in L1, U1. fold w1 in L1, U1.
    fold (Js.add w1 d2) in L2, U2. fold w2 in L2, U2.
    clearbody w1 w2 d1 d2. split; lra.
  - intros Hnum Hexact. rewrite E3.
    transitivity (Js.fl startWidth); [|exact Hnum].
    unfold w2, Js.add. apply (fl_proper Hr).
    rewrite Hexact, Ed. ring.
Qed.

(** In doubles. At zoom 30, where the round trip of 34 pixels from 150
    does not end at 150, it ends within 2^-44 of it; at zoom 100 the
    handle of [B] is dragged 30 pixels to the left and then 30 pixels to
    the right, and the width is 150 again. *)
Lemma resize_round_trip_witness :
  let zoomed := Scenario.afterOn (Scenario.propsAt 30)
    [Grid.ResizerMouseDown "A" 1000; Grid.WindowMouseMove (1000 - 34);
     Grid.WindowMouseUp;
     Grid.ResizerMouseDown "A" 966; Grid.WindowMouseMove (966 + 34);
     Grid.WindowMouseUp] in
  let plain := Scenario.after
    [Grid.ResizerMouseDown "B" 500; Grid.WindowMouseMove (500 - 30);
     Grid.WindowMouseUp;
     Grid.ResizerMouseDown "B" 200; Grid.WindowMouseMove (200 + 30);
     Grid.WindowMouseUp] in
  (exists finalWidth : Q,
     Grid.baseWidth (Grid.st zoomed) "A" = Some finalWidth
     /\ (150 - (1 # 2 ^ 44) <= finalWidth)%Q
     /\ (finalWidth <= 150 + (1 # 2 ^ 44))%Q)
  /\ (exists finalWidth : Q,
        Grid.baseWidth (Grid.st plain) "B" = Some finalWidth
        /\ (finalWidth == 150)%Q).
Proof.
  intros zoomed plain. split.
  - assert (Hrun : Grid.dispatchAll Scenario.showZ (Scenario.propsAt 30)
                     [(Scenario.env, Grid.ResizerMouseDown "A" 1000);
                      (Scenario.env, Grid.WindowMouseMove (1000 - 34));
                      (Scenario.env, Grid.WindowMouseUp);
                      (Scenario.env, Grid.ResizerMouseDown "A" 966);
                      (Scenario.env, Grid.WindowMouseMove (966 + 34));
                      (Scenario.env, Grid.WindowMouseUp)]
                     (Scenario.afterOn (Scenario.propsAt 30) [])
                   = Some (zoomed, [])) by (by vm_compute).
    assert (Hstart : Grid.baseWidth
                       (Grid.st (Scenario.afterOn (Scenario.propsAt 30) []))
                       "A" = Some 150%Q) by (by vm_compute).
    destruct (resize_round_trip Scenario.showZ (Scenario.propsAt 30)
                "A" 34 1000 966 _ zoomed [] _ _ _ _ _ _ 150 (1 # 2 ^ 53)
                binary64_rounding ltac:(by vm_compute) Hrun Hstart
                ltac:(by vm_compute) ltac:(by vm_compute))
      as (finalWidth & Hfinal & Hnear & _).
    exists finalWidth. split; [exact Hfinal|].
    destruct (Hnear ltac:(by vm_compute) binary64_error) as [L U].
    cbv zeta in L, U.
    match type of L with
    | (_ - ?slack <= _)%Q =>
        assert (S : (slack <= 1 # 2 ^ 44)%Q) by (by vm_compute);
        set (sl := slack) in *; clearbody sl
    end.
    split; lra.
  - assert (Hrun : Grid.dispatchAll Scenario.showZ Scenario.props
                     [(Scenario.env, Grid.ResizerMouseDown "B" 500);
                      (Scenario.env, Grid.WindowMouseMove (500 - 30));
                      (Scenario.env, Grid.WindowMouseUp);
                      (Scenario.env, Grid.ResizerMouseDown "B" 200);
                      (Scenario.env, Grid.WindowMouseMove (200 + 30));
                      (Scenario.env, Grid.WindowMouseUp)]
                     Scenario.start
                   = Some (plain, [])) by (by vm_compute).
    assert (Hstart : Grid.baseWidth (Grid.st Scenario.start) "B"
                     = Some 150%Q) by (by vm_compute).
    destruct (resize_round_trip Scenario.showZ Scenario.props
                "B" 30 500 200 _ plain [] _ _ _ _ _ _ 150 0
                binary64_rounding ltac:(by vm_compute) Hrun Hstart
                ltac:(by vm_compute) ltac:(by vm_compute))
      as (finalWidth & Hfinal & _ & Hexact).
    exists finalWidth. split; [exact Hfinal|].
    apply Hexact; by vm_compute.
Defined.

(** C7 as stated fails in the arithmetic of the code. At zoom 30 the
    handle of [A] is dragged 34 pixels to the left, which widens the
    column from 150 to 263.33333333333337, and then 34 pixels to the
    right: the width is 150.00000000000003 (150 and 2^-45), not 150.
    No width went below 50. *)
Lemma resize_round_trip_counterexample :
  let p := Scenario.propsAt 30 in
  let first := [Grid.ResizerMouseDown "A" 1000;
                Grid.WindowMouseMove (1000 - 34); Grid.WindowMouseUp] in
  let second := [Grid.ResizerMouseDown "A" 966;
                 Grid.WindowMouseMove (966 + 34); Grid.WindowMouseUp] in
  Grid.baseWidth (Grid.st (Scenario.afterOn p [])) "A" = Some 150%Q
  /\ (exists b, Grid.baseWidth (Grid.st (Scenario.afterOn p first)) "A"
                = Some b
                /\ (b == 2316304495848107 # 8796093022208)%Q
                /\ (50 <= b)%Q)
  /\ (exists b, Grid.baseWidth
                  (Grid.st (Scenario.afterOn p (first ++ second))) "A"
                = Some b
                /\ (b == 150 + (1 # 2 ^ 45))%Q
                /\ ~ (b == 150)%Q).
Proof.
  split; [by vm_compute|].
  split; eexists; (split; [by vm_compute|]); split; by vm_compute.
Qed.

(** X24. A column whose width at the press is not a number: its name
    is one of [Object.prototype]'s and [colWidths] has no entry of its
    own for it. The sum [startWidth + adjustedDiff] is then not a number
    either: the move stores [NaN], and the column is rendered with the
    default width 150 from then on. The other columns keep their
    widths. *)
Theorem resize_step_not_a_number {arith : Js.Arithmetic} {number : Type}
    (nts : number -> string) (p : Grid.Props number)
    env env' col startX clientX w w1 w2 e1 e2 :
  Grid.baseWidth (Grid.st w) col = None ->
  Grid.dispatch nts p env (Grid.ResizerMouseDown col startX) w
  = Some (w1, e1) ->
  Grid.dispatch nts p env' (Grid.WindowMouseMove clientX) w1
  = Some (w2, e2) ->
  Grid.colWidths (Grid.st w2) !! col = Some Js.NaN
  /\ Grid.baseWidth (Grid.st w2) col = Some 150%Q
  /\ (forall c, c <> col ->
        Grid.colWidths (Grid.st w2) !! c = Grid.colWidths (Grid.st w) !! c).
Proof.
  intros Hb H1 H2.
  pose proof (resize_step_width nts p _ _ _ _ _ _ _ _ _ _ H1 H2) as Hw.
  rewrite Hb in Hw.
  split; [by rewrite Hw, lookup_insert_eq|].
  split; [exact (baseWidth_insert_NaN _ _ _ Hw)|].
  intros c Hc. rewrite Hw. by apply lookup_insert_ne.
Qed.

(** The column [__proto__] of the sheet read from the CSV file of the
    lines [__proto__,A] and [1,2]. *)
Lemma resize_step_not_a_number_witness :
  let w := Scenario.afterOn Scenario.protoProps [] in
  let w2 := Scenario.afterOn Scenario.protoProps
              [Grid.ResizerMouseDown "__proto__" 1000;
               Grid.WindowMouseMove 700] in
  Grid.baseWidth (Grid.st w) "__proto__" = None
  /\ Grid.colWidths (Grid.st w2) !! "__proto__" = Some Js.NaN
  /\ Grid.baseWidth (Grid.st w2) "__proto__" = Some 150%Q.
Proof.
  intros w w2. split; [by vm_compute|].
  destruct (resize_step_not_a_number Scenario.showZ Scenario.protoProps
              Scenario.env Scenario.env "__proto__" 1000 700 w
              (Scenario.afterOn Scenario.protoProps
                 [Grid.ResizerMouseDown "__proto__" 1000])
              w2 [] [])
    as (Hw & Hb & _); [by vm_compute..|].
  by split.
Defined.

(** ** Reset when the sheet changes *)

Lemma set_lookup_no_proto {A} (o : gmap string A) (k c : string) (v : A) :
  o !! "__proto__" = None ->
  Js.set o k v !! "__proto__" = None
  /\ (c <> "__proto__" ->
      Js.set o k v !! c = if decide (c = k) then Some v else o !! c).
Proof.
  intros Ho. unfold Js.set.
  destruct (String.eqb k "__proto__") eqn:Ek; cbn [andb].
  - apply String.eqb_eq in Ek. subst k.
    rewrite bool_decide_false by (rewrite Ho; by intros [? ?]). cbn.
    split; [exact Ho|]. intros Hc. by rewrite decide_False.
  - apply String.eqb_neq in Ek. split.
    + by rewrite lookup_insert_ne.
    + intros Hc. destruct (decide (c = k)) as [->|Hne].
      * by rewrite lookup_insert_eq.
      * by rewrite lookup_insert_ne.
Qed.

Lemma foldl_default_width (cols : list string) (widths : gmap string Js.Num)
    (c : string) :
  widths !! "__proto__" = None ->
  foldl (fun m col => Js.set m col (Js.Number 150)) widths cols !! c
  = if decide (c ∈ cols /\ c <> "__proto__")
    then Some (Js.Number 150) else widths !! c.
Proof.
  revert widths. induction cols as [|col cols IH]; intros widths Hw; cbn.
  - rewrite decide_False; [done|]. by intros [?%elem_of_nil _].
  - destruct (set_lookup_no_proto widths col c (Js.Number 150) Hw)
      as [Hp Hc].
    rewrite IH by exact Hp.
    destruct (decide (c = "__proto__")) as [->|Hne].
    + rewrite !decide_False by (by intros [_ ?]). by rewrite Hp.
    + specialize (Hc Hne).
      destruct (decide (c ∈ cols)) as [Hin|Hnin].
      * rewrite !decide_True; [done|split; [by right|done]|done].
      * rewrite (decide_False (P := c ∈ cols /\ _)) by (by intros [? _]).
        rewrite Hc. destruct (decide (c = col)) as [->|Hne'].
        -- rewrite decide_True; [done|split; [by left|done]].
        -- rewrite decide_False; [done|].
           intros [[?|?]%elem_of_cons _]; contradiction.
Qed.

Section ResetFacts.

Context {number : Type}.
Variable p : Grid.Props number.

Lemma initialWidths_lookup c :
  Grid.initialWidths p !! c
  = if decide (c ∈ sheet_columns (Grid.sheet p) /\ c <> "__proto__")
    then Some (Js.Number 150) else None.
Proof.
  unfold Grid.initialWidths, Grid.columns.
  by rewrite foldl_default_width, lookup_empty.
Qed.

Lemma plain_initialWidths : PlainGrid.initialWidths p = Grid.initialWidths p.
Proof. done. Qed.

Lemma resetOnSheetChange_state r :
  Grid.next (Grid.resetOnSheetChange p r)
  = Grid.mkState 0 (Grid.containerHeight (Grid.next r))
      (Grid.initialWidths p) None (Grid.editValue (Grid.next r)) None
      (Grid.resizingRef (Grid.next r)) (Grid.isResizing (Grid.next r)).
Proof. done. Qed.

Lemma plain_resetOnSheetChange_state r :
  PlainGrid.next (PlainGrid.resetOnSheetChange p r)
  = PlainGrid.mkState (PlainGrid.scrollTop (PlainGrid.next r))
      (PlainGrid.containerHeight (PlainGrid.next r)) None
      (PlainGrid.editValue (PlainGrid.next r)) (Grid.initialWidths p).
Proof. done. Qed.

Lemma sheetEffect_resets (previous : Grid.Props number)
    (sameColumnsArray : bool) (r : Grid.Run) (r' : PlainGrid.Run) :
  sheet_id (Grid.sheet previous) <> sheet_id (Grid.sheet p) ->
  Grid.next (Grid.sheetEffect p previous sameColumnsArray r)
  = Grid.next (Grid.resetOnSheetChange p r)
  /\ PlainGrid.next (PlainGrid.sheetEffect p previous sameColumnsArray r')
     = PlainGrid.next (PlainGrid.resetOnSheetChange p r').
Proof.
  intros Hid. unfold Grid.sheetEffect, PlainGrid.sheetEffect.
  apply String.eqb_neq in Hid. by rewrite Hid.
Qed.

End ResetFacts.

(** C6 fails for a column named [__proto__]. When the sheet of a render
    has another id than the sheet of the previous render, the effect on
    [sheet.id, sheet.columns] builds the widths by
    [initialWidths[c] = 150] on an empty object, and under the name
    [__proto__] that assignment stores nothing: the column has no width,
    what the headers read for it ([colWidths[col] || 150]) is not a
    number, and the plain grid computes the width [NaN] for its cells.
    The rest of the reset happens: no cell is selected and no edit
    session is open. *)
Theorem sheet_change_skips_proto_column {arith : Js.Arithmetic}
    {number : Type} (previous p : Grid.Props number)
    (sameColumnsArray : bool) (r : Grid.Run) (r' : PlainGrid.Run) :
  sheet_id (Grid.sheet previous) <> sheet_id (Grid.sheet p) ->
  "__proto__" ∈ sheet_columns (Grid.sheet p) ->
  let s := Grid.next (Grid.sheetEffect p previous sameColumnsArray r) in
  let s' :=
    PlainGrid.next (PlainGrid.sheetEffect p previous sameColumnsArray r') in
  (Grid.colWidths s !! "__proto__" = None
   /\ Grid.baseWidth s "__proto__" = None)
  /\ (PlainGrid.colWidths s' !! "__proto__" = None
      /\ PlainGrid.getScaledColWidth p s' "__proto__" = Js.NaN)
  /\ Grid.selectedCell s = None
  /\ Grid.editingCell s = None
  /\ PlainGrid.editingCell s' = None.
Proof.
  intros Hid Hin s s'. subst s s'.
  destruct (sheetEffect_resets p previous sameColumnsArray r r' Hid)
    as [-> ->].
  rewrite resetOnSheetChange_state, plain_resetOnSheetChange_state.
  unfold Grid.baseWidth, PlainGrid.getScaledColWidth, Js.get.
  cbn [Grid.colWidths Grid.selectedCell Grid.editingCell
       PlainGrid.colWidths PlainGrid.editingCell].
  rewrite initialWidths_lookup.
  rewrite decide_False by (by intros [_ ?]). done.
Qed.

(** The CSV file of the lines [__proto__,A] and [1,2] is opened while
    another sheet is shown with a selection and a widened column. *)
Lemma sheet_change_skips_proto_column_witness :
  let stale :=
    Grid.mkRun
      (Grid.mkState 324 600 (<["X" := Js.Number 200]> ∅)
         (Some (9, Some "X")) "draft" (Some (9, 2)) None false)
      Grid.FocusContainer [] in
  let previous : Grid.Props Z :=
    Grid.mkProps (mkSheet "old" "old.csv" [] ["X"] csv) 100 None in
  let s :=
    Grid.next (Grid.sheetEffect Scenario.protoProps previous true stale) in
  sheet_columns (Grid.sheet (number := Z) Scenario.protoProps)
  = ["__proto__"; "A"]
  /\ Grid.colWidths s !! "__proto__" = None
  /\ Grid.baseWidth s "__proto__" = None
  /\ Grid.colWidths s !! "A" = Some (Js.Number 150).
Proof.
  intros stale previous s.
  pose proof (sheet_change_skips_proto_column previous Scenario.protoProps
                true stale (PlainGrid.mkRun PlainGrid.initialState []))
    as ((Hw & Hb) & _); [by vm_compute|by left|].
  split; [reflexivity|]. split; [exact Hw|]. split; [exact Hb|].
  by vm_compute.
Defined.

(** X23. For the columns of every name but [__proto__] the reset on a
    sheet with another id does what is expected of it: each column of
    the new sheet has the base width 150, no name that is not a column
    has a width, no cell is selected and no edit session is open. The
    plain grid, which has no selection, resets its widths and its edit
    session in the same way. *)
Theorem sheet_change_resets {number : Type}
    (previous p : Grid.Props number) (sameColumnsArray : bool)
    (r : Grid.Run) (r' : PlainGrid.Run) :
  sheet_id (Grid.sheet previous) <> sheet_id (Grid.sheet p) ->
  let s := Grid.next (Grid.sheetEffect p previous sameColumnsArray r) in
  let s' :=
    PlainGrid.next (PlainGrid.sheetEffect p previous sameColumnsArray r') in
  (forall c, c ∈ sheet_columns (Grid.sheet p) -> c <> "__proto__" ->
     Grid.colWidths s !! c = Some (Js.Number 150)
     /\ Grid.baseWidth s c = Some 150%Q
     /\ PlainGrid.colWidths s' !! c = Some (Js.Number 150))
  /\ (forall c, c ∉ sheet_columns (Grid.sheet p) ->
        Grid.colWidths s !! c = None /\ PlainGrid.colWidths s' !! c = None)
  /\ Grid.selectedCell s = None
  /\ Grid.editingCell s = None
  /\ PlainGrid.editingCell s' = None.
Proof.
  intros Hid s s'. subst s s'.
  destruct (sheetEffect_resets p previous sameColumnsArray r r' Hid)
    as [-> ->].
  rewrite resetOnSheetChange_state, plain_resetOnSheetChange_state.
  unfold Grid.baseWidth, Js.get.
  cbn [Grid.colWidths Grid.selectedCell Grid.editingCell
       PlainGrid.colWidths PlainGrid.editingCell].
  split; [|split; [|done]].
  - intros c Hc Hne. rewrite initialWidths_lookup.
    by rewrite decide_True by done.
  - intros c Hc. rewrite initialWidths_lookup.
    by rewrite decide_False by (by intros [? _]).
Qed.

(** The selection is at (row 9, column 2) when a sheet with another id
    arrives. *)
Lemma sheet_change_resets_witness :
  let stale :=
    Grid.mkRun
      (Grid.mkState 324 600 (<["X" := Js.Number 200]> ∅)
         (Some (9, Some "X")) "draft" (Some (9, 2)) None false)
      Grid.FocusContainer [] in
  let previous : Grid.Props Z :=
    Grid.mkProps (mkSheet "old" "old.csv" [] ["X"] csv) 100 None in
  let s := Grid.next (Grid.sheetEffect Scenario.props previous true stale) in
  Grid.selectedCell s = None
  /\ Grid.editingCell s = None
  /\ Grid.colWidths s !! "A" = Some (Js.Number 150)
  /\ Grid.colWidths s !! "X" = None.
Proof.
  intros stale previous s.
  pose proof (sheet_change_resets previous Scenario.props true stale
                (PlainGrid.mkRun PlainGrid.initialState []))
    as (Hin & Hout & Hsel & Hedit & _); [by vm_compute|].
  split; [exact Hsel|]. split; [exact Hedit|]. split.
  - apply Hin; [|done]. apply (bool_decide_unpack _). by vm_compute.
  - apply Hout, (bool_decide_unpack _). by vm_compute.
Defined.

(** ** Auto size without a canvas *)

(** C8. When no 2d context can be obtained, [performAutoSize] and the
    [autoSizeColumns] handle of either version return at once: nothing is
    thrown, no state update is queued and nothing is called, so every
    column keeps its width. *)
Theorem autosize_without_context {arith : Js.Arithmetic} {number : Type}
    (nts : number -> string)
    (p : Grid.Props number) (top height : Q) (specificCol : option string)
    (s : Grid.State) (r : Grid.Run) (w : Grid.World)
    (s' : PlainGrid.State) (r' : PlainGrid.Run) :
  let env := Grid.mkEnv top height None in
  Grid.performAutoSize nts p env specificCol s r = Some r
  /\ (exists w', Grid.dispatch nts p env Grid.AutoSizeColumns w = Some (w', [])
                 /\ Grid.st w' = Grid.st w)
  /\ PlainGrid.autoSizeColumns nts p env r' = Some r'
  /\ PlainGrid.dispatch nts p env PlainGrid.AutoSizeColumns s' = Some (s', []).
Proof.
  cbn. repeat split. eexists. split; [reflexivity|done].
Qed.

(** ** The host's edit handler changes one cell *)

Section ArraySetFacts.

Context {A : Type}.
Implicit Types (a : list (option A)) (v : A) (i j : Z).

Lemma array_set_length a i v :
  0 <= i < Z.of_nat (length a) ->
  length (Js.array_set a i v) = length a.
Proof.
  intros Hi. unfold Js.array_set.
  replace (i <? 0) with false by lia.
  replace (Z.to_nat i <? length a)%nat with true
    by (symmetry; apply Nat.ltb_lt; lia).
  apply length_insert.
Qed.

Lemma array_set_same a i v :
  0 <= i -> Js.index (Js.array_set a i v) i = Some (Some v).
Proof.
  intros Hi. unfold Js.array_set, Js.index.
  replace (i <? 0) with false by lia.
  destruct (Z.to_nat i <? length a)%nat eqn:E.
  - apply Nat.ltb_lt in E. by apply list_lookup_insert_eq.
  - apply Nat.ltb_ge in E.
    rewrite lookup_app_r by lia.
    rewrite lookup_app_r by (rewrite length_replicate; lia).
    rewrite length_replicate.
    by replace (Z.to_nat i - length a - (Z.to_nat i - length a))%nat
      with 0%nat by lia.
Qed.

(** Every other position reads as before; the holes of a grown array
    read as [undefined], as the positions past the end did. *)
Lemma array_set_other a i v j :
  j <> i ->
  Js.index (Js.array_set a i v) j ≫= id = Js.index a j ≫= id.
Proof.
  intros Hne. unfold Js.array_set, Js.index.
  destruct (i <? 0) eqn:Ei; [done|].
  destruct (j <? 0) eqn:Ej; [done|].
  assert (Hn : Z.to_nat j <> Z.to_nat i) by lia.
  destruct (Z.to_nat i <? length a)%nat eqn:E.
  - by rewrite list_lookup_insert_ne.
  - apply Nat.ltb_ge in E.
    destruct (decide (Z.to_nat j < length a)%nat) as [Hlt|Hge].
    + by rewrite lookup_app_l.
    + rewrite (lookup_ge_None_2 a) by lia.
      rewrite lookup_app_r by lia.
      destruct (decide (Z.to_nat j < Z.to_nat i)%nat) as [Hhole|Hpast].
      * rewrite lookup_app_l by (rewrite length_replicate; lia).
        rewrite lookup_replicate_2 by lia. done.
      * rewrite lookup_ge_None_2; [done|].
        rewrite length_app, length_replicate. cbn. lia.
Qed.

End ArraySetFacts.

Section HostFacts.

Context {number : Type}.
Implicit Types (sheet : Sheet number) (app : Host.App (number := number)).

Lemma editSheet_other_rows rowIndex colKey value sheet i :
  i <> rowIndex ->
  row_at (Host.editSheet rowIndex colKey value sheet) i = row_at sheet i.
Proof. intros Hi. unfold row_at. cbn. by apply array_set_other. Qed.

Lemma editSheet_row rowIndex colKey value sheet :
  0 <= rowIndex ->
  row_at (Host.editSheet rowIndex colKey value sheet) rowIndex
  = Some (Host.editedRow (row_at sheet rowIndex) colKey value).
Proof. intros Hi. unfold row_at at 1. cbn. by rewrite array_set_same. Qed.

Lemma editSheet_negative rowIndex colKey value sheet :
  rowIndex < 0 ->
  sheet_data (Host.editSheet rowIndex colKey value sheet)
  = sheet_data sheet.
Proof.
  intros Hi. cbn. unfold Js.array_set. by replace (rowIndex <? 0) with true by lia.
Qed.

Lemma editSheet_other_cells rowIndex colKey value sheet c :
  c <> colKey ->
  row_at (Host.editSheet rowIndex colKey value sheet) rowIndex
    ≫= (fun row => cell row c)
  = row_at sheet rowIndex ≫= (fun row => cell row c).
Proof.
  intros Hc. destruct (decide (rowIndex < 0)) as [Hneg|Hpos].
  - unfold row_at. by rewrite editSheet_negative.
  - rewrite editSheet_row by lia.
    transitivity (cell (Host.editedRow (row_at sheet rowIndex) colKey value) c);
      [done|].
    unfold Host.editedRow, cell. rewrite lookup_insert_ne by done.
    destruct (row_at sheet rowIndex); [done|]. apply lookup_empty.
Qed.

(** The cell that is written holds the text, as a string. *)
Lemma editSheet_cell rowIndex colKey value sheet :
  0 <= rowIndex ->
  row_at (Host.editSheet rowIndex colKey value sheet) rowIndex
    ≫= (fun row => cell row colKey)
  = Some (VString value).
Proof.
  intros Hi. rewrite editSheet_row by done.
  transitivity (cell (Host.editedRow (row_at sheet rowIndex) colKey value)
                  colKey); [done|].
  unfold Host.editedRow, cell. by rewrite lookup_insert_eq.
Qed.

Lemma handleCellEdit_sheets rowIndex colKey value app :
  Host.sheets (Host.handleCellEdit rowIndex colKey value app)
  = match Host.activeSheetId app with
    | Some aid =>
        if String.eqb aid "" then Host.sheets app
        else map (fun sheet =>
                    if String.eqb (sheet_id sheet) aid
                    then Host.editSheet rowIndex colKey value sheet
                    else sheet) (Host.sheets app)
    | None => Host.sheets app
    end.
Proof.
  unfold Host.handleCellEdit. destruct (Host.activeSheetId app); [|done].
  by destruct (String.eqb _ _).
Qed.

End HostFacts.

(** C10. [handleCellEdit(rowIndex, colKey, value)] keeps the active sheet
    id and the number and order of the sheets. A sheet whose id is not the
    active id is unchanged. A sheet with the active id keeps its id, name,
    column list and type; its rows other than [rowIndex] read as before;
    in row [rowIndex] every column other than [colKey] reads as before;
    and the number of rows is the same when [rowIndex] is in range. *)
Theorem handleCellEdit_frame {number : Type} (rowIndex : Z)
    (colKey value : string) (app : Host.App (number := number)) :
  let app' := Host.handleCellEdit rowIndex colKey value app in
  Host.activeSheetId app' = Host.activeSheetId app
  /\ length (Host.sheets app') = length (Host.sheets app)
  /\ forall (k : nat) (sheet : Sheet number),
       Host.sheets app !! k = Some sheet ->
       exists sheet' : Sheet number,
         Host.sheets app' !! k = Some sheet'
         /\ sheet_id sheet' = sheet_id sheet
         /\ sheet_name sheet' = sheet_name sheet
         /\ sheet_columns sheet' = sheet_columns sheet
         /\ sheet_type sheet' = sheet_type sheet
         /\ (Host.activeSheetId app <> Some (sheet_id sheet) -> sheet' = sheet)
         /\ (forall i, i <> rowIndex -> row_at sheet' i = row_at sheet i)
         /\ (forall c, c <> colKey ->
               row_at sheet' rowIndex ≫= (fun row => cell row c)
               = row_at sheet rowIndex ≫= (fun row => cell row c))
         /\ (0 <= rowIndex < Z.of_nat (length (sheet_data sheet)) ->
               length (sheet_data sheet') = length (sheet_data sheet)).
Proof.
  intros app'. subst app'. split; [|split].
  - destruct app as [ss [aid|]]; [|done]. unfold Host.handleCellEdit. cbn.
    by destruct (String.eqb aid "").
  - rewrite handleCellEdit_sheets. destruct (Host.activeSheetId app); [|done].
    destruct (String.eqb _ _); [done|]. apply length_map.
  - intros k sheet Hk. rewrite handleCellEdit_sheets.
    destruct (Host.activeSheetId app) as [aid|] eqn:Ha;
      [destruct (String.eqb aid "") eqn:Hempty|].
    2: { rewrite list_lookup_fmap, Hk. cbn.
         destruct (String.eqb (sheet_id sheet) aid) eqn:Hid.
         - eexists. split; [reflexivity|].
           apply String.eqb_eq in Hid. repeat split; try done.
           + intros Hother. by subst aid.
           + intros i Hi. by apply editSheet_other_rows.
           + intros c Hc. by apply editSheet_other_cells.
           + intros Hin. by apply array_set_length.
         - exists sheet. repeat split; done. }
    all: exists sheet; repeat split; done.
Qed.

Lemma handleCellEdit_frame_witness :
  let app : Host.App (number := Z) :=
    Host.mkApp [Scenario.table; Scenario.nullTable] (Some "sheet1") in
  let app' := Host.handleCellEdit 1 "B" "42" app in
  exists sheet' : Sheet Z,
    Host.sheets app' !! 0%nat = Some sheet'
    /\ row_at sheet' 0 = Some Scenario.row1
    /\ row_at sheet' 1 ≫= (fun row => cell row "A") = Some (VString "4")
    /\ length (sheet_data sheet') = 2%nat
    /\ Host.sheets app' !! 1%nat = Some Scenario.nullTable.
Proof.
  intros app app'.
  destruct (handleCellEdit_frame 1 "B" "42" app) as (_ & _ & Hframe).
  destruct (Hframe 0%nat Scenario.table eq_refl)
    as (sheet' & Hk & _ & _ & _ & _ & _ & Hrows & Hcells & Hlen).
  destruct (Hframe 1%nat Scenario.nullTable eq_refl)
    as (other & Hk' & _ & _ & _ & _ & Hsame & _).
  exists sheet'. split; [exact Hk|]. split; [|split; [|split]].
  - by rewrite Hrows.
  - by rewrite Hcells.
  - rewrite Hlen; [done|]. by vm_compute.
  - rewrite <- (Hsame ltac:(done)). exact Hk'.
Defined.

(** ** The selection stays inside the table *)

Lemma indexOf_range (a : list string) (x : string) :
  Js.indexOf a x <> -1 -> 0 <= Js.indexOf a x < Z.of_nat (length a).
Proof.
  induction a as [|y a IH]; cbn [Js.indexOf]; [done|].
  destruct (String.eqb y x); [cbn; lia|].
  destruct (Js.indexOf a x =? -1) eqn:E; [done|].
  intros _. apply Z.eqb_neq in E. specialize (IH E). cbn [length]. lia.
Qed.

Lemma slice_length {A} (a : list A) (start stop : Z) :
  0 <= start ->
  Z.of_nat (length (Js.slice a start stop))
  <= Z.max 0 (Z.of_nat (length a) - start).
Proof.
  intros Hs. unfold Js.slice.
  replace (start <? 0) with false by lia.
  rewrite length_take, length_drop. lia.
Qed.

(** The absolute indices of the rendered rows are indices of the data. *)
Lemma visibleRows_in_range {A} (data : list A) (startIndex endIndex x : Z) :
  0 <= startIndex ->
  x ∈ (Virtualization.visibleRows data startIndex endIndex).*2 ->
  0 <= x < Z.of_nat (length data).
Proof.
  intros Hs Hx. apply list_elem_of_fmap in Hx as ([row x'] & -> & Hin).
  unfold Virtualization.visibleRows in Hin.
  apply list_elem_of_lookup in Hin as [i Hi].
  rewrite list_lookup_imap in Hi.
  destruct (Js.slice data startIndex endIndex !! i) as [y|] eqn:Ey; [|done].
  injection Hi as _ <-. apply lookup_lt_Some in Ey.
  pose proof (slice_length data startIndex endIndex Hs). cbn. lia.
Qed.

Section SelectionFacts.

Context {arith : Js.Arithmetic}.
Context {number : Type} (nts : number -> string).
Variable p : Grid.Props number.

Let inv (s : Grid.State) : Prop :=
  Grid.selectionInBounds p s /\ Grid.editInBounds p s.

Lemma inv_same_cells s s' :
  Grid.selectedCell s' = Grid.selectedCell s ->
  Grid.editingCell s' = Grid.editingCell s ->
  inv s -> inv s'.
Proof.
  unfold inv, Grid.selectionInBounds, Grid.editInBounds.
  by intros -> ->.
Qed.

Lemma renderedCell_in_range s absoluteIndex colIndex :
  Grid.renderedCell p s absoluteIndex colIndex = true ->
  0 <= absoluteIndex < Grid.totalRows p
  /\ 0 <= colIndex < Z.of_nat (length (Grid.columns p)).
Proof.
  unfold Grid.renderedCell. rewrite !andb_true_iff.
  intros [[[_ Hrow] Hlo] Hhi]. apply bool_decide_eq_true in Hrow.
  split; [|lia]. unfold Grid.visibleRows in Hrow.
  eapply visibleRows_in_range; [|exact Hrow].
  apply startIndex_nonneg.
Qed.

Lemma commit_inv s row col r :
  0 <= row < Grid.totalRows p ->
  inv (Grid.next r) -> inv (Grid.next (Grid.commit p s row col r)).
Proof.
  intros Hrow [Hsel Hedit]. unfold Grid.commit.
  destruct col as [c|]; cbn [Z.eqb].
  - destruct (Js.indexOf (Grid.columns p) c =? -1) eqn:E.
    + split; [exact Hsel|done].
    + apply Z.eqb_neq, indexOf_range in E. by split.
  - split; [exact Hsel|done].
Qed.

Lemma focusContainer_inv onBlur r :
  (forall r', inv (Grid.next r') -> inv (Grid.next (onBlur r'))) ->
  inv (Grid.next r) -> inv (Grid.next (Grid.focusContainer p onBlur r)).
Proof.
  intros Hblur Hr. unfold Grid.focusContainer.
  destruct (Grid.mounted p); [|done].
  destruct (Grid.nfocus r); [by apply Hblur|done..].
Qed.

Lemma saveEdit_with_inv onBlur s r :
  (forall r', inv (Grid.next r') -> inv (Grid.next (onBlur r'))) ->
  Grid.editInBounds p s ->
  inv (Grid.next r) -> inv (Grid.next (Grid.saveEdit_with p onBlur s r)).
Proof.
  intros Hblur Hs Hr. unfold Grid.saveEdit_with.
  unfold Grid.editInBounds in Hs.
  destruct (Grid.editingCell s) as [[row col]|]; [|done].
  apply focusContainer_inv; [done|]. by apply commit_inv.
Qed.

Lemma saveEdit_inv s r :
  Grid.editInBounds p s ->
  inv (Grid.next r) -> inv (Grid.next (Grid.saveEdit p s r)).
Proof.
  intros Hs Hr. unfold Grid.saveEdit.
  apply saveEdit_with_inv; [|done..].
  intros r' Hr'. by apply saveEdit_with_inv.
Qed.

Lemma scrollToCell_next env row r :
  Grid.next (Grid.scrollToCell p env row r) = Grid.next r.
Proof.
  unfold Grid.scrollToCell. destruct (Grid.mounted p); [|done].
  by repeat destruct (negb _).
Qed.

Lemma tabTarget_in_range shiftKey row colIdx :
  0 <= row < Grid.totalRows p ->
  0 <= colIdx < Z.of_nat (length (Grid.columns p)) ->
  0 <= fst (Grid.tabTarget p shiftKey row colIdx) < Grid.totalRows p
  /\ 0 <= snd (Grid.tabTarget p shiftKey row colIdx)
     < Z.of_nat (length (Grid.columns p)).
Proof.
  intros Hrow Hcol. unfold Grid.tabTarget, Js.Math_max, Js.Math_min.
  destruct shiftKey; [|cbn [fst snd]; lia].
  destruct ((_ =? 0) && (0 <? row)) eqn:E; cbn [fst snd]; [|lia].
  apply andb_true_iff in E as [_ E]. lia.
Qed.

Lemma tabTarget_row_in_range shiftKey row colIdx :
  0 <= row < Grid.totalRows p ->
  0 <= colIdx < Z.of_nat (length (Grid.columns p)) ->
  0 <= fst (Grid.tabTarget p shiftKey row colIdx) < Grid.totalRows p.
Proof. intros. by apply tabTarget_in_range. Qed.

Lemma tabTarget_col_in_range shiftKey row colIdx :
  0 <= row < Grid.totalRows p ->
  0 <= colIdx < Z.of_nat (length (Grid.columns p)) ->
  0 <= snd (Grid.tabTarget p shiftKey row colIdx)
  < Z.of_nat (length (Grid.columns p)).
Proof. intros. by apply tabTarget_in_range. Qed.

Lemma handleKeyDown_inv env key shiftKey s r r' :
  inv s -> Grid.next r = s ->
  Grid.handleKeyDown nts p env key shiftKey s r = Some r' ->
  inv (Grid.next r').
Proof.
  intros Hs Hr. unfold Grid.handleKeyDown.
  destruct (Grid.editingCell s) as [cellE|] eqn:He.
  - intros [= <-].
    assert (Hsave : inv (Grid.next (match key with
                                    | Grid.Enter => Grid.saveEdit p s r
                                    | _ => r end))).
    { destruct key; try (by rewrite Hr).
      apply saveEdit_inv; [apply Hs|by rewrite Hr]. }
    destruct key; try exact Hsave.
    destruct Hsave as [Hsel _]. split; [exact Hsel|done].
  - destruct (Grid.selectedCell s) as [[row colIdx]|] eqn:Hsel;
      [|intros [= <-]; by rewrite Hr].
    assert (Hb : 0 <= row < Grid.totalRows p
                 /\ 0 <= colIdx < Z.of_nat (length (Grid.columns p))).
    { destruct Hs as [Hs _]. unfold Grid.selectionInBounds in Hs.
      by rewrite Hsel in Hs. }
    assert (Hmove : forall target : Z * Z,
               0 <= fst target < Grid.totalRows p ->
               0 <= snd target < Z.of_nat (length (Grid.columns p)) ->
               inv (Grid.next (Grid.scrollToCell p env (fst target)
                                 (Grid.setSelectedCell (Some target) r)))).
    { intros [tr tc] Htr Htc. rewrite scrollToCell_next.
      split; [done|]. unfold Grid.editInBounds. cbn. rewrite Hr, He. done. }
    unfold Js.Math_max, Js.Math_min.
    destruct key; try (intros [= <-]; first
      [ by rewrite Hr
      | lazymatch goal with
        | |- inv (Grid.next (Grid.scrollToCell _ _ _
                               (Grid.setSelectedCell (Some ?t) _))) =>
            apply (Hmove t)
        end;
        first [ cbn [fst snd]; lia
              | apply tabTarget_row_in_range; lia
              | apply tabTarget_col_in_range; lia ] ]).
    destruct (row_at (Grid.sheet p) row) as [dataRow|]; cbn; [|done].
    intros [= <-]. split.
    + unfold Grid.selectionInBounds. cbn. rewrite Hr, Hsel. done.
    + unfold Grid.editInBounds. cbn. lia.
Qed.

Lemma performAutoSize_next env specificCol s r r' :
  Grid.performAutoSize nts p env specificCol s r = Some r' ->
  Grid.selectedCell (Grid.next r') = Grid.selectedCell (Grid.next r)
  /\ Grid.editingCell (Grid.next r') = Grid.editingCell (Grid.next r).
Proof.
  unfold Grid.performAutoSize.
  destruct (Grid.getContext env); [|by intros [= <-]].
  destruct (Grid.fitColumns _ _ _ _ _); [|done]. by intros [= <-].
Qed.

Lemma handle_inv env ev s f r' :
  inv s ->
  Grid.handle nts p env ev s (Grid.mkRun s f []) = Some r' ->
  inv (Grid.next r').
Proof.
  intros Hs. destruct ev; cbn [Grid.handle].
  - destruct (Grid.mounted p); [|done]. intros [= <-].
    by apply (inv_same_cells s).
  - intros [= <-]. unfold Grid.handleResize.
    destruct (Grid.mounted p); by apply (inv_same_cells s).
  - destruct (Grid.renderedCell _ _ _ _) eqn:E; [|done]. intros [= <-].
    apply renderedCell_in_range in E.
    split; [by destruct (Grid.isFocusInput _)|].
    destruct Hs as [_ Hs]. by destruct (Grid.isFocusInput _).
  - destruct (Grid.renderedCell _ _ _ _) eqn:E; [|done].
    apply renderedCell_in_range in E as [E _].
    destruct (row_at _ _); [|done]. cbn.
    destruct (Js.index _ _); [|done]. cbn. intros [= <-].
    split; [apply Hs|done].
  - destruct (_ && _); [|done]. by apply handleKeyDown_inv.
  - destruct (_ && _); [|done]. intros [= <-]. by apply (inv_same_cells s).
  - destruct (_ && _); [|done]. intros [= <-]. unfold Grid.inputKeyDown.
    assert (Hsave : inv (Grid.next (match key with
                                    | Grid.Enter =>
                                        Grid.saveEdit p s (Grid.mkRun s f [])
                                    | _ => Grid.mkRun s f [] end))).
    { destruct key; try done. apply saveEdit_inv; [apply Hs|done]. }
    destruct key; try exact Hsave.
    destruct Hsave as [Hsel _]. split; [exact Hsel|done].
  - destruct (_ && _); [|done]. intros [= <-].
    change (inv (Grid.next (Grid.saveEdit p s
                              (Grid.withFocus Grid.FocusElsewhere
                                 (Grid.mkRun s f []))))).
    apply saveEdit_inv; [apply Hs|done].
  - destruct (_ && _); [|done]. intros [= <-]. by apply (inv_same_cells s).
  - destruct (_ && _); [|done]. intros H.
    apply performAutoSize_next in H as [H1 H2]. by apply (inv_same_cells s).
  - destruct (Grid.isResizing s); [|done]. intros [= <-].
    unfold Grid.handleMouseMove. cbn.
    destruct (Grid.resizingRef s) as [[]|]; by apply (inv_same_cells s).
  - destruct (Grid.isResizing s); [|done]. intros [= <-].
    unfold Grid.handleMouseUp. cbn.
    destruct (Grid.resizingRef s); by apply (inv_same_cells s).
  - intros H. apply performAutoSize_next in H as [H1 H2].
    by apply (inv_same_cells s).
Qed.

Lemma mount_inv env : inv (Grid.st (Grid.mount p env)).
Proof.
  unfold Grid.mount, Grid.handleResize. cbn.
  destruct (Grid.mounted p); by split.
Qed.

Lemma reachable_inv w : Grid.reachable nts p w -> inv (Grid.st w).
Proof.
  induction 1 as [env|w env ev w' effs _ IH Hstep].
  - apply mount_inv.
  - unfold Grid.dispatch in Hstep.
    destruct (Grid.handle nts p env ev (Grid.st w) _) as [r'|] eqn:Hh;
      [|done].
    injection Hstep as <- _. cbn. by eapply handle_inv.
Qed.

(** The edit session of a reachable state is on a row of the sheet. *)
Lemma reachable_edit_in_bounds w :
  Grid.reachable nts p w -> Grid.editInBounds p (Grid.st w).
Proof. intros H. by apply reachable_inv. Qed.

End SelectionFacts.

(** C9. In every state the grid can reach on a fixed sheet -- from the
    first render, by clicks and double clicks on rendered cells, keys on
    the container and in the edit input, blurs, scrolling, resizing and
    auto size -- a selected cell [(row, colIdx)] satisfies
    [0 <= row < rowCount] and [0 <= colIdx < columnCount]. *)
Theorem selection_stays_in_bounds {arith : Js.Arithmetic} {number : Type}
    (nts : number -> string)
    (p : Grid.Props number) (w : Grid.World) (row colIdx : Z) :
  Grid.reachable nts p w ->
  Grid.selectedCell (Grid.st w) = Some (row, colIdx) ->
  0 <= row < Z.of_nat (length (sheet_data (Grid.sheet p)))
  /\ 0 <= colIdx < Z.of_nat (length (sheet_columns (Grid.sheet p))).
Proof.
  intros Hreach Hsel.
  destruct (reachable_inv nts p w Hreach) as [Hin _].
  unfold Grid.selectionInBounds in Hin. by rewrite Hsel in Hin.
Qed.

Lemma reachable_after (evs : list Grid.Event) w effs :
  Scenario.run Scenario.showZ Scenario.props evs Scenario.start
  = Some (w, effs) ->
  Grid.reachable Scenario.showZ Scenario.props w.
Proof.
  unfold Scenario.run.
  assert (Hstart : Grid.reachable Scenario.showZ Scenario.props Scenario.start)
    by apply Grid.reachable_mount.
  revert Hstart. generalize Scenario.start. revert w effs.
  induction evs as [|ev evs IH]; intros w effs w0 Hw0; cbn.
  - by intros [= <- _].
  - destruct (Grid.dispatch _ _ _ ev w0) as [[w1 e1]|] eqn:E; [|done]. cbn.
    destruct (Grid.dispatchAll _ _ _ w1) as [[w2 e2]|] eqn:E2; [|done]. cbn.
    intros [= <- _]. eapply IH; [|exact E2].
    by eapply Grid.reachable_step.
Qed.

Lemma selection_stays_in_bounds_witness :
  let keys := [Grid.CellClick 1 2;
               Grid.ContainerKeyDown Grid.ArrowDown false;
               Grid.ContainerKeyDown Grid.ArrowLeft false;
               Grid.ContainerKeyDown Grid.Tab false] in
  Grid.selectedCell (Grid.st (Scenario.after keys)) = Some (1, 2)
  /\ 0 <= 1 < Z.of_nat (length (sheet_data (Grid.sheet Scenario.props
                                              (number := Z))))
  /\ 0 <= 2 < Z.of_nat (length (sheet_columns (Grid.sheet Scenario.props
                                                 (number := Z)))).
Proof.
  intros keys. split; [by vm_compute|].
  apply (selection_stays_in_bounds Scenario.showZ Scenario.props
           (Scenario.after keys)).
  - apply (reachable_after keys _ []). by vm_compute.
  - by vm_compute.
Defined.

(** * Further properties of the grid *)

(** ** What the window renders *)

Lemma slice_lookup {A} (a : list A) (start stop : Z) (k : nat) :
  0 <= start -> 0 <= stop ->
  Js.slice a start stop !! k
  = if bool_decide (start + Z.of_nat k < stop)
    then a !! Z.to_nat (start + Z.of_nat k) else None.
Proof.
  intros Hs He. unfold Js.slice.
  replace (start <? 0) with false by lia.
  replace (stop <? 0) with false by lia.
  set (len := Z.of_nat (length a)).
  destruct (decide (Z.of_nat k < Z.min stop len - Z.min start len)) as [Hk|Hk].
  - rewrite lookup_take_lt by lia. rewrite lookup_drop.
    rewrite bool_decide_eq_true_2 by lia. f_equal. lia.
  - rewrite lookup_take_ge by lia. case_bool_decide as Hlt; [|done].
    symmetry. apply lookup_ge_None_2. subst len. lia.
Qed.

Lemma visibleRows_member {A} (data : list A) (startIndex endIndex : Z)
    (k : nat) (row : A) (absoluteIndex : Z) :
  0 <= startIndex -> 0 <= endIndex ->
  absoluteIndex = startIndex + Z.of_nat k
  /\ absoluteIndex < endIndex
  /\ data !! Z.to_nat absoluteIndex = Some row ->
  Virtualization.visibleRows data startIndex endIndex !! k
  = Some (row, absoluteIndex).
Proof.
  intros Hs He (-> & Hlt & Hrow). unfold Virtualization.visibleRows.
  rewrite list_lookup_imap, slice_lookup by done.
  rewrite bool_decide_eq_true_2 by done. by rewrite Hrow.
Qed.

(** X1. The rendered rows are the rows [startIndex .. endIndex - 1] of the
    data that exist, in order, each with its absolute index. *)
Theorem visibleRows_lookup {A} (data : list A) (startIndex endIndex : Z)
    (k : nat) (row : A) (absoluteIndex : Z) :
  0 <= startIndex -> 0 <= endIndex ->
  Virtualization.visibleRows data startIndex endIndex !! k
  = Some (row, absoluteIndex)
  <-> absoluteIndex = startIndex + Z.of_nat k
      /\ absoluteIndex < endIndex
      /\ data !! Z.to_nat absoluteIndex = Some row.
Proof.
  intros Hs He. split; [|by apply visibleRows_member].
  unfold Virtualization.visibleRows.
  rewrite list_lookup_imap, slice_lookup by done.
  case_bool_decide as Hlt; [|done].
  destruct (data !! Z.to_nat (startIndex + Z.of_nat k)) as [y|] eqn:Ey;
    cbn; [|done].
  by intros [= <- <-].
Qed.

Lemma visibleRows_lookup_witness :
  Virtualization.visibleRows ["a"; "b"; "c"; "d"] 1 3 !! 1%nat = Some ("c", 2).
Proof.
  apply (visibleRows_lookup ["a"; "b"; "c"; "d"] 1 3 1 "c" 2); [lia|lia|].
  split; [reflexivity|]. split; [lia|reflexivity].
Defined.

Lemma visibleRows_length {A} (data : list A) (startIndex endIndex : Z) :
  0 <= startIndex -> 0 <= endIndex ->
  Z.of_nat (length (Virtualization.visibleRows data startIndex endIndex))
  <= Z.max 0 (endIndex - startIndex).
Proof.
  intros Hs He. unfold Virtualization.visibleRows. rewrite length_imap.
  unfold Js.slice. replace (startIndex <? 0) with false by lia.
  replace (endIndex <? 0) with false by lia.
  rewrite length_take, length_drop. lia.
Qed.

(** In exact arithmetic the window holds at most the rows the viewport
    can show plus the two buffers, however many rows the sheet has. *)
Lemma window_size_bound (h : Q) (n : Z) (s v : Q) :
  (0 < h)%Q -> (0 <= s)%Q -> (0 <= v)%Q ->
  Virtualization.endIndex (arith := Js.exact) h n s v
  - Virtualization.startIndex (arith := Js.exact) h s
  <= Qceiling (v / h) + 21.
Proof.
  intros Hh Hs Hv.
  assert (Hsum : Qceiling ((s + v) / h) <= Qfloor (s / h) + 1 + Qceiling (v / h)).
  { assert (H1 := Qlt_floor (s / h)). assert (H2 := Qle_ceiling (v / h)).
    assert (E : ((s + v) / h == s / h + v / h)%Q) by (field; lra).
    assert (H3 : ((s + v) / h
                  < inject_Z (Qfloor (s / h) + 1 + Qceiling (v / h)))%Q).
    { rewrite E, !inject_Z_plus. rewrite inject_Z_plus in H1. lra. }
    pose proof (Qceiling_lt ((s + v) / h)) as H4.
    assert (H5 : (inject_Z (Qceiling ((s + v) / h) - 1)
                  < inject_Z (Qfloor (s / h) + 1 + Qceiling (v / h)))%Q)
      by (eapply Qlt_trans; eassumption).
    rewrite <- Zlt_Qlt in H5. lia. }
  unfold Virtualization.startIndex, Virtualization.endIndex, Js.Math_max,
    Js.Math_min, Js.Math_floor, Js.Math_ceil, Virtualization.buffer,
    Js.div, Js.add.
  cbn [Js.fl Js.exact]. lia.
Qed.

Lemma rowHeight_pos (zoomLevel : Q) :
  (0 < zoomLevel)%Q ->
  (0 < Virtualization.rowHeight (arith := Js.exact) zoomLevel)%Q.
Proof.
  intros Hz. unfold Virtualization.rowHeight, Virtualization.ROW_HEIGHT_BASE,
    Js.mul, Js.div. cbn [Js.fl Js.exact].
  assert (E : (36 * (zoomLevel / 100) == zoomLevel * (36 / 100))%Q) by field.
  rewrite E. apply Qmult_lt_0_compat; [done|reflexivity].
Qed.

Lemma rowHeight_pos_binary64 (zoomLevel : Q) :
  (0 < zoomLevel)%Q -> (0 < Virtualization.rowHeight zoomLevel)%Q.
Proof.
  intros Hz. unfold Virtualization.rowHeight, Virtualization.ROW_HEIGHT_BASE,
    Js.mul, Js.div.
  apply binary64_pos. apply Qmult_lt_0_compat; [reflexivity|].
  apply binary64_pos. apply Qlt_shift_div_l; [reflexivity|]. lra.
Qed.

Section WindowCoverage.

Import Virtualization.

Variables (h : Q) (n : Z) (s v : Q).
Hypothesis h_pos : (0 < h)%Q.
Hypothesis n_bound : n <= 2 ^ 32.

(** In doubles: a row whose place overlaps the band from [s] to [s + v]
    lies inside the window. The rounding of the two quotients moves
    them by less than one row, and the buffer is ten rows. *)
Lemma overlapping_row_in_window (i : Z) :
  0 <= i < n ->
  (inject_Z i * h < s + v)%Q ->
  (s < inject_Z (i + 1) * h)%Q ->
  startIndex h s <= i < endIndex h n s v.
Proof.
  intros Hi Hbelow Habove.
  assert (Hfloor : Js.Math_floor (Js.div s h) <= i + 1).
  { unfold Js.Math_floor, Js.div. rewrite Zle_Qle.
    eapply Qle_trans; [apply Qfloor_le|].
    rewrite <- (binary64_integer (i + 1)) by lia.
    apply (Js.fl_le _ binary64_rounding).
    apply Qlt_le_weak, Qlt_shift_div_r; [exact h_pos|exact Habove]. }
  assert (Hceil : i - 1 <= Js.Math_ceil (Js.div (Js.add s v) h)).
  { unfold Js.Math_ceil, Js.div, Js.add. rewrite Zle_Qle.
    eapply Qle_trans; [|apply Qle_ceiling].
    assert (HI0 : (0 <= inject_Z i)%Q).
    { change 0%Q with (inject_Z 0). rewrite <- Zle_Qle. lia. }
    assert (HI1 : (inject_Z i <= inject_Z (2 ^ 32))%Q).
    { rewrite <- Zle_Qle. lia. }
    change (inject_Z (2 ^ 32)) with 4294967296%Q in HI1.
    assert (Hsv : (0 <= s + v)%Q).
    { apply Qlt_le_weak. eapply Qle_lt_trans; [|exact Hbelow].
      apply Qmult_le_0_compat; [exact HI0|lra]. }
    destruct (binary64_error (s + v) Hsv) as [E1 _].
    set (a := Js.fl (s + v)) in *.
    assert (Hy : ((1 - (1 # 2 ^ 53)) * inject_Z i <= a / h)%Q).
    { apply Qle_shift_div_l; [exact h_pos|].
      eapply Qle_trans; [|exact E1].
      rewrite <- Qmult_assoc. apply Qmult_le_l; [reflexivity|].
      by apply Qlt_le_weak. }
    assert (Hy0 : (0 <= a / h)%Q).
    { eapply Qle_trans; [|exact Hy].
      apply Qmult_le_0_compat; [by vm_compute|exact HI0]. }
    destruct (binary64_error (a / h) Hy0) as [E2 _].
    set (y := (a / h)%Q) in *. set (I := inject_Z i) in *.
    unfold Zminus. rewrite inject_Z_plus. fold I.
    change (inject_Z (- (1))) with (- (1))%Q.
    change (1 # 2 ^ 53)%Q with (1 # 9007199254740992)%Q in *.
    lra. }
  unfold startIndex, endIndex, Js.Math_max, Js.Math_min, buffer. lia.
Qed.

End WindowCoverage.





(** X3. The number of rendered rows does not grow with the sheet: for a
    scroll offset and a viewport height that are not negative it is, in
    exact arithmetic, at most the rows that fit the viewport, rounded
    up, plus 21. *)
Theorem rendered_rows_bounded {number : Type}
    (p : Grid.Props number) (s : Grid.State) :
  (0 < Grid.zoomLevel p)%Q ->
  (0 <= Grid.scrollTop s)%Q -> (0 <= Grid.containerHeight s)%Q ->
  Z.of_nat (length (Grid.visibleRows (arith := Js.exact) p s))
  <= Qceiling (Grid.containerHeight s / Grid.rowHeight (arith := Js.exact) p)
     + 21.
Proof.
  intros Hz Hs Hv.
  pose proof (rowHeight_pos _ Hz) as Hh.
  pose proof (startIndex_nonneg (arith := Js.exact)
                (Grid.rowHeight (arith := Js.exact) p) (Grid.scrollTop s))
    as H0.
  assert (He : 0 <= Grid.endIndex (arith := Js.exact) p s).
  { pose proof (ceil_div_nonneg (arith := Js.exact) _ _ _ exact_rounding
                  Hh Hs Hv).
    unfold Grid.endIndex, Virtualization.endIndex, Grid.totalRows,
      Grid.rowHeight, Js.Math_min, Virtualization.buffer in *.
    lia. }
  pose proof (visibleRows_length (sheet_data (Grid.sheet p))
                (Grid.startIndex (arith := Js.exact) p s)
                (Grid.endIndex (arith := Js.exact) p s) H0 He) as Hlen.
  pose proof (window_size_bound _
                (Z.of_nat (length (sheet_data (Grid.sheet p))))
                _ _ Hh Hs Hv) as Hw.
  pose proof (Qle_ceiling (Grid.containerHeight s
                           / Grid.rowHeight (arith := Js.exact) p)) as Hc.
  assert (Hc0 : 0 <= Qceiling (Grid.containerHeight s
                               / Grid.rowHeight (arith := Js.exact) p)).
  { rewrite Zle_Qle. eapply Qle_trans; [|apply Qle_ceiling].
    apply Qle_shift_div_l; [done|]. change (inject_Z 0) with 0%Q. lra. }
  unfold Grid.visibleRows, Grid.startIndex, Grid.endIndex, Grid.totalRows,
    Grid.rowHeight in *. lia.
Qed.

Lemma rendered_rows_bounded_witness :
  Z.of_nat (length (Grid.visibleRows (arith := Js.exact) (number := Z)
                      Scenario.props (Grid.st Scenario.start)))
  <= Qceiling (600 / Grid.rowHeight (arith := Js.exact) (number := Z)
                       Scenario.props) + 21.
Proof.
  apply (rendered_rows_bounded Scenario.props (Grid.st Scenario.start));
    by vm_compute.
Defined.

(** ** Auto size with a canvas *)

(** Whether [o[k] = v] stores an entry. *)
Lemma set_lookup {A} (o : gmap string A) (k c : string) (v : A) :
  Js.set o k v !! c
  = if decide (c = k /\ (k <> "__proto__" \/ is_Some (o !! k)))
    then Some v else o !! c.
Proof.
  unfold Js.set. destruct (String.eqb k "__proto__") eqn:Ek; cbn [andb].
  - apply String.eqb_eq in Ek. subst k.
    destruct (o !! "__proto__") as [x|] eqn:Eo.
    + rewrite bool_decide_true by (by eexists). cbn.
      destruct (decide (c = "__proto__")) as [->|Hne].
      * rewrite lookup_insert_eq, decide_True; [done|].
        split; [done|right; by eexists].
      * rewrite lookup_insert_ne by done.
        rewrite decide_False; [done|by intros [? _]].
    + rewrite bool_decide_false by (by intros [? ?]). cbn.
      rewrite decide_False; [done|].
      intros [_ [?|[? ?]]]; done.
  - apply String.eqb_neq in Ek.
    destruct (decide (c = k)) as [->|Hne].
    + rewrite lookup_insert_eq, decide_True; [done|]. split; [done|by left].
    + rewrite lookup_insert_ne by done.
      rewrite decide_False; [done|by intros [? _]].
Qed.

Section AutoSizeFacts.

Context {arith : Js.Arithmetic}.
Context {number : Type} (nts : number -> string).
Variable p : Grid.Props number.
Variable measureText : string -> Q.

(** The width a sampled cell asks for. *)
Let cellWidth (col : string) (row : DataRow number) : Q :=
  Js.add (measureText (displayVal nts (cell row col))) 24.

Lemma sampleWidth_spec col rows maxWidth w :
  Grid.sampleWidth nts measureText col rows maxWidth = Some w ->
  (maxWidth <= w)%Q
  /\ (forall row, Some row ∈ rows -> (cellWidth col row <= w)%Q)
  /\ Forall is_Some rows.
Proof.
  revert maxWidth. induction rows as [|[row|] rows IH]; intros maxWidth; cbn.
  - intros [= <-]. split; [lra|]. split; [|constructor].
    intros row Hin. by apply elem_of_nil in Hin.
  - intros H. apply IH in H as (Hle & Hrows & Hall).
    assert (Hstep : (maxWidth <= w)%Q /\ (cellWidth col row <= w)%Q).
    { unfold cellWidth.
      destruct (Qle_bool _ maxWidth) eqn:E.
      - apply Qle_bool_iff in E. split; [done|]. lra.
      - assert (~ (Js.add (measureText (displayVal nts (cell row col))) 24
                   <= maxWidth)%Q)
          by (rewrite <- Qle_bool_iff; by rewrite E).
        split; [lra|done]. }
    destruct Hstep as [H1 H2]. split; [done|]. split.
    + intros row' [[= ->]|Hin]%elem_of_cons; [done|by apply Hrows].
    + constructor; [by eexists|done].
  - done.
Qed.

Lemma sampleWidth_total col rows maxWidth :
  Forall is_Some rows ->
  is_Some (Grid.sampleWidth nts measureText col rows maxWidth).
Proof.
  intros Hall. revert maxWidth.
  induction Hall as [|[row|] rows [? Hx] _ IH]; intros maxWidth; cbn;
    [by eexists|apply IH|done].
Qed.

Lemma sample_take (cap : nat) :
  take (Nat.min (length (sheet_data (Grid.sheet p))) cap)
    (sheet_data (Grid.sheet p))
  = take cap (sheet_data (Grid.sheet p)).
Proof.
  destruct (decide (cap <= length (sheet_data (Grid.sheet p)))%nat).
  - by rewrite Nat.min_r.
  - rewrite Nat.min_l by lia. rewrite !take_ge; [done|lia..].
Qed.

(** One column: the fitted width lies between 60 and the upper bound,
    and is wide enough for the header and for every sampled cell, up to
    the upper bound. *)
Lemma fitColumn_spec cap upper col w :
  (60 <= upper)%Q ->
  Grid.fitColumn nts p measureText cap upper col = Some w ->
  (60 <= w <= upper)%Q
  /\ (Qmin (Js.add (measureText col) 40) upper <= w)%Q
  /\ (forall (i : nat) row,
        (i < cap)%nat ->
        sheet_data (Grid.sheet p) !! i = Some (Some row) ->
        (Qmin (cellWidth col row) upper <= w)%Q)
  /\ Forall is_Some (take cap (sheet_data (Grid.sheet p))).
Proof.
  intros Hupper. unfold Grid.fitColumn. rewrite sample_take.
  destruct (Grid.sampleWidth _ _ _ _ _) as [m|] eqn:E; [|done].
  cbn. intros [= <-]. apply sampleWidth_spec in E as (Hhead & Hrows & Hall).
  assert (Hclamp : forall x, (x <= m)%Q ->
            (Qmin x upper <= Qmin (Qmax m 60) upper)%Q).
  { intros x Hx. apply Q.min_le_compat_r.
    eapply Qle_trans; [exact Hx|apply Q.le_max_l]. }
  split; [split|split; [|split]].
  - apply Q.min_glb; [apply Q.le_max_r|done].
  - apply Q.le_min_r.
  - by apply Hclamp.
  - intros i row Hi Hrow. apply Hclamp, Hrows.
    apply list_elem_of_lookup. exists i. by rewrite lookup_take_lt.
  - done.
Qed.

Lemma fitColumn_total cap upper col :
  Forall is_Some (take cap (sheet_data (Grid.sheet p))) ->
  is_Some (Grid.fitColumn nts p measureText cap upper col).
Proof.
  intros Hall. unfold Grid.fitColumn. rewrite sample_take.
  destruct (sampleWidth_total col _ (Js.add (measureText col) 40) Hall) as [m ->].
  by eexists.
Qed.

(** A name under which the loop stores a width: every name but
    [__proto__], and [__proto__] too when the object has an entry of
    its own under it. *)
Let stores (widths : gmap string Js.Num) (c : string) : Prop :=
  c <> "__proto__" \/ is_Some (widths !! c).

Lemma stores_set widths col v c :
  stores (Js.set widths col v) c <-> stores widths c.
Proof.
  unfold stores. rewrite set_lookup.
  destruct (decide (c = "__proto__")) as [->|Hne]; [|by split; left].
  case_decide as H.
  - destruct H as [<- [?|?]]; [done|]. split; right; [done|by eexists].
  - done.
Qed.

Lemma fitColumns_spec cols widths newWidths :
  Grid.fitColumns nts p measureText cols widths = Some newWidths ->
  (forall c, c ∈ cols -> stores widths c ->
     exists w, newWidths !! c = Some (Js.Number w)
               /\ Grid.fitColumn nts p measureText 500 800 c = Some w)
  /\ (forall c, c ∉ cols \/ ~ stores widths c ->
        newWidths !! c = widths !! c).
Proof.
  revert widths. induction cols as [|col cols IH]; intros widths; cbn.
  - intros [= <-]. split; [|done]. intros c Hc. by apply elem_of_nil in Hc.
  - destruct (Grid.fitColumn nts p measureText 500 800 col) as [w|] eqn:E;
      [|done].
    cbn. intros H. apply IH in H as [Hin Hout]. split.
    + intros c Hc Hst.
      destruct (decide (c ∈ cols)) as [Hcol|Hcol].
      * apply Hin; [done|]. by apply stores_set.
      * apply elem_of_cons in Hc as [->|?]; [|done].
        exists w. rewrite Hout by (by left). rewrite set_lookup.
        by rewrite decide_True by done.
    + intros c Hc. rewrite Hout, set_lookup.
      * rewrite decide_False; [done|].
        intros [-> Hst]. destruct Hc as [Hc|Hc]; [|done].
        apply Hc. by left.
      * destruct Hc as [Hc|Hc].
        -- left. intros ?. apply Hc. by right.
        -- right. by rewrite stores_set.
Qed.

Lemma fitColumns_total cols widths :
  Forall is_Some (take 500 (sheet_data (Grid.sheet p))) ->
  is_Some (Grid.fitColumns nts p measureText cols widths).
Proof.
  intros Hall. revert widths.
  induction cols as [|col cols IH]; intros widths; cbn; [by eexists|].
  destruct (fitColumn_total 500 800 col Hall) as [w ->]. cbn. apply IH.
Qed.

Lemma plain_fitColumns_total cols widths :
  Forall is_Some (take 200 (sheet_data (Grid.sheet p))) ->
  is_Some (PlainGrid.fitColumns nts p measureText cols widths).
Proof.
  intros Hall. revert widths.
  induction cols as [|col cols IH]; intros widths; cbn; [by eexists|].
  destruct (fitColumn_total 200 600 col Hall) as [w ->]. cbn. apply IH.
Qed.

Lemma plain_fitColumns_spec cols widths newWidths :
  PlainGrid.fitColumns nts p measureText cols widths = Some newWidths ->
  (forall c, c ∈ cols -> stores widths c ->
     exists w, newWidths !! c = Some (Js.Number w)
               /\ Grid.fitColumn nts p measureText 200 600 c = Some w)
  /\ (forall c, c ∉ cols \/ ~ stores widths c ->
        newWidths !! c = widths !! c).
Proof.
  revert widths. induction cols as [|col cols IH]; intros widths; cbn.
  - intros [= <-]. split; [|done]. intros c Hc. by apply elem_of_nil in Hc.
  - destruct (Grid.fitColumn nts p measureText 200 600 col) as [w|] eqn:E;
      [|done].
    cbn. intros H. apply IH in H as [Hin Hout]. split.
    + intros c Hc Hst.
      destruct (decide (c ∈ cols)) as [Hcol|Hcol].
      * apply Hin; [done|]. by apply stores_set.
      * apply elem_of_cons in Hc as [->|?]; [|done].
        exists w. rewrite Hout by (by left). rewrite set_lookup.
        by rewrite decide_True by done.
    + intros c Hc. rewrite Hout, set_lookup.
      * rewrite decide_False; [done|].
        intros [-> Hst]. destruct Hc as [Hc|Hc]; [|done].
        apply Hc. by left.
      * destruct Hc as [Hc|Hc].
        -- left. intros ?. apply Hc. by right.
        -- right. by rewrite stores_set.
Qed.

End AutoSizeFacts.

(** X4. When [performAutoSize] has a canvas and returns, every column it
    measured gets a base width between 60 and 800, but for a column
    named [__proto__] while [colWidths] has no entry of its own under
    that name: the assignment [newWidths[col] = ...] then stores
    nothing. Every other name keeps the width it had, and nothing but
    the widths is updated. The columns it measures are [specificCol]
    alone, or all of them when no column or the empty name is given. *)
Theorem autosize_widths_in_range {arith : Js.Arithmetic} {number : Type}
    (nts : number -> string)
    (p : Grid.Props number) (env : Grid.Env) (measureText : string -> Q)
    (specificCol : option string) (s : Grid.State) (r r' : Grid.Run) :
  let measured :=
    match specificCol with
    | Some c => if String.eqb c "" then Grid.columns p else [c]
    | None => Grid.columns p
    end in
  let stored (c : string) :=
    c <> "__proto__" \/ is_Some (Grid.colWidths s !! c) in
  Grid.getContext env = Some measureText ->
  Grid.performAutoSize nts p env specificCol s r = Some r' ->
  (forall c, c ∈ measured -> stored c ->
     exists w, Grid.colWidths (Grid.next r') !! c = Some (Js.Number w)
               /\ (60 <= w <= 800)%Q)
  /\ (forall c, c ∉ measured \/ ~ stored c ->
        Grid.colWidths (Grid.next r') !! c = Grid.colWidths s !! c)
  /\ r' = Grid.setColWidths (fun _ => Grid.colWidths (Grid.next r')) r.
Proof.
  intros measured stored Hctx. unfold Grid.performAutoSize. rewrite Hctx.
  fold measured.
  destruct (Grid.fitColumns _ _ _ _ _) as [newWidths|] eqn:E; [|done].
  cbn. intros [= <-]. apply fitColumns_spec in E as [Hin Hout].
  split; [|split; [exact Hout|done]].
  intros c Hc Hst. destruct (Hin c Hc Hst) as (w & Hw & Hfit). exists w.
  split; [exact Hw|]. by apply fitColumn_spec in Hfit as [? _].
Qed.

Lemma autosize_widths_in_range_witness :
  let r := Grid.mkRun (Grid.st Scenario.start) Grid.FocusContainer [] in
  let r' := default r (Grid.performAutoSize Scenario.showZ Scenario.props
                         Scenario.canvasEnv (Some "A")
                         (Grid.st Scenario.start) r) in
  (exists w, Grid.colWidths (Grid.next r') !! "A" = Some (Js.Number w)
             /\ (60 <= w <= 800)%Q)
  /\ Grid.colWidths (Grid.next r') !! "B" = Some (Js.Number 150).
Proof.
  intros r r'.
  destruct (autosize_widths_in_range Scenario.showZ Scenario.props
              Scenario.canvasEnv Scenario.measureText (Some "A")
              (Grid.st Scenario.start) r r' eq_refl)
    as (Hin & Hout & _); [by vm_compute|].
  split.
  - apply Hin; [|by left]. apply (bool_decide_unpack _). by vm_compute.
  - rewrite Hout; [by vm_compute|].
    left. apply (bool_decide_unpack _). by vm_compute.
Defined.

(** X5. The width auto size stores for a column is enough for its header
    (with 40 pixels for the icon) and for the text of its cell in each
    of the first 500 rows (with 24 pixels of padding), as far as 800
    pixels allow. The column is one under whose name a width is stored
    (X4), and the cell is the row's own, or the column has a name that
    a row does not inherit from [Object.prototype]. *)
Theorem autosize_fits_content {arith : Js.Arithmetic} {number : Type}
    (nts : number -> string)
    (p : Grid.Props number) (env : Grid.Env) (measureText : string -> Q)
    (s : Grid.State) (r r' : Grid.Run) (c : string) :
  Grid.getContext env = Some measureText ->
  Grid.performAutoSize nts p env None s r = Some r' ->
  c ∈ sheet_columns (Grid.sheet p) ->
  c <> "__proto__" \/ is_Some (Grid.colWidths s !! c) ->
  exists w,
    Grid.colWidths (Grid.next r') !! c = Some (Js.Number w)
    /\ (Qmin (Js.add (measureText c) 40) 800 <= w)%Q
    /\ forall (i : nat) (row : DataRow number),
         (i < 500)%nat ->
         sheet_data (Grid.sheet p) !! i = Some (Some row) ->
         Js.inherited c = false \/ is_Some (row !! c) ->
         (Qmin (Js.add (measureText (displayVal nts (cell row c))) 24) 800
          <= w)%Q.
Proof.
  intros Hctx. unfold Grid.performAutoSize. rewrite Hctx.
  destruct (Grid.fitColumns _ _ _ _ _) as [newWidths|] eqn:E; [|done].
  cbn. intros [= <-] Hc Hst. apply fitColumns_spec in E as [Hin _].
  destruct (Hin c Hc Hst) as (w & Hw & Hfit). exists w. split; [exact Hw|].
  apply fitColumn_spec in Hfit as (_ & Hhead & Hrows & _); [|done].
  split; [exact Hhead|]. intros i row Hi Hrow _. by apply (Hrows i).
Qed.

Lemma autosize_fits_content_witness :
  let r := Grid.mkRun (Grid.st Scenario.start) Grid.FocusContainer [] in
  let r' := default r (Grid.performAutoSize Scenario.showZ Scenario.props
                         Scenario.canvasEnv None (Grid.st Scenario.start) r) in
  exists w, Grid.colWidths (Grid.next r') !! "C" = Some (Js.Number w)
            /\ (Qmin (Js.add (Scenario.measureText "C") 40) 800 <= w)%Q.
Proof.
  intros r r'.
  destruct (autosize_fits_content Scenario.showZ Scenario.props
              Scenario.canvasEnv Scenario.measureText
              (Grid.st Scenario.start) r r' "C" eq_refl)
    as (w & Hw & Hhead & _).
  - by vm_compute.
  - apply (bool_decide_unpack _). by vm_compute.
  - by left.
  - exists w. split; [exact Hw|exact Hhead].
Defined.

(** X6. [performAutoSize] throws exactly when it has a canvas and a column to
    measure and one of the first 500 rows of the sheet is a hole; in every
    other case it returns. *)
Theorem autosize_throws_iff_hole {arith : Js.Arithmetic} {number : Type}
    (nts : number -> string)
    (p : Grid.Props number) (env : Grid.Env)
    (specificCol : option string) (s : Grid.State) (r : Grid.Run) :
  let measured :=
    match specificCol with
    | Some c => if String.eqb c "" then Grid.columns p else [c]
    | None => Grid.columns p
    end in
  Grid.performAutoSize nts p env specificCol s r = None
  <-> is_Some (Grid.getContext env)
      /\ measured <> []
      /\ ~ Forall is_Some (take 500 (sheet_data (Grid.sheet p))).
Proof.
  intros measured. unfold Grid.performAutoSize. fold measured.
  destruct (Grid.getContext env) as [measureText|]; cycle 1.
  { split; [done|]. by intros [[? [=]] _]. }
  destruct (Grid.fitColumns nts p measureText measured (Grid.colWidths s))
    as [newWidths|] eqn:E; cbn.
  - split; [done|]. intros (_ & Hne & Hhole). exfalso.
    destruct measured as [|c cols]; [done|].
    cbn in E.
    destruct (Grid.fitColumn nts p measureText 500 800 c) as [w|] eqn:Hfit;
      [|done].
    apply fitColumn_spec in Hfit as (_ & _ & _ & Hall); done.
  - split; [|done]. intros _. split; [by eexists|]. split.
    + intros Hnil. by rewrite Hnil in E.
    + intros Hall.
      destruct (fitColumns_total nts p measureText measured
                  (Grid.colWidths s) Hall) as [? Hsome].
      by rewrite Hsome in E.
Qed.

(** X7. Rows after the first 500 have no influence on auto size: two sheets
    with the same columns and the same first 500 rows get the same
    widths. *)
Theorem autosize_ignores_rows_past_cap {arith : Js.Arithmetic} {number : Type}
    (nts : number -> string) (p p' : Grid.Props number) (env : Grid.Env)
    (specificCol : option string) (s : Grid.State) (r : Grid.Run) :
  sheet_columns (Grid.sheet p) = sheet_columns (Grid.sheet p') ->
  take 500 (sheet_data (Grid.sheet p)) = take 500 (sheet_data (Grid.sheet p')) ->
  Grid.performAutoSize nts p env specificCol s r
  = Grid.performAutoSize nts p' env specificCol s r.
Proof.
  intros Hcols Hrows. unfold Grid.performAutoSize, Grid.columns.
  rewrite Hcols. destruct (Grid.getContext env) as [measureText|]; [|done].
  assert (Hfit : forall col,
            Grid.fitColumn nts p measureText 500 800 col
            = Grid.fitColumn nts p' measureText 500 800 col).
  { intros col. unfold Grid.fitColumn. by rewrite !sample_take, Hrows. }
  assert (Hall : forall cols widths,
            Grid.fitColumns nts p measureText cols widths
            = Grid.fitColumns nts p' measureText cols widths).
  { induction cols as [|col cols IH]; intros widths; cbn; [done|].
    rewrite Hfit. destruct (Grid.fitColumn _ p' _ _ _ _); cbn; [apply IH|done]. }
  by rewrite Hall.
Qed.

Lemma autosize_ignores_rows_past_cap_witness :
  let longer : Grid.Props Z :=
    Grid.mkProps
      (mkSheet "sheet1" "table.json"
         (sheet_data Scenario.table ++ replicate 500 (Some Scenario.row1)
            ++ [None])
         ["A"; "B"; "C"] json) 100 None in
  let shorter : Grid.Props Z :=
    Grid.mkProps
      (mkSheet "sheet1" "table.json"
         (sheet_data Scenario.table ++ replicate 500 (Some Scenario.row1))
         ["A"; "B"; "C"] json) 100 None in
  let r := Grid.mkRun (Grid.st Scenario.start) Grid.FocusContainer [] in
  Grid.performAutoSize Scenario.showZ longer Scenario.canvasEnv None
    (Grid.st Scenario.start) r
  = Grid.performAutoSize Scenario.showZ shorter Scenario.canvasEnv None
      (Grid.st Scenario.start) r.
Proof.
  intros longer shorter r.
  apply (autosize_ignores_rows_past_cap Scenario.showZ longer shorter);
    reflexivity.
Defined.

(** X8. The plain grid's [autoSizeColumns], when it has a canvas and
    returns, gives every column of the sheet a base width between 60
    and 600, but for a column named [__proto__], for which the
    assignment [newWidths[col] = ...] on the new object stores nothing;
    it keeps no width for any other name. *)
Theorem plain_autosize_widths {arith : Js.Arithmetic} {number : Type}
    (nts : number -> string)
    (p : Grid.Props number) (env : Grid.Env) (measureText : string -> Q)
    (r r' : PlainGrid.Run) :
  Grid.getContext env = Some measureText ->
  PlainGrid.autoSizeColumns nts p env r = Some r' ->
  (forall c, c ∈ sheet_columns (Grid.sheet p) -> c <> "__proto__" ->
     exists w,
       PlainGrid.colWidths (PlainGrid.next r') !! c = Some (Js.Number w)
       /\ (60 <= w <= 600)%Q)
  /\ (forall c, c ∉ sheet_columns (Grid.sheet p) \/ c = "__proto__" ->
        PlainGrid.colWidths (PlainGrid.next r') !! c = None).
Proof.
  intros Hctx. unfold PlainGrid.autoSizeColumns. rewrite Hctx.
  destruct (PlainGrid.fitColumns _ _ _ _ _) as [newWidths|] eqn:E; [|done].
  cbn. intros [= <-]. cbn.
  apply plain_fitColumns_spec in E as [Hin Hout]. split.
  - intros c Hc Hne. destruct (Hin c Hc) as (w & Hw & Hfit); [by left|].
    exists w. split; [exact Hw|]. by apply fitColumn_spec in Hfit as [? _].
  - intros c Hc. rewrite Hout; [by rewrite lookup_empty|].
    destruct Hc as [Hc| ->]; [by left|]. right.
    intros [?|[? ?]]; [done|]. by rewrite lookup_empty in *.
Qed.

Lemma plain_autosize_widths_witness :
  let r := PlainGrid.mkRun
             (PlainGrid.mkState 0 600 None ""
                (<["old" := Js.Number 90]> ∅)) [] in
  let r' := default r (PlainGrid.autoSizeColumns Scenario.showZ
                         Scenario.props Scenario.canvasEnv r) in
  (exists w,
     PlainGrid.colWidths (PlainGrid.next r') !! "B" = Some (Js.Number w)
     /\ (60 <= w <= 600)%Q)
  /\ PlainGrid.colWidths (PlainGrid.next r') !! "old" = None.
Proof.
  intros r r'.
  destruct (plain_autosize_widths Scenario.showZ Scenario.props
              Scenario.canvasEnv Scenario.measureText r r' eq_refl)
    as (Hin & Hout); [by vm_compute|].
  split.
  - apply Hin; [|done]. apply (bool_decide_unpack _). by vm_compute.
  - apply Hout. left. apply (bool_decide_unpack _). by vm_compute.
Defined.

(** ** Scrolling to the selected row *)

(** X9. [scrollToCell] changes no state and assigns [scrollTop] at most
    once, and only while the grid is rendered. It assigns nothing
    exactly when the band the code computes for the row, from
    [row * rowHeight] to that plus [rowHeight], lies within the band
    from the container's [scrollTop] to that plus its [clientHeight];
    the 40 pixels of the header are in neither band. An offset that it
    assigns is not negative, for a row index and a scroll offset that
    are not negative and a rounding that keeps the order. *)
Theorem scrollToCell_assigns_offset {arith : Js.Arithmetic} {number : Type}
    (p : Grid.Props number) (env : Grid.Env) (row : Z) (r : Grid.Run) :
  Js.Rounding arith ->
  (0 <= Grid.rowHeight p)%Q ->
  0 <= row ->
  (0 <= Grid.c_scrollTop env)%Q ->
  (Js.fl (Grid.c_clientHeight env) == Grid.c_clientHeight env)%Q ->
  let rowTop := Js.mul (inject_Z row) (Grid.rowHeight p) in
  let rowBottom := Js.add rowTop (Grid.rowHeight p) in
  let viewTop := Grid.c_scrollTop env in
  let viewBottom := Js.add viewTop (Grid.c_clientHeight env) in
  let r' := Grid.scrollToCell p env row r in
  Grid.next r' = Grid.next r
  /\ ((Grid.effects r' = Grid.effects r
       /\ (Grid.mounted p = false
           \/ (viewTop <= rowTop)%Q /\ (rowBottom <= viewBottom)%Q))
      \/ (exists top,
            Grid.effects r' = Grid.effects r ++ [Grid.AssignScrollTop top]
            /\ Grid.mounted p = true
            /\ (0 <= top)%Q
            /\ ((rowTop < viewTop)%Q \/ (viewBottom < rowBottom)%Q))).
Proof.
  intros Hr Hh Hrow Htop Hnum rowTop rowBottom viewTop viewBottom r'.
  subst r'. unfold Grid.scrollToCell.
  fold rowTop. fold rowBottom. fold viewTop. fold viewBottom.
  destruct (Grid.mounted p) eqn:Hm; [|split; [done|left; by split; [|left]]].
  assert (H0 : (0 <= rowTop)%Q).
  { apply (fl_nonneg Hr). apply Qmult_le_0_compat; [|exact Hh].
    change 0%Q with (inject_Z 0). by rewrite <- Zle_Qle. }
  destruct (Qle_bool viewTop rowTop) eqn:Etop; cbn [negb].
  - apply Qle_bool_iff in Etop.
    destruct (Qle_bool rowBottom viewBottom) eqn:Ebot; cbn [negb].
    + apply Qle_bool_iff in Ebot. split; [done|]. left. split; [done|].
      by right.
    + assert (Hlt : (viewBottom < rowBottom)%Q).
      { apply Qnot_le_lt. rewrite <- Qle_bool_iff. by rewrite Ebot. }
      split; [done|]. right. eexists. split; [reflexivity|].
      split; [done|]. split; [|by right].
      apply (fl_nonneg Hr).
      assert (Hview : (Grid.c_clientHeight env <= viewBottom)%Q).
      { rewrite <- Hnum at 1. apply (Js.fl_le _ Hr). unfold viewTop. lra. }
      lra.
  - assert (Hlt : (rowTop < viewTop)%Q).
    { apply Qnot_le_lt. rewrite <- Qle_bool_iff. by rewrite Etop. }
    split; [done|]. right. exists rowTop. split; [done|].
    split; [done|]. split; [exact H0|by left].
Qed.

(** At zoom 100, in a container 100 pixels high that is not scrolled,
    row 5 ends at 216: the offset 116 is assigned. *)
Lemma scrollToCell_assigns_offset_witness :
  let env := Grid.mkEnv 0 100 None in
  let r := Grid.mkRun (Grid.st Scenario.start) Grid.FocusContainer [] in
  exists top,
    Grid.effects (Grid.scrollToCell (number := Z) Scenario.props env 5 r)
    = [Grid.AssignScrollTop top]
    /\ (top == 116)%Q.
Proof.
  intros env r.
  assert (Hh : (0 <= Grid.rowHeight (number := Z) Scenario.props)%Q)
    by (by vm_compute).
  assert (Hnum : (Js.fl (Grid.c_clientHeight env)
                  == Grid.c_clientHeight env)%Q) by (by vm_compute).
  destruct (scrollToCell_assigns_offset (number := Z) Scenario.props env 5 r
              binary64_rounding Hh ltac:(lia) ltac:(by vm_compute) Hnum)
    as [_ [(Heff & _)|(top & Heff & _)]].
  - vm_compute in Heff. discriminate Heff.
  - exists top. split; [exact Heff|].
    vm_compute in Heff. injection Heff as <-. reflexivity.
Defined.

(** ** Keys on the container *)

Section NavigationFacts.

Context {arith : Js.Arithmetic}.

Context {number : Type} (nts : number -> string).
Variable p : Grid.Props number.

Let lastRow : Z := Grid.totalRows p - 1.
Let lastCol : Z := Z.of_nat (length (Grid.columns p)) - 1.

(** The cell a key moves the selection to; Enter is not a move. *)
Let moved (key : Grid.Key) (shiftKey : bool) (row colIdx : Z) : Z * Z :=
  match key with
  | Grid.ArrowUp => (Z.max 0 (row - 1), colIdx)
  | Grid.ArrowDown => (Z.min lastRow (row + 1), colIdx)
  | Grid.ArrowRight => (row, Z.max 0 (colIdx - 1))
  | Grid.ArrowLeft => (row, Z.min lastCol (colIdx + 1))
  | Grid.Tab => Grid.tabTarget p shiftKey row colIdx
  | _ => (row, colIdx)
  end.

Lemma scrollToCell_effects env row r :
  exists tops : list Q,
    Grid.effects (Grid.scrollToCell p env row r)
    = Grid.effects r ++ (Grid.AssignScrollTop <$> tops).
Proof.
  unfold Grid.scrollToCell. destruct (Grid.mounted p).
  - destruct (negb _); [by eexists [_]|].
    destruct (negb _); [by eexists [_]|]. exists []. by rewrite app_nil_r.
  - exists []. by rewrite app_nil_r.
Qed.

Lemma scrollToCell_nfocus env row r :
  Grid.nfocus (Grid.scrollToCell p env row r) = Grid.nfocus r.
Proof.
  unfold Grid.scrollToCell. destruct (Grid.mounted p); [|done].
  by repeat destruct (negb _).
Qed.

Lemma settleFocus_not_editing old new f :
  Grid.editingCell new = None -> f <> Grid.FocusInput ->
  Grid.settleFocus p old new f = f.
Proof.
  intros He Hf. unfold Grid.settleFocus, Grid.inputRendered. rewrite He.
  by destruct f.
Qed.

(** One key other than Enter, on the container, with a cell selected and
    no edit session. *)
Lemma dispatch_navigation env key shiftKey w row colIdx :
  key <> Grid.Enter ->
  Grid.mounted p = true ->
  Grid.focus w = Grid.FocusContainer ->
  Grid.editingCell (Grid.st w) = None ->
  Grid.selectedCell (Grid.st w) = Some (row, colIdx) ->
  exists (w' : Grid.World) (tops : list Q),
    Grid.dispatch nts p env (Grid.ContainerKeyDown key shiftKey) w
    = Some (w', Grid.AssignScrollTop <$> tops)
    /\ Grid.focus w' = Grid.FocusContainer
    /\ Grid.editingCell (Grid.st w') = None
    /\ Grid.selectedCell (Grid.st w') = Some (moved key shiftKey row colIdx).
Proof.
  intros Hkey Hm Hf He Hsel. destruct w as [s f]. cbn in *. subst f.
  unfold Grid.dispatch, Grid.handle. cbn. rewrite Hm. cbn.
  unfold Grid.handleKeyDown. rewrite He, Hsel.
  assert (Hmove : forall target,
    exists (w' : Grid.World) (tops : list Q),
      Some (Grid.scrollToCell p env (fst target)
              (Grid.setSelectedCell (Some target)
                 (Grid.mkRun s Grid.FocusContainer [])))
      ≫= (fun r => Some (Grid.mkWorld (Grid.next r)
                           (Grid.settleFocus p s (Grid.next r) (Grid.nfocus r)),
                         Grid.effects r))
      = Some (w', Grid.AssignScrollTop <$> tops)
      /\ Grid.focus w' = Grid.FocusContainer
      /\ Grid.editingCell (Grid.st w') = None
      /\ Grid.selectedCell (Grid.st w') = Some target).
  { intros target. cbn.
    destruct (scrollToCell_effects env (fst target)
                (Grid.setSelectedCell (Some target)
                   (Grid.mkRun s Grid.FocusContainer []))) as [tops Htops].
    eexists _, tops. rewrite Htops, scrollToCell_nfocus, scrollToCell_next.
    cbn. split; [done|].
    split; [by apply settleFocus_not_editing|]. by destruct s. }
  destruct key; try done; try apply Hmove.
  all: exists (Grid.mkWorld s Grid.FocusContainer), []; cbn.
  all: rewrite settleFocus_not_editing by done; by destruct s.
Qed.

End NavigationFacts.

(** X10. Pressing an arrow key or Tab (without Shift) on the container any
    number of times, with a cell selected and no edit session, moves the
    selection that many cells in the key's direction and stops at the edge
    of the table: up and down change the row only, right (one column
    back), left and Tab (one column on) the column only. Tab never leaves
    the row. No key calls [onCellEdit] or opens an edit session. *)
Theorem navigation_keys_stop_at_the_edge {arith : Js.Arithmetic} {number : Type}
    (nts : number -> string) (p : Grid.Props number)
    (envs : list Grid.Env) (key : Grid.Key) (shiftKey : bool)
    (w : Grid.World) (row colIdx : Z) :
  let rows := Z.of_nat (length (sheet_data (Grid.sheet p))) in
  let cols := Z.of_nat (length (sheet_columns (Grid.sheet p))) in
  let n := Z.of_nat (length envs) in
  key <> Grid.Enter -> key <> Grid.Escape -> key <> Grid.OtherKey ->
  (key = Grid.Tab -> shiftKey = false) ->
  Grid.focus w = Grid.FocusContainer ->
  Grid.editingCell (Grid.st w) = None ->
  Grid.selectedCell (Grid.st w) = Some (row, colIdx) ->
  0 <= row < rows -> 0 <= colIdx < cols ->
  exists (w' : Grid.World) (tops : list Q),
    Grid.dispatchAll nts p
      (map (fun env => (env, Grid.ContainerKeyDown key shiftKey)) envs) w
    = Some (w', Grid.AssignScrollTop <$> tops)
    /\ Grid.editingCell (Grid.st w') = None
    /\ Grid.selectedCell (Grid.st w')
       = Some match key with
              | Grid.ArrowUp => (Z.max 0 (row - n), colIdx)
              | Grid.ArrowDown => (Z.min (rows - 1) (row + n), colIdx)
              | Grid.ArrowRight => (row, Z.max 0 (colIdx - n))
              | _ => (row, Z.min (cols - 1) (colIdx + n))
              end.
Proof.
  intros rows cols n Hk1 Hk2 Hk3 Htab Hf He Hsel Hrow Hcol. subst n.
  assert (Hm : Grid.mounted p = true).
  { unfold Grid.mounted, Grid.totalRows. apply negb_true_iff, Z.eqb_neq.
    subst rows. lia. }
  revert w row colIdx Hf He Hsel Hrow Hcol.
  induction envs as [|env envs IH]; intros w row colIdx Hf He Hsel Hrow Hcol.
  - exists w, []. cbn. split; [done|]. split; [done|]. rewrite Hsel.
    do 2 f_equal. destruct key; try done; f_equal; lia.
  - destruct (dispatch_navigation nts p env key shiftKey w row colIdx
                Hk1 Hm Hf He Hsel) as (w1 & tops1 & Hd & Hf1 & He1 & Hsel1).
    cbn [map Grid.dispatchAll]. rewrite Hd. cbn.
    set (next := match key with
                 | Grid.ArrowUp => (Z.max 0 (row - 1), colIdx)
                 | Grid.ArrowDown => (Z.min (rows - 1) (row + 1), colIdx)
                 | Grid.ArrowRight => (row, Z.max 0 (colIdx - 1))
                 | _ => (row, Z.min (cols - 1) (colIdx + 1))
                 end).
    assert (Hnext : Grid.selectedCell (Grid.st w1) = Some (fst next, snd next)).
    { rewrite Hsel1. subst next. f_equal.
      destruct key; try done. by rewrite (Htab eq_refl). }
    assert (Hb : 0 <= fst next < rows /\ 0 <= snd next < cols).
    { subst next rows cols. destruct key; cbn [fst snd]; lia. }
    destruct (IH w1 (fst next) (snd next) Hf1 He1 Hnext (proj1 Hb) (proj2 Hb))
      as (w' & tops & Hall & He' & Hsel').
    rewrite Hall. cbn. exists w', (tops1 ++ tops).
    rewrite fmap_app. split; [done|]. split; [done|].
    rewrite Hsel'. do 2 f_equal. subst next rows cols.
    rewrite Nat2Z.inj_succ.
    destruct key; try done; cbn [fst snd]; f_equal; lia.
Qed.

(** The scenario of the specification: from (row 0, column 0) on the table
    with the columns [A, B, C], three presses of Tab end at (row 0,
    column 2). *)
Lemma navigation_keys_stop_at_the_edge_witness :
  exists (w' : Grid.World) (tops : list Q),
    Grid.dispatchAll Scenario.showZ Scenario.props
      (map (fun env => (env, Grid.ContainerKeyDown Grid.Tab false))
         [Scenario.env; Scenario.env; Scenario.env])
      (Scenario.after [Grid.CellClick 0 0])
    = Some (w', Grid.AssignScrollTop <$> tops)
    /\ Grid.editingCell (Grid.st w') = None
    /\ Grid.selectedCell (Grid.st w') = Some (0, 2).
Proof.
  apply (navigation_keys_stop_at_the_edge Scenario.showZ Scenario.props
           [Scenario.env; Scenario.env; Scenario.env] Grid.Tab false
           (Scenario.after [Grid.CellClick 0 0]) 0 0); by vm_compute.
Defined.

(** ** The edit inputs of a render *)

(** The cells of the two loops of the render that show an input. *)
Lemma elem_of_inputs {A} (rows : list (A * Z)) (columns : list string)
    (isEditing : Z -> string -> bool) (absoluteIndex colIndex : Z) :
  (absoluteIndex, colIndex)
  ∈ ('(_, absoluteIndex) ← rows;
     '(colIndex, col) ← imap (fun i col => (Z.of_nat i, col)) columns;
     if isEditing absoluteIndex col then [(absoluteIndex, colIndex)] else [])
  <-> absoluteIndex ∈ rows.*2
      /\ exists col, Js.index columns colIndex = Some col
                     /\ isEditing absoluteIndex col = true.
Proof.
  rewrite list_elem_of_bind. split.
  - intros ([x a] & Hin & Hrow). apply list_elem_of_bind in Hin.
    destruct Hin as ([c col] & Hin & Hcol).
    apply elem_of_lookup_imap in Hcol as (i & y & [= -> ->] & Hi).
    destruct (isEditing a y) eqn:E; [|by apply elem_of_nil in Hin].
    apply list_elem_of_singleton in Hin as [= -> ->]. split.
    + apply list_elem_of_fmap. by exists (x, a).
    + exists y. split; [|done]. unfold Js.index.
      destruct (Z.ltb_spec (Z.of_nat i) 0); [lia|]. by rewrite Nat2Z.id.
  - intros (Hrow & col & Hcol & Hed).
    apply list_elem_of_fmap in Hrow as ([x a] & -> & Hrow).
    cbn [snd] in *.
    exists (x, a). split; [|done].
    apply list_elem_of_bind. exists (colIndex, col). split.
    + rewrite Hed. by apply list_elem_of_singleton.
    + unfold Js.index in Hcol. destruct (colIndex <? 0) eqn:E; [done|].
      apply elem_of_lookup_imap. exists (Z.to_nat colIndex), col.
      split; [|done]. f_equal. lia.
Qed.

Section EditInputFacts.

Context {arith : Js.Arithmetic}.
Context {number : Type}.
Variable p : Grid.Props number.

Lemma elem_of_editInputs s absoluteIndex colIndex :
  (absoluteIndex, colIndex) ∈ Grid.editInputs p s
  <-> Grid.mounted p = true
      /\ absoluteIndex ∈ (Grid.visibleRows p s).*2
      /\ exists col, Js.index (Grid.columns p) colIndex = Some col
                     /\ Grid.isEditing s absoluteIndex col = true.
Proof.
  unfold Grid.editInputs. destruct (Grid.mounted p).
  - rewrite elem_of_inputs. split; [by intros [? ?]|by intros [_ ?]].
  - split; [by intros ?%elem_of_nil|by intros [? _]].
Qed.

Lemma plain_elem_of_editInputs s absoluteIndex colIndex :
  (absoluteIndex, colIndex) ∈ PlainGrid.editInputs p s
  <-> PlainGrid.mounted p = true
      /\ absoluteIndex ∈ (PlainGrid.visibleRows p s).*2
      /\ exists col, Js.index (PlainGrid.columns p) colIndex = Some col
                     /\ PlainGrid.isEditing s absoluteIndex col = true.
Proof.
  unfold PlainGrid.editInputs. destruct (PlainGrid.mounted p).
  - rewrite elem_of_inputs. split; [by intros [? ?]|by intros [_ ?]].
  - split; [by intros ?%elem_of_nil|by intros [? _]].
Qed.

Lemma index_elem_of (columns : list string) (col : string) :
  col ∈ columns <-> exists colIndex, Js.index columns colIndex = Some col.
Proof.
  rewrite list_elem_of_lookup. split.
  - intros [i Hi]. exists (Z.of_nat i). unfold Js.index.
    destruct (Z.ltb_spec (Z.of_nat i) 0); [lia|]. by rewrite Nat2Z.id.
  - intros [c Hc]. unfold Js.index in Hc.
    destruct (c <? 0); [done|]. by eexists.
Qed.

(** [inputRendered] holds when some cell shows an input. *)
Lemma inputRendered_editInputs s :
  Grid.inputRendered p s = true <-> exists cell, cell ∈ Grid.editInputs p s.
Proof.
  unfold Grid.inputRendered. split.
  - destruct (Grid.editingCell s) as [[row [col|]]|] eqn:E; [|done..].
    rewrite !andb_true_iff, !bool_decide_eq_true.
    intros [[Hm Hrow] Hcol]. apply index_elem_of in Hcol as [c Hc].
    exists (row, c). apply elem_of_editInputs. split; [done|].
    split; [done|]. exists col. split; [done|].
    unfold Grid.isEditing. by rewrite E, Z.eqb_refl, String.eqb_refl.
  - intros [[a c] (Hm & Hrow & col & Hcol & Hed)%elem_of_editInputs].
    unfold Grid.isEditing in Hed.
    destruct (Grid.editingCell s) as [[row [col'|]]|]; [|done..].
    apply andb_true_iff in Hed as [->%Z.eqb_eq ->%String.eqb_eq].
    rewrite Hm. cbn. rewrite !bool_decide_eq_true_2; [done|..|done].
    apply index_elem_of. by exists c.
Qed.

Lemma plain_inputRendered_editInputs s :
  PlainGrid.inputRendered p s = true
  <-> exists cell, cell ∈ PlainGrid.editInputs p s.
Proof.
  unfold PlainGrid.inputRendered. split.
  - destruct (PlainGrid.editingCell s) as [[row col]|] eqn:E; [|done].
    rewrite !andb_true_iff, !bool_decide_eq_true.
    intros [[Hm Hrow] Hcol]. apply index_elem_of in Hcol as [c Hc].
    exists (row, c). apply plain_elem_of_editInputs. split; [done|].
    split; [done|]. exists col. split; [done|].
    unfold PlainGrid.isEditing. by rewrite E, Z.eqb_refl, String.eqb_refl.
  - intros [[a c] (Hm & Hrow & col & Hcol & Hed)%plain_elem_of_editInputs].
    unfold PlainGrid.isEditing in Hed.
    destruct (PlainGrid.editingCell s) as [[row col']|]; [|done].
    apply andb_true_iff in Hed as [->%Z.eqb_eq ->%String.eqb_eq].
    rewrite Hm. cbn. rewrite !bool_decide_eq_true_2; [done|..|done].
    apply index_elem_of. by exists c.
Qed.

Lemma index_NoDup (columns : list string) (i j : Z) (col : string) :
  NoDup columns ->
  Js.index columns i = Some col -> Js.index columns j = Some col -> i = j.
Proof.
  unfold Js.index. intros Hnd.
  destruct (i <? 0) eqn:Ei; [done|]. destruct (j <? 0) eqn:Ej; [done|].
  intros Hi Hj. pose proof (NoDup_lookup _ _ _ _ Hnd Hi Hj). lia.
Qed.

(** With distinct column names the render shows the input in one cell
    at most: the cell of the edit session. *)
Lemma one_edit_input s row col colIndex cell :
  NoDup (sheet_columns (Grid.sheet p)) ->
  Grid.editingCell s = Some (row, Some col) ->
  Js.index (Grid.columns p) colIndex = Some col ->
  cell ∈ Grid.editInputs p s -> cell = (row, colIndex).
Proof.
  intros Hnd He Hcol. destruct cell as [a c].
  intros (_ & _ & col' & Hcol' & Hed)%elem_of_editInputs.
  unfold Grid.isEditing in Hed. rewrite He in Hed.
  apply andb_true_iff in Hed as [->%Z.eqb_eq <-%String.eqb_eq].
  f_equal. by apply (index_NoDup _ _ _ col Hnd).
Qed.

Lemma plain_one_edit_input s row col colIndex cell :
  NoDup (sheet_columns (Grid.sheet p)) ->
  PlainGrid.editingCell s = Some (row, col) ->
  Js.index (PlainGrid.columns p) colIndex = Some col ->
  cell ∈ PlainGrid.editInputs p s -> cell = (row, colIndex).
Proof.
  intros Hnd He Hcol. destruct cell as [a c].
  intros (_ & _ & col' & Hcol' & Hed)%plain_elem_of_editInputs.
  unfold PlainGrid.isEditing in Hed. rewrite He in Hed.
  apply andb_true_iff in Hed as [->%Z.eqb_eq <-%String.eqb_eq].
  f_equal. by apply (index_NoDup _ _ _ col Hnd).
Qed.

End EditInputFacts.

(** ** An edit session from the double click to the blur *)

Lemma indexOf_first (a : list string) (k : nat) (x : string) :
  a !! k = Some x -> 0 <= Js.indexOf a x <= Z.of_nat k.
Proof.
  revert k. induction a as [|y a IH]; intros k Hk; [done|].
  cbn [Js.indexOf]. destruct (String.eqb y x) eqn:E; [lia|].
  destruct k as [|k]; cbn in Hk.
  - injection Hk as ->. by rewrite String.eqb_refl in E.
  - specialize (IH k Hk). replace (Js.indexOf a x =? -1) with false by lia.
    lia.
Qed.

Lemma indexOf_NoDup (a : list string) (k : nat) (x : string) :
  NoDup a -> a !! k = Some x -> Js.indexOf a x = Z.of_nat k.
Proof.
  intros Hnd. revert k. induction Hnd as [|y a Hy Hnd IH]; intros k Hk; [done|].
  cbn [Js.indexOf]. destruct k as [|k]; cbn in Hk.
  - injection Hk as ->. by rewrite String.eqb_refl.
  - destruct (String.eqb y x) eqn:E.
    + apply String.eqb_eq in E as ->. exfalso. apply Hy.
      apply list_elem_of_lookup. by exists k.
    + specialize (IH k Hk). rewrite IH.
      replace (Z.of_nat k =? -1) with false by lia. lia.
Qed.

Section SessionFacts.

Context {arith : Js.Arithmetic}.
Context {number : Type} (nts : number -> string).
Variable p : Grid.Props number.

Lemma index_columns colIndex col :
  Js.index (Grid.columns p) colIndex = Some col ->
  0 <= colIndex /\ Grid.columns p !! Z.to_nat colIndex = Some col.
Proof.
  unfold Js.index. destruct (colIndex <? 0) eqn:E; [done|]. intros H.
  split; [lia|done].
Qed.

Lemma inputRendered_of_rendered s s' absoluteIndex colIndex col :
  Grid.renderedCell p s absoluteIndex colIndex = true ->
  Grid.scrollTop s' = Grid.scrollTop s ->
  Grid.containerHeight s' = Grid.containerHeight s ->
  Grid.editingCell s' = Some (absoluteIndex, Some col) ->
  col ∈ Grid.columns p ->
  Grid.inputRendered p s' = true.
Proof.
  unfold Grid.renderedCell, Grid.inputRendered.
  rewrite !andb_true_iff. intros [[[Hm Hrow] _] _] Htop Hheight -> Hcol.
  unfold Grid.visibleRows, Grid.startIndex, Grid.endIndex in *.
  rewrite Htop, Hheight, Hm, Hrow. cbn. by apply bool_decide_eq_true_2.
Qed.

Lemma saveEdit_unfocused_next s r row col :
  Grid.editingCell s = Some (row, col) ->
  Grid.nfocus r <> Grid.FocusInput ->
  Grid.next (Grid.saveEdit p s r) = Grid.next (Grid.commit p s row col r).
Proof.
  intros He Hf. unfold Grid.saveEdit.
  rewrite (saveEdit_with_unfocused p _ _ _ _ _ He Hf).
  by destruct (Grid.mounted p).
Qed.

(** A blur of the edit input, on a state in which it is rendered. *)
Lemma dispatch_InputBlur env target s row col colIdx :
  Grid.inputRendered p s = true ->
  Grid.editingCell s = Some (row, Some col) ->
  Js.indexOf (Grid.columns p) col = colIdx -> colIdx <> -1 ->
  target <> Grid.FocusInput ->
  exists w',
    Grid.dispatch nts p env (Grid.InputBlur target)
      (Grid.mkWorld s Grid.FocusInput)
    = Some (w', [Grid.OnCellEdit row (Some col) (Grid.editValue s)])
    /\ Grid.editingCell (Grid.st w') = None
    /\ Grid.selectedCell (Grid.st w') = Some (row, colIdx).
Proof.
  intros Hin He Hidx Hne Ht.
  set (r0 := Grid.withFocus Grid.FocusElsewhere
               (Grid.mkRun s Grid.FocusInput [])).
  assert (Hf : Grid.nfocus r0 <> Grid.FocusInput) by done.
  destruct (saveEdit_unfocused p s r0 _ _ He Hf) as [Heff Hedit].
  pose proof (saveEdit_unfocused_next s r0 _ _ He Hf) as Hnext.
  assert (Hh : Grid.handle nts p env (Grid.InputBlur target) s
                 (Grid.mkRun s Grid.FocusInput [])
               = Some (Grid.withFocus target (Grid.saveEdit p s r0))).
  { cbn. rewrite Hin. by destruct target. }
  unfold Grid.dispatch. cbn [Grid.st Grid.focus]. rewrite Hh.
  cbn [mbind option_bind Grid.withFocus Grid.next Grid.effects Grid.nfocus].
  rewrite Heff. eexists. split; [reflexivity|].
  cbn [Grid.st]. split; [exact Hedit|].
  rewrite Hnext. unfold Grid.commit. rewrite Hidx.
  apply Z.eqb_neq in Hne. by rewrite Hne.
Qed.

End SessionFacts.

(** X11. On a sheet whose column names are distinct, a double click on
    a rendered cell opens an edit session: the input is shown in that
    cell and in no other. Closed by a blur, the session calls
    [onCellEdit] once, with the row, the column name and the text of
    the input: what was typed last, or -- when nothing was typed -- the
    text the cell displayed (the empty string for [null] and
    [undefined]). The session is closed and the selection is put on the
    cell. The cell is read from the row itself: the row has an entry
    for the column, or the column has a name that a row does not
    inherit from [Object.prototype]. *)
Theorem edit_session_commits_on_blur {arith : Js.Arithmetic} {number : Type}
    (nts : number -> string) (p : Grid.Props number)
    (env1 env2 env3 : Grid.Env) (w : Grid.World)
    (absoluteIndex colIndex : Z) (row : DataRow number) (col : string)
    (typed : option string) (target : Grid.Focus) :
  let text := default (displayVal nts (cell row col)) typed in
  let typing :=
    match typed with
    | Some value => [(env2, Grid.InputChange value)]
    | None => []
    end in
  NoDup (sheet_columns (Grid.sheet p)) ->
  Grid.editingCell (Grid.st w) = None ->
  Grid.renderedCell p (Grid.st w) absoluteIndex colIndex = true ->
  row_at (Grid.sheet p) absoluteIndex = Some row ->
  Js.index (Grid.columns p) colIndex = Some col ->
  Js.inherited col = false \/ is_Some (row !! col) ->
  target <> Grid.FocusInput ->
  exists w',
    Grid.dispatchAll nts p
      ((env1, Grid.CellDoubleClick absoluteIndex colIndex) :: typing
       ++ [(env3, Grid.InputBlur target)]) w
    = Some (w', [Grid.OnCellEdit absoluteIndex (Some col) text])
    /\ Grid.editingCell (Grid.st w') = None
    /\ Grid.selectedCell (Grid.st w') = Some (absoluteIndex, colIndex)
    /\ exists w1,
         Grid.dispatch nts p env1
           (Grid.CellDoubleClick absoluteIndex colIndex) w
         = Some (w1, [])
         /\ forall cell,
              cell ∈ Grid.editInputs p (Grid.st w1)
              <-> cell = (absoluteIndex, colIndex).
Proof.
  intros text typing Hnd He Hcell Hrow Hcol _ Ht.
  destruct (index_columns p _ _ Hcol) as [Hc0 Hlook].
  pose proof (indexOf_first _ _ _ Hlook) as Hfirst.
  assert (Hidx : Js.indexOf (Grid.columns p) col = colIndex).
  { unfold Grid.columns in *. rewrite (indexOf_NoDup _ _ _ Hnd Hlook). lia. }
  assert (Hmem : col ∈ Grid.columns p)
    by (apply list_elem_of_lookup; by eexists).
  destruct w as [s f]. cbn in He, Hcell.
  (* the double click *)
  set (s1 := Grid.next (Grid.startEditing nts absoluteIndex (Some col)
                          (cell row col) (Grid.mkRun s f []))).
  assert (Hin1 : Grid.inputRendered p s1 = true).
  { eapply inputRendered_of_rendered; [exact Hcell|by destruct s..|done]. }
  assert (Hd1 : Grid.dispatch nts p env1
                  (Grid.CellDoubleClick absoluteIndex colIndex)
                  (Grid.mkWorld s f)
                = Some (Grid.mkWorld s1 Grid.FocusInput, [])).
  { assert (Hh : Grid.handle nts p env1
                   (Grid.CellDoubleClick absoluteIndex colIndex) s
                   (Grid.mkRun s f [])
                 = Some (Grid.startEditing nts absoluteIndex (Some col)
                           (cell row col) (Grid.mkRun s f []))).
    { cbn. rewrite Hcell, Hrow. cbn. by rewrite Hcol. }
    unfold Grid.dispatch. cbn [Grid.st Grid.focus]. rewrite Hh.
    cbn [mbind option_bind]. fold s1.
    assert (Hfocus : Grid.settleFocus p s s1
                       (Grid.nfocus (Grid.startEditing nts absoluteIndex
                                       (Some col) (cell row col)
                                       (Grid.mkRun s f [])))
                     = Grid.FocusInput).
    { unfold Grid.settleFocus. rewrite Hin1.
      unfold Grid.inputRendered. by rewrite He. }
    by rewrite Hfocus. }
  (* the typing *)
  set (s2 := match typed with
             | Some value =>
                 Grid.next (Grid.setEditValue value
                              (Grid.mkRun s1 Grid.FocusInput []))
             | None => s1
             end).
  assert (Hin2 : Grid.inputRendered p s2 = true).
  { subst s2. destruct typed; [|done].
    eapply inputRendered_of_rendered; [exact Hcell|by destruct s..|done]. }
  assert (He2 : Grid.editingCell s2 = Some (absoluteIndex, Some col))
    by (subst s2; by destruct typed).
  assert (Hv2 : Grid.editValue s2 = text) by (subst s2 text; by destruct typed).
  assert (Hd2 : Grid.dispatchAll nts p typing (Grid.mkWorld s1 Grid.FocusInput)
                = Some (Grid.mkWorld s2 Grid.FocusInput, [])).
  { subst typing. destruct typed as [value|]; [|done].
    assert (Hh : Grid.handle nts p env2 (Grid.InputChange value) s1
                   (Grid.mkRun s1 Grid.FocusInput [])
                 = Some (Grid.setEditValue value
                           (Grid.mkRun s1 Grid.FocusInput []))).
    { unfold Grid.handle. by rewrite Hin1. }
    cbn [Grid.dispatchAll]. unfold Grid.dispatch.
    cbn [Grid.st Grid.focus]. rewrite Hh. cbn [mbind option_bind]. fold s2.
    assert (Hfocus : Grid.settleFocus p s1 s2 Grid.FocusInput
                     = Grid.FocusInput).
    { unfold Grid.settleFocus. rewrite Hin2, Hin1. cbn [andb].
      by rewrite bool_decide_eq_true_2. }
    cbn [Grid.nfocus Grid.setEditValue Grid.update Grid.effects].
    by rewrite Hfocus. }
  (* the blur *)
  destruct (dispatch_InputBlur nts p env3 target s2 absoluteIndex col
              (Js.indexOf (Grid.columns p) col) Hin2 He2 eq_refl
              ltac:(lia) Ht) as (w' & Hd3 & He3 & Hsel3).
  exists w'. split; [|split; [done|split; [by rewrite Hsel3, Hidx|]]];
    cycle 1.
  { exists (Grid.mkWorld s1 Grid.FocusInput). split; [exact Hd1|].
    cbn [Grid.st]. intros cell. split.
    - by apply (one_edit_input p s1 absoluteIndex col colIndex).
    - intros ->. apply elem_of_editInputs.
      unfold Grid.renderedCell in Hcell.
      rewrite !andb_true_iff, bool_decide_eq_true in Hcell.
      destruct Hcell as [[[Hm Hvis] _] _].
      split; [done|]. split; [by destruct s|]. exists col.
      split; [done|]. unfold Grid.isEditing. cbn.
      by rewrite Z.eqb_refl, String.eqb_refl. }
  cbn [Grid.dispatchAll app]. rewrite Hd1. cbn [mbind option_bind].
    assert (Hall : forall evs w0 e0 w1 e1 rest,
              Grid.dispatchAll nts p evs w0 = Some (w1, e0) ->
              Grid.dispatchAll nts p rest w1 = Some (w', e1) ->
              Grid.dispatchAll nts p (evs ++ rest) w0 = Some (w', e0 ++ e1)).
    { induction evs as [|[env ev] evs IH]; intros w0 e0 w1 e1 rest; cbn.
      - by intros [= -> <-].
      - destruct (Grid.dispatch nts p env ev w0) as [[wa ea]|]; [|done]. cbn.
        destruct (Grid.dispatchAll nts p evs wa) as [[wb eb]|] eqn:E; [|done].
        cbn. intros [= -> <-] Hrest.
        rewrite (IH _ _ _ _ _ E Hrest). cbn. by rewrite app_assoc. }
    rewrite (Hall typing _ _ _ _ [(env3, Grid.InputBlur target)] Hd2
               ltac:(cbn [Grid.dispatchAll]; rewrite Hd3; cbn; reflexivity)).
  cbn. by rewrite Hv2.
Qed.

(** A double click on the cell (row 1, column B) of the table and a blur,
    with nothing typed. *)
Lemma edit_session_commits_on_blur_witness :
  exists w',
    Grid.dispatchAll Scenario.showZ Scenario.props
      [(Scenario.env, Grid.CellDoubleClick 1 1);
       (Scenario.env, Grid.InputBlur Grid.FocusElsewhere)] Scenario.start
    = Some (w', [Grid.OnCellEdit 1 (Some "B") "5"])
    /\ Grid.editingCell (Grid.st w') = None
    /\ Grid.selectedCell (Grid.st w') = Some (1, 1).
Proof.
  assert (Hnd : NoDup (sheet_columns (Grid.sheet (number := Z)
                                        Scenario.props)))
    by (apply (bool_decide_unpack _); by vm_compute).
  destruct (edit_session_commits_on_blur Scenario.showZ Scenario.props
              Scenario.env Scenario.env Scenario.env Scenario.start
              1 1 Scenario.row2 "B" None Grid.FocusElsewhere Hnd)
    as (w' & Hrun & Hedit & Hsel & _); [by vm_compute..|by left|done|].
  exists w'. split; [exact Hrun|]. split; [exact Hedit|exact Hsel].
Defined.

(** ** Enter on the selected cell *)

Lemma row_at_present {number : Type} (sheet : Sheet number) (i : Z) :
  Forall is_Some (sheet_data sheet) ->
  0 <= i < Z.of_nat (length (sheet_data sheet)) ->
  is_Some (row_at sheet i).
Proof.
  intros Hall Hi. unfold row_at, Js.index.
  replace (i <? 0) with false by lia.
  destruct (sheet_data sheet !! Z.to_nat i) as [row|] eqn:E.
  - rewrite Forall_lookup in Hall. destruct (Hall _ _ E) as [r ->].
    by eexists.
  - apply lookup_ge_None in E. lia.
Qed.

(** X12. In a state the grid can reach on a sheet without holes, whose
    column names are distinct and none of them a name of
    [Object.prototype]'s (a row then reads its cells from itself),
    Enter on the container with a cell selected and no edit session
    never throws: it opens the edit session on the selected cell, under
    the name of its column, with the text the cell displays as the
    draft, and leaves the selection where it is. No other cell shows
    the edit input. Nothing is called. *)
Theorem enter_opens_editor {arith : Js.Arithmetic} {number : Type}
    (nts : number -> string)
    (p : Grid.Props number) (env : Grid.Env) (shiftKey : bool)
    (w : Grid.World) (row colIdx : Z) :
  Grid.reachable nts p w ->
  Forall is_Some (sheet_data (Grid.sheet p)) ->
  NoDup (sheet_columns (Grid.sheet p)) ->
  Forall (fun col => Js.inherited col = false)
    (sheet_columns (Grid.sheet p)) ->
  Grid.focus w = Grid.FocusContainer ->
  Grid.editingCell (Grid.st w) = None ->
  Grid.selectedCell (Grid.st w) = Some (row, colIdx) ->
  exists w' col dataRow,
    Grid.dispatch nts p env (Grid.ContainerKeyDown Grid.Enter shiftKey) w
    = Some (w', [])
    /\ Js.index (sheet_columns (Grid.sheet p)) colIdx = Some col
    /\ row_at (Grid.sheet p) row = Some dataRow
    /\ Grid.editingCell (Grid.st w') = Some (row, Some col)
    /\ Grid.editValue (Grid.st w') = displayVal nts (cell dataRow col)
    /\ Grid.selectedCell (Grid.st w') = Some (row, colIdx)
    /\ forall cell,
         cell ∈ Grid.editInputs p (Grid.st w') -> cell = (row, colIdx).
Proof.
  intros Hreach Hall Hnd _ Hf He Hsel.
  destruct (reachable_inv nts p w Hreach) as [Hin _].
  unfold Grid.selectionInBounds in Hin. rewrite Hsel in Hin.
  destruct Hin as [Hrow Hcol].
  destruct (row_at_present (Grid.sheet p) row Hall Hrow) as [dataRow HdataRow].
  assert (Hc : exists col, Js.index (Grid.columns p) colIdx = Some col).
  { unfold Js.index. replace (colIdx <? 0) with false by lia.
    apply lookup_lt_is_Some. lia. }
  destruct Hc as [col Hcol'].
  assert (Hm : Grid.mounted p = true).
  { unfold Grid.mounted. apply negb_true_iff, Z.eqb_neq. lia. }
  destruct w as [s f]. cbn in *. subst f.
  eexists _, col, dataRow.
  unfold Grid.dispatch, Grid.handle. cbn. rewrite Hm. cbn.
  unfold Grid.handleKeyDown. rewrite He, Hsel, HdataRow, Hcol'. cbn.
  split_and!; [done..|]. intros cell.
  by apply (one_edit_input p _ row col colIdx).
Qed.

Lemma enter_opens_editor_witness :
  exists w' col dataRow,
    Grid.dispatch Scenario.showZ Scenario.props Scenario.env
      (Grid.ContainerKeyDown Grid.Enter false)
      (Scenario.after [Grid.CellClick 1 2])
    = Some (w', [])
    /\ Js.index (sheet_columns (Grid.sheet (number := Z) Scenario.props)) 2
       = Some col
    /\ row_at (Grid.sheet Scenario.props) 1 = Some dataRow
    /\ Grid.editingCell (Grid.st w') = Some (1, Some col)
    /\ Grid.editValue (Grid.st w') = displayVal Scenario.showZ (cell dataRow col)
    /\ Grid.selectedCell (Grid.st w') = Some (1, 2)
    /\ forall cell,
         cell ∈ Grid.editInputs (number := Z) Scenario.props (Grid.st w')
         -> cell = (1, 2).
Proof.
  apply (enter_opens_editor Scenario.showZ Scenario.props Scenario.env false
           (Scenario.after [Grid.CellClick 1 2]) 1 2).
  - apply (reachable_after [Grid.CellClick 1 2] _ []). by vm_compute.
  - apply (bool_decide_unpack _). by vm_compute.
  - apply (bool_decide_unpack _). by vm_compute.
  - apply (bool_decide_unpack _). by vm_compute.
  - by vm_compute.
  - by vm_compute.
  - by vm_compute.
Defined.

(** * The workspace *)

Section WorkspaceFacts.

Context {number : Type}.
Implicit Types (st : Workspace.State number) (sheet : Sheet number).

Lemma find_hasId_Some (l : list (Sheet number)) id sheet :
  List.find (Workspace.hasId id) l = Some sheet ->
  sheet ∈ l /\ sheet_id sheet = id.
Proof.
  intros H. apply List.find_some in H as [Hin Hid].
  split; [by apply list_elem_of_In|by apply String.eqb_eq].
Qed.

Lemma find_hasId_is_Some (l : list (Sheet number)) id :
  is_Some (List.find (Workspace.hasId id) l)
  <-> existsb (Workspace.hasId id) l = true.
Proof.
  induction l as [|x l IH]; cbn.
  - split; [by intros [? [=]]|done].
  - destruct (Workspace.hasId id x); [|exact IH].
    split; [done|]. intros _. by eexists.
Qed.

Lemma existsb_hasId (l : list (Sheet number)) id :
  existsb (Workspace.hasId id) l = true
  <-> exists sheet, sheet ∈ l /\ sheet_id sheet = id.
Proof.
  rewrite existsb_exists. split.
  - intros (x & Hin & Hx). exists x.
    split; [by apply list_elem_of_In|by apply String.eqb_eq].
  - intros (x & Hin & Hx). exists x.
    split; [by apply list_elem_of_In|by apply String.eqb_eq].
Qed.

Lemma find_filter_other (l : list (Sheet number)) id closed :
  id <> closed ->
  List.find (Workspace.hasId id) (filter (fun s => sheet_id s <> closed) l)
  = List.find (Workspace.hasId id) l.
Proof.
  intros Hne. induction l as [|x l IH]; [done|].
  rewrite filter_cons. cbn [List.find].
  destruct (Workspace.hasId id x) eqn:Ex.
  - apply String.eqb_eq in Ex. rewrite decide_True by congruence.
    cbn [List.find]. unfold Workspace.hasId. rewrite Ex.
    by rewrite String.eqb_refl.
  - case_decide; [cbn [List.find]; by rewrite Ex|done].
Qed.

Lemma find_map_edit (l : list (Sheet number)) id active
    (f : Sheet number -> Sheet number) :
  (forall sheet, sheet_id (f sheet) = sheet_id sheet) ->
  List.find (Workspace.hasId id)
    (map (fun sheet => if String.eqb (sheet_id sheet) active
                       then f sheet else sheet) l)
  = (fun sheet => if String.eqb (sheet_id sheet) active
                  then f sheet else sheet)
      <$> List.find (Workspace.hasId id) l.
Proof.
  intros Hf. induction l as [|x l IH]; [done|]. cbn [map List.find].
  assert (E : Workspace.hasId id
                (if String.eqb (sheet_id x) active then f x else x)
              = Workspace.hasId id x).
  { unfold Workspace.hasId. destruct (String.eqb (sheet_id x) active);
      by rewrite ?Hf. }
  rewrite E. by destruct (Workspace.hasId id x).
Qed.

Lemma handleCellEdit_sheet_ids rowIndex colKey value st :
  sheet_id <$> Workspace.sheets
                 (Workspace.handleCellEdit rowIndex colKey value st)
  = sheet_id <$> Workspace.sheets st.
Proof.
  unfold Workspace.handleCellEdit. cbn. rewrite handleCellEdit_sheets. cbn.
  destruct (Workspace.activeSheetId st) as [aid|]; [|done].
  destruct (String.eqb aid ""); [done|].
  rewrite <- list_fmap_compose. apply list_fmap_ext. intros i x _. cbn.
  by destruct (String.eqb (sheet_id x) aid).
Qed.

Lemma isOpen_ids st st' id :
  sheet_id <$> Workspace.sheets st' = sheet_id <$> Workspace.sheets st ->
  Workspace.isOpen st' id = Workspace.isOpen st id.
Proof.
  intros Hids. unfold Workspace.isOpen.
  assert (E : forall l : list (Sheet number),
            existsb (Workspace.hasId id) l
            = existsb (fun i => String.eqb i id) (sheet_id <$> l)).
  { induction l as [|x l IH]; [done|]. cbn. by rewrite IH. }
  by rewrite !E, Hids.
Qed.

Lemma existsb_hasId_snoc (l : list (Sheet number)) sheet id :
  existsb (Workspace.hasId id) (l ++ [sheet])
  = existsb (Workspace.hasId id) l || String.eqb (sheet_id sheet) id.
Proof. rewrite existsb_app. cbn. by rewrite orb_false_r. Qed.

(** What the state keeps through every event. *)
Let consistent st : Prop :=
  20 <= Workspace.zoomLevel st <= 200
  /\ (Workspace.activeSheetId st = None <-> Workspace.sheets st = [])
  /\ (forall a, Workspace.activeSheetId st = Some a ->
        Workspace.isOpen st a = true)
  /\ (Workspace.isCompareMode st = true ->
        exists c, Workspace.compareSheetId st = Some c /\ c <> ""
                  /\ Workspace.isOpen st c = true)
  /\ (Workspace.isCompareMode st = false ->
        Workspace.compareSheetId st = None).

Lemma isOpen_app st (l : list (Sheet number)) id :
  existsb (Workspace.hasId id) (Workspace.sheets st ++ l)
  = Workspace.isOpen st id || existsb (Workspace.hasId id) l.
Proof. unfold Workspace.isOpen. apply existsb_app. Qed.

Lemma isOpen_filter st id closed :
  id <> closed ->
  existsb (Workspace.hasId id)
    (filter (fun s => sheet_id s <> closed) (Workspace.sheets st))
  = Workspace.isOpen st id.
Proof.
  intros Hne. unfold Workspace.isOpen.
  induction (Workspace.sheets st) as [|x l IH]; [done|].
  rewrite filter_cons. cbn [existsb]. case_decide as Hx.
  - cbn [existsb]. by rewrite IH.
  - rewrite IH.
    assert (Hx' : sheet_id x = closed)
      by (destruct (decide (sheet_id x = closed)); [done|by destruct Hx]).
    clear Hx. rename Hx' into Hx.
    unfold Workspace.hasId at 2. rewrite Hx.
    replace (String.eqb closed id) with false; [done|].
    symmetry. apply String.eqb_neq. congruence.
Qed.

Lemma last_filter_open (l : list (Sheet number)) closed sheet :
  last (filter (fun s => sheet_id s <> closed) l) = Some sheet ->
  existsb (Workspace.hasId (sheet_id sheet))
    (filter (fun s => sheet_id s <> closed) l) = true.
Proof.
  intros H. apply existsb_hasId. exists sheet. split; [|done].
  apply last_Some in H as [l' ->]. apply elem_of_app. right. by left.
Qed.

Lemma dispatch_consistent ev st st' :
  consistent st -> Workspace.dispatch ev st = Some st' -> consistent st'.
Proof.
  intros ([Hz1 Hz2] & Hnone & Hact & Hcmp & Hoff). destruct ev; cbn.
  - (* a file *)
    unfold Workspace.handleFileUpload.
    destruct (requireRows && _); intros [= <-]; [done|].
    unfold consistent. cbn. split_and!; try done.
    + split; [done|]. by intros [_ [=]]%app_eq_nil.
    + intros a [= <-]. rewrite existsb_hasId_snoc. cbn.
      rewrite String.eqb_refl. apply orb_true_r.
    + intros Hc. destruct (Hcmp Hc) as (c & ? & ? & Hopen). exists c.
      split_and!; try done. rewrite existsb_hasId_snoc.
      unfold Workspace.isOpen in Hopen. by rewrite Hopen.
  - (* an empty sheet *)
    intros [= <-]. unfold consistent. cbn. split_and!; try done.
    + split; [done|]. by intros [_ [=]]%app_eq_nil.
    + intros a [= <-]. rewrite existsb_hasId_snoc. cbn.
      rewrite String.eqb_refl. apply orb_true_r.
    + intros Hc. destruct (Hcmp Hc) as (c & ? & ? & Hopen). exists c.
      split_and!; try done. rewrite existsb_hasId_snoc.
      unfold Workspace.isOpen in Hopen. by rewrite Hopen.
  - (* a tab is clicked *)
    destruct (Workspace.isOpen st id) eqn:Hopen; [|done]. intros [= <-].
    unfold consistent. cbn. split_and!; try done.
    + split; [done|]. intros Hnil. unfold Workspace.isOpen in Hopen.
      by rewrite Hnil in Hopen.
    + by intros a [= <-].
  - (* a tab is closed *)
    destruct (Workspace.isOpen st id) eqn:Hopen; [|done]. intros [= <-].
    unfold Workspace.closeTab.
    set (newSheets := filter _ (Workspace.sheets st)).
    assert (Hactive :
      forall active,
        active = (if bool_decide (Workspace.activeSheetId st = Some id)
                  then sheet_id <$> last newSheets
                  else Workspace.activeSheetId st) ->
        (active = None <-> newSheets = [])
        /\ (forall a, active = Some a ->
              existsb (Workspace.hasId a) newSheets = true)).
    { intros active ->. case_bool_decide as Ha.
      - split.
        + rewrite fmap_None. apply last_None.
        + intros a Hlast. apply fmap_Some in Hlast as (sheet & Hlast & ->).
          by apply last_filter_open.
      - assert (Hkeep : forall a, Workspace.activeSheetId st = Some a ->
                  existsb (Workspace.hasId a) newSheets = true).
        { intros a Hsome. subst newSheets. rewrite isOpen_filter.
          - by apply Hact.
          - intros ->. by apply Ha. }
        split; [|exact Hkeep]. split.
        + intros Hn. apply Hnone in Hn. subst newSheets. by rewrite Hn.
        + intros Hnil. destruct (Workspace.activeSheetId st) as [a|]; [|done].
          specialize (Hkeep a eq_refl). by rewrite Hnil in Hkeep. }
    set (active := if bool_decide (Workspace.activeSheetId st = Some id)
                   then _ else _).
    destruct (Hactive active eq_refl) as [Hn' Ha']. clearbody active.
    clear Hactive. case_bool_decide as Hc; unfold consistent; cbn;
      (split; [done|]); (split; [exact Hn'|]); (split; [exact Ha'|]).
    + done.
    + split; [|exact Hoff]. intros Hmode.
      destruct (Hcmp Hmode) as (c & Hsome & Hne & Hopen'). exists c.
      split_and!; try done. unfold Workspace.isOpen. cbn.
      subst newSheets. rewrite isOpen_filter; [done|]. intros ->.
      by apply Hc.
  - (* zoom *)
    destruct (bool_decide _); [|done]. intros [= <-].
    unfold consistent. cbn. split_and!; try done.
    + unfold Js.Math_min, Js.Math_max. lia.
    + unfold Js.Math_min, Js.Math_max. lia.
  - destruct (bool_decide _); [|done]. intros [= <-].
    unfold consistent. cbn. split_and!; done.
  - (* the comparison *)
    destruct (_ && _ && _) eqn:E; [|done]. intros [= <-].
    apply andb_true_iff in E as [_ E]. unfold Workspace.selectComparison.
    destruct (String.eqb value "") eqn:Ev; unfold consistent; cbn.
    + split_and!; done.
    + split_and!; try done.
      intros _. exists value. split; [done|].
      split; [by apply String.eqb_neq|].
      rewrite orb_false_l in E. by apply andb_true_iff in E as [E _].
  - (* an edit *)
    destruct (bool_decide _); [|done]. intros [= <-].
    pose proof (handleCellEdit_sheet_ids rowIndex colKey value st) as Hids.
    pose proof (fun id => isOpen_ids st _ id Hids) as Hopen.
    pose proof (f_equal length Hids) as Hlen. rewrite !length_fmap in Hlen.
    set (st2 := Workspace.handleCellEdit rowIndex colKey value st) in *.
    assert (Ea : Workspace.activeSheetId st2 = Workspace.activeSheetId st)
      by done.
    assert (Ec : Workspace.compareSheetId st2 = Workspace.compareSheetId st)
      by done.
    assert (Em : Workspace.isCompareMode st2 = Workspace.isCompareMode st)
      by done.
    assert (Ez : Workspace.zoomLevel st2 = Workspace.zoomLevel st) by done.
    clearbody st2. unfold consistent. rewrite Ea, Ec, Em, Ez.
    split_and!; try done.
    + rewrite Hnone. split; intros Hn; apply nil_length_inv.
      * rewrite Hlen. by rewrite Hn.
      * rewrite <- Hlen. by rewrite Hn.
    + intros a Ha. rewrite Hopen. by apply Hact.
    + intros Hc. destruct (Hcmp Hc) as (c & ? & ? & Hopen'). exists c.
      split_and!; try done. by rewrite Hopen.
Qed.

Lemma reachable_consistent st : Workspace.reachable st -> consistent st.
Proof.
  induction 1 as [|st ev st' _ IH Hstep].
  - unfold consistent. cbn. repeat split; done.
  - by eapply dispatch_consistent.
Qed.

End WorkspaceFacts.

(** ** What the workspace hands to the grid *)

(** The height of a row in doubles, for a zoom level in the range the
    workspace keeps. *)
Lemma rowHeight_range (zoomLevel : Q) :
  (20 <= zoomLevel)%Q -> (zoomLevel <= 200)%Q ->
  (36 # 5 <= Virtualization.rowHeight zoomLevel)%Q
  /\ (Virtualization.rowHeight zoomLevel <= 72)%Q.
Proof.
  intros Hlo Hhi.
  unfold Virtualization.rowHeight, Virtualization.ROW_HEIGHT_BASE,
    Js.mul, Js.div.
  assert (L : (Js.fl (20 / 100) <= Js.fl (zoomLevel / 100))%Q).
  { apply (Js.fl_le _ binary64_rounding).
    apply Qmult_le_compat_r; [exact Hlo|by vm_compute]. }
  assert (U : (Js.fl (zoomLevel / 100) <= Js.fl (200 / 100))%Q).
  { apply (Js.fl_le _ binary64_rounding).
    apply Qmult_le_compat_r; [exact Hhi|by vm_compute]. }
  split.
  - apply (Qle_trans _ (Js.fl (36 * Js.fl (20 / 100)))); [by vm_compute|].
    apply (Js.fl_le _ binary64_rounding). lra.
  - apply (Qle_trans _ (Js.fl (36 * Js.fl (200 / 100)))); [|by vm_compute].
    apply (Js.fl_le _ binary64_rounding). lra.
Qed.

(** X13. Whatever files are opened, tabs clicked or closed, zoom buttons
    pressed, comparisons chosen and cells edited, the zoom level stays
    between 20 and 200; so whenever the grid is rendered its zoom is
    positive and a row is between 7.2 and 72 pixels high, in exact
    arithmetic and in doubles. *)
Theorem workspace_zoom_in_range {number : Type}
    (st : Workspace.State number) :
  Workspace.reachable st ->
  20 <= Workspace.zoomLevel st <= 200
  /\ forall p : Grid.Props number,
       Workspace.gridProps st = Some p ->
       (0 < Grid.zoomLevel p)%Q
       /\ ((36 # 5 <= Grid.rowHeight (arith := Js.exact) p)%Q
           /\ (Grid.rowHeight (arith := Js.exact) p <= 72)%Q)
       /\ ((36 # 5 <= Grid.rowHeight p)%Q /\ (Grid.rowHeight p <= 72)%Q).
Proof.
  intros Hreach.
  destruct (reachable_consistent st Hreach) as ([Hlo Hhi] & _).
  split; [done|]. intros p Hp. unfold Workspace.gridProps in Hp.
  destruct (Workspace.sheets st); [done|].
  destruct (Workspace.activeSheet st) as [sheet|]; [|done].
  injection Hp as <-.
  unfold Grid.rowHeight. cbn [Grid.zoomLevel].
  assert (H20 : (inject_Z 20 <= inject_Z (Workspace.zoomLevel st))%Q)
    by by rewrite <- Zle_Qle.
  assert (H200 : (inject_Z (Workspace.zoomLevel st) <= inject_Z 200)%Q)
    by by rewrite <- Zle_Qle.
  change (inject_Z 20) with 20%Q in H20.
  change (inject_Z 200) with 200%Q in H200.
  set (z := inject_Z (Workspace.zoomLevel st)) in *. clearbody z.
  split; [lra|]. split; [|by apply rowHeight_range].
  unfold Virtualization.rowHeight, Virtualization.ROW_HEIGHT_BASE,
    Js.mul, Js.div. cbn [Js.fl Js.exact].
  assert (E : (36 * (z / 100) == z * (9 # 25))%Q) by field.
  rewrite E. split; lra.
Qed.

Lemma workspace_zoom_in_range_witness :
  20 <= Workspace.zoomLevel
          (Workspace.adjustZoom 500 Scenario.workspace) <= 200.
Proof.
  apply (workspace_zoom_in_range
           (Workspace.adjustZoom 500 Scenario.workspace)).
  apply (Workspace.reachable_step Scenario.workspace
           (Workspace.ZoomAdjusted 500)); [|by vm_compute].
  apply (Workspace.reachable_step
           (Workspace.handleFileUpload false Scenario.table
              Workspace.initialState)
           (Workspace.FileUploaded false Scenario.nullTable)); [|done].
  apply (Workspace.reachable_step Workspace.initialState
           (Workspace.FileUploaded false Scenario.table)); [|done].
  apply Workspace.reachable_initial.
Defined.

(** X14. The active id is [null] exactly when no sheet is open, and the
    grid is rendered exactly when a sheet is open; it is then given an
    open sheet that carries the active id: the active id never dangles,
    whatever tabs are closed. *)
Theorem workspace_shows_active_sheet {number : Type}
    (st : Workspace.State number) :
  Workspace.reachable st ->
  (Workspace.activeSheetId st = None <-> Workspace.sheets st = [])
  /\ (Workspace.gridProps st = None <-> Workspace.sheets st = [])
  /\ forall p : Grid.Props number,
       Workspace.gridProps st = Some p ->
       Grid.sheet p ∈ Workspace.sheets st
       /\ Workspace.activeSheetId st = Some (sheet_id (Grid.sheet p)).
Proof.
  intros Hreach.
  destruct (reachable_consistent st Hreach) as (_ & Hnone & Hact & _).
  split; [exact Hnone|].
  unfold Workspace.gridProps, Workspace.activeSheet, Workspace.findSheet.
  destruct (Workspace.sheets st) as [|s0 l] eqn:Hsheets.
  - split; [done|]. by intros p [=].
  - destruct (Workspace.activeSheetId st) as [a|] eqn:Ha.
    2: { by destruct Hnone as [Hnone _]; specialize (Hnone eq_refl). }
    specialize (Hact a eq_refl). unfold Workspace.isOpen in Hact.
    rewrite Hsheets in Hact. apply find_hasId_is_Some in Hact as [sheet Hfind].
    rewrite Hfind. cbn. split; [by split|]. intros p [= <-]. cbn.
    apply find_hasId_Some in Hfind as [Hin <-]. done.
Qed.

Lemma workspace_shows_active_sheet_witness :
  exists p : Grid.Props Z,
    Workspace.gridProps
      (Workspace.closeTab "sheet2" Scenario.workspace) = Some p
    /\ Grid.sheet p ∈
         Workspace.sheets (Workspace.closeTab "sheet2" Scenario.workspace)
    /\ Workspace.activeSheetId
         (Workspace.closeTab "sheet2" Scenario.workspace)
       = Some (sheet_id (Grid.sheet p)).
Proof.
  assert (Hreach : Workspace.reachable
                     (Workspace.closeTab "sheet2" Scenario.workspace)).
  { apply (Workspace.reachable_step Scenario.workspace
             (Workspace.TabClosed "sheet2")); [|done].
    apply (Workspace.reachable_step
             (Workspace.handleFileUpload false Scenario.table
                Workspace.initialState)
             (Workspace.FileUploaded false Scenario.nullTable)); [|done].
    apply (Workspace.reachable_step Workspace.initialState
             (Workspace.FileUploaded false Scenario.table)); [|done].
    apply Workspace.reachable_initial. }
  exists (Grid.mkProps Scenario.table 100 None). split; [done|].
  by apply (proj2 (proj2 (workspace_shows_active_sheet _ Hreach))).
Defined.

(** X15. The grid gets a comparison sheet exactly when the comparison mode is
    on, and that sheet is an open one with the chosen id: closing the
    compared tab switches the mode off instead of leaving the grid
    without its comparison. *)
Theorem workspace_comparison_is_open {number : Type}
    (st : Workspace.State number) (p : Grid.Props number) :
  Workspace.reachable st ->
  Workspace.gridProps st = Some p ->
  (Workspace.isCompareMode st = true ->
     exists c : Sheet number,
       Grid.compareSheet p = Some c /\ c ∈ Workspace.sheets st
       /\ Workspace.compareSheetId st = Some (sheet_id c))
  /\ (Workspace.isCompareMode st = false -> Grid.compareSheet p = None).
Proof.
  intros Hreach Hp.
  destruct (reachable_consistent st Hreach) as (_ & _ & _ & Hcmp & Hoff).
  unfold Workspace.gridProps in Hp.
  destruct (Workspace.sheets st) as [|s0 l] eqn:Hsheets; [done|].
  rewrite <- Hsheets. clear Hsheets s0 l.
  destruct (Workspace.activeSheet st) as [sheet|]; [|done].
  injection Hp as <-. cbn [Grid.compareSheet].
  unfold Workspace.comparisonSheet, Workspace.findSheet. split.
  - intros Hmode. destruct (Hcmp Hmode) as (c & Hc & Hne & Hopen).
    rewrite Hc, Hmode. apply String.eqb_neq in Hne. rewrite Hne. cbn.
    unfold Workspace.isOpen in Hopen.
    apply find_hasId_is_Some in Hopen as [found Hfind].
    exists found. split; [done|].
    by apply find_hasId_Some in Hfind as [Hin <-].
  - intros Hmode. by rewrite (Hoff Hmode).
Qed.

Lemma workspace_comparison_is_open_witness :
  let st := Workspace.selectComparison "sheet1" Scenario.workspace in
  exists c : Sheet Z,
    Grid.compareSheet (Grid.mkProps Scenario.nullTable 100
                         (Some Scenario.table)) = Some c
    /\ c ∈ Workspace.sheets st
    /\ Workspace.compareSheetId st = Some (sheet_id c).
Proof.
  intros st.
  apply (workspace_comparison_is_open st
           (Grid.mkProps Scenario.nullTable 100 (Some Scenario.table)));
    [|done|done].
  apply (Workspace.reachable_step Scenario.workspace
           (Workspace.ComparisonSelected "sheet1")); [|done].
  apply (Workspace.reachable_step
           (Workspace.handleFileUpload false Scenario.table
              Workspace.initialState)
           (Workspace.FileUploaded false Scenario.nullTable)); [|done].
  apply (Workspace.reachable_step Workspace.initialState
           (Workspace.FileUploaded false Scenario.table)); [|done].
  apply Workspace.reachable_initial.
Defined.

(** X16. Closing a tab other than the one on show leaves the grid with the
    same sheet and the same zoom; the comparison is kept too, unless the
    closed tab was the compared one, in which case it is switched off. *)
Theorem closeTab_other_tab {number : Type}
    (st : Workspace.State number) (id : string) (p : Grid.Props number) :
  Workspace.gridProps st = Some p ->
  Workspace.activeSheetId st <> Some id ->
  Workspace.gridProps (Workspace.closeTab id st)
  = Some (if bool_decide (Workspace.compareSheetId st = Some id)
          then Grid.mkProps (Grid.sheet p) (Grid.zoomLevel p) None
          else p).
Proof.
  intros Hp Hne. unfold Workspace.gridProps in Hp.
  destruct (Workspace.sheets st) as [|s0 l] eqn:Hsheets; [done|].
  clear Hsheets s0 l.
  destruct (Workspace.activeSheet st) as [sheet|] eqn:Hactive; [|done].
  injection Hp as <-. cbn [Grid.sheet Grid.zoomLevel].
  unfold Workspace.activeSheet, Workspace.findSheet in Hactive.
  destruct (Workspace.activeSheetId st) as [a|] eqn:Ha; [|done].
  assert (Hfind : List.find (Workspace.hasId a)
                    (filter (fun s => sheet_id s <> id) (Workspace.sheets st))
                  = Some sheet).
  { rewrite find_filter_other; [done|]. by intros ->. }
  assert (Hstate :
    forall c m,
      Workspace.gridProps
        (Workspace.mkState
           (filter (fun s => sheet_id s <> id) (Workspace.sheets st))
           (Some a) c m (Workspace.zoomLevel st))
      = Some (Grid.mkProps sheet (inject_Z (Workspace.zoomLevel st))
                (Workspace.comparisonSheet
                   (Workspace.mkState
                      (filter (fun s => sheet_id s <> id)
                         (Workspace.sheets st))
                      (Some a) c m (Workspace.zoomLevel st))))).
  { intros c m. unfold Workspace.gridProps, Workspace.activeSheet,
      Workspace.findSheet.
    cbn [Workspace.sheets Workspace.activeSheetId Workspace.zoomLevel].
    rewrite Hfind.
    destruct (filter _ (Workspace.sheets st)); [done|]. done. }
  unfold Workspace.closeTab. rewrite Ha.
  rewrite (bool_decide_eq_false_2 (Some a = Some id)) by done.
  case_bool_decide as Hc.
  - rewrite Hstate. done.
  - rewrite Hstate. do 2 f_equal.
    unfold Workspace.comparisonSheet, Workspace.findSheet.
    cbn [Workspace.sheets Workspace.compareSheetId Workspace.isCompareMode].
    destruct (Workspace.compareSheetId st) as [c|]; [|done].
    destruct (_ && _); [|done].
    apply find_filter_other. intros ->. by apply Hc.
Qed.

Lemma closeTab_other_tab_witness :
  Workspace.gridProps (Workspace.closeTab "sheet1" Scenario.workspace)
  = Some (Grid.mkProps Scenario.nullTable 100 None).
Proof.
  apply (closeTab_other_tab Scenario.workspace "sheet1"
           (Grid.mkProps Scenario.nullTable 100 None)); done.
Defined.

(** ** The edit as the grid sees it on the next render *)

Section HostEditFacts.

Context {number : Type}.
Implicit Types (st : Workspace.State number) (sheet : Sheet number).

Lemma array_set_twice {A} (a : list (option A)) (i : Z) (v w : A) :
  Js.array_set (Js.array_set a i v) i w = Js.array_set a i w.
Proof.
  unfold Js.array_set. destruct (i <? 0); [done|]. cbv zeta.
  destruct (Z.to_nat i <? length a)%nat eqn:E.
  - rewrite length_insert, E. apply list_insert_insert_eq.
  - apply Nat.ltb_ge in E.
    set (b := a ++ replicate (Z.to_nat i - length a) None ++ [Some v]).
    assert (Hlen : length b = S (Z.to_nat i)).
    { subst b. rewrite !length_app, length_replicate. cbn. lia. }
    replace (Z.to_nat i <? length b)%nat with true
      by (symmetry; apply Nat.ltb_lt; lia).
    subst b. rewrite !app_assoc.
    rewrite insert_app_r_alt by (rewrite length_app, length_replicate; lia).
    rewrite length_app, length_replicate.
    by replace (Z.to_nat i - (length a + (Z.to_nat i - length a)))%nat
      with 0%nat by lia.
Qed.

Lemma editSheet_twice rowIndex colKey value sheet :
  Host.editSheet rowIndex colKey value
    (Host.editSheet rowIndex colKey value sheet)
  = Host.editSheet rowIndex colKey value sheet.
Proof.
  destruct (decide (rowIndex < 0)) as [Hneg|Hpos].
  - unfold Host.editSheet. cbn. unfold Js.array_set.
    by replace (rowIndex <? 0) with true by lia.
  - unfold Host.editSheet at 1. rewrite editSheet_row by lia.
    cbn [sheet_id sheet_name sheet_data sheet_columns sheet_type
         Host.editSheet].
    rewrite array_set_twice. unfold Host.editSheet, Host.editedRow.
    cbn [default id]. by rewrite insert_insert_eq.
Qed.

Lemma activeSheet_handleCellEdit rowIndex colKey value st a :
  Workspace.activeSheetId st = Some a -> a <> "" ->
  Workspace.activeSheet (Workspace.handleCellEdit rowIndex colKey value st)
  = Host.editSheet rowIndex colKey value <$> Workspace.activeSheet st.
Proof.
  intros Ha Hne. unfold Workspace.activeSheet, Workspace.findSheet.
  cbn [Workspace.activeSheetId Workspace.handleCellEdit Workspace.sheets].
  rewrite handleCellEdit_sheets. cbn [Host.activeSheetId Host.sheets].
  rewrite Ha. apply String.eqb_neq in Hne. rewrite Hne.
  rewrite (find_map_edit _ a a (Host.editSheet rowIndex colKey value))
    by done.
  destruct (List.find (Workspace.hasId a) (Workspace.sheets st))
    as [sheet|] eqn:Hfind; [|done].
  apply find_hasId_Some in Hfind as [_ Hid]. cbn.
  by rewrite Hid, String.eqb_refl.
Qed.

End HostEditFacts.

(** X17. After the grid commits an edit, the host renders it again with the
    same sheet id, columns and zoom, and with a sheet in which the edited
    cell reads as the committed text, as a string, and every other cell
    of every row reads as before. The one exception is a sheet whose id
    is the empty string: the handler's [!activeSheetId] test drops every
    edit of it. *)
Theorem workspace_edit_reads_back {number : Type}
    (st : Workspace.State number) (p : Grid.Props number)
    (rowIndex : Z) (colKey value : string) :
  Workspace.gridProps st = Some p ->
  0 <= rowIndex ->
  let st' := Workspace.handleCellEdit rowIndex colKey value st in
  (sheet_id (Grid.sheet p) = "" -> st' = st)
  /\ (sheet_id (Grid.sheet p) <> "" ->
      exists p' : Grid.Props number,
        Workspace.gridProps st' = Some p'
        /\ sheet_id (Grid.sheet p') = sheet_id (Grid.sheet p)
        /\ sheet_columns (Grid.sheet p') = sheet_columns (Grid.sheet p)
        /\ Grid.zoomLevel p' = Grid.zoomLevel p
        /\ row_at (Grid.sheet p') rowIndex ≫= (fun row => cell row colKey)
           = Some (VString value)
        /\ (forall c, c <> colKey ->
              row_at (Grid.sheet p') rowIndex ≫= (fun row => cell row c)
              = row_at (Grid.sheet p) rowIndex ≫= (fun row => cell row c))
        /\ (forall i, i <> rowIndex ->
              row_at (Grid.sheet p') i = row_at (Grid.sheet p) i)).
Proof.
  intros Hp Hrow st'. unfold Workspace.gridProps in Hp.
  destruct (Workspace.sheets st) as [|s0 l] eqn:Hsheets; [done|].
  destruct (Workspace.activeSheet st) as [sheet|] eqn:Hactive; [|done].
  injection Hp as <-. cbn [Grid.sheet Grid.zoomLevel].
  pose proof Hactive as Hfind.
  unfold Workspace.activeSheet, Workspace.findSheet in Hfind.
  destruct (Workspace.activeSheetId st) as [a|] eqn:Ha; [|done].
  apply find_hasId_Some in Hfind as [_ Hid]. split.
  - intros Hempty. subst st'. unfold Workspace.handleCellEdit,
      Host.handleCellEdit. cbn [Host.activeSheetId Host.sheets].
    rewrite Hempty in Hid. subst a. rewrite Ha. cbn.
    destruct st; cbn in *; congruence.
  - intros Hne. rewrite Hid in Hne.
    pose proof (activeSheet_handleCellEdit rowIndex colKey value st a Ha Hne)
      as Hactive'.
    rewrite Hactive in Hactive'. cbn in Hactive'.
    pose proof (handleCellEdit_sheet_ids rowIndex colKey value st) as Hids.
    eexists. split.
    + subst st'. unfold Workspace.gridProps. rewrite Hactive'.
      pose proof (f_equal length Hids) as Hlen.
      rewrite !length_fmap, Hsheets in Hlen.
      destruct (Workspace.sheets (Workspace.handleCellEdit _ _ _ st))
        eqn:Hnil; [by rewrite ?Hnil in Hlen|].
      cbn. reflexivity.
    + cbn [Grid.sheet Grid.zoomLevel]. split_and!; try done.
      * by apply editSheet_cell.
      * intros c Hc. by apply editSheet_other_cells.
      * intros i Hi. by apply editSheet_other_rows.
Qed.

Lemma workspace_edit_reads_back_witness :
  exists p' : Grid.Props Z,
    Workspace.gridProps
      (Workspace.handleCellEdit 0 "A" "7" Scenario.workspace) = Some p'
    /\ row_at (Grid.sheet p') 0 ≫= (fun row => cell row "A")
       = Some (VString "7").
Proof.
  destruct (workspace_edit_reads_back Scenario.workspace
              (Grid.mkProps Scenario.nullTable 100 None) 0 "A" "7"
              eq_refl ltac:(done)) as [_ Hshown].
  destruct (Hshown ltac:(done)) as (p' & Hp' & _ & _ & _ & Hcell & _).
  by exists p'.
Defined.

(** X18. Committing the same edit a second time changes nothing: the second
    [onCellEdit] call that Enter causes in the full grid leaves the
    workspace as the first one made it. *)
Theorem handleCellEdit_twice {number : Type}
    (st : Workspace.State number) (rowIndex : Z) (colKey value : string) :
  Workspace.handleCellEdit rowIndex colKey value
    (Workspace.handleCellEdit rowIndex colKey value st)
  = Workspace.handleCellEdit rowIndex colKey value st.
Proof.
  unfold Workspace.handleCellEdit.
  cbn [Workspace.sheets Workspace.activeSheetId Workspace.compareSheetId
       Workspace.isCompareMode Workspace.zoomLevel].
  f_equal. rewrite !handleCellEdit_sheets.
  cbn [Host.activeSheetId Host.sheets].
  destruct (Workspace.activeSheetId st) as [a|]; [|done].
  destruct (String.eqb a ""); [done|].
  rewrite <- list_fmap_compose. apply list_fmap_ext. intros i sheet _. cbn.
  destruct (String.eqb (sheet_id sheet) a) eqn:E; [|by rewrite E].
  cbn [sheet_id Host.editSheet]. rewrite E.
  fold (Host.editSheet rowIndex colKey value sheet).
  apply editSheet_twice.
Qed.

(** * CSV text *)

Section CsvFacts.

Context {number : Type} (nts : number -> string).
Variable isWhiteSpace : ascii -> bool.

Local Abbreviation trimStart := (Csv.trimStart isWhiteSpace).
Local Abbreviation trimEnd := (Csv.trimEnd isWhiteSpace).
Local Abbreviation trim := (Csv.trim isWhiteSpace).
Local Abbreviation parseLine_from := (Csv.parseLine_from isWhiteSpace).
Local Abbreviation parseLine := (Csv.parseLine isWhiteSpace).
Local Abbreviation unquote := (filter (fun c : ascii => c <> Csv.QUOTE)).

Implicit Types (val text rest cur : list ascii) (c : ascii).

Lemma includes_false val c : Csv.includes val c = false <-> c ∉ val.
Proof.
  unfold Csv.includes. induction val as [|x val IH]; cbn.
  - split; [intros _; apply not_elem_of_nil|done].
  - rewrite not_elem_of_cons, orb_false_iff, IH, Ascii.eqb_neq. done.
Qed.

Lemma unquote_plain val : Csv.QUOTE ∉ val -> unquote val = val.
Proof.
  induction val as [|x val IH]; [done|]. intros [Hx Hval]%not_elem_of_cons.
  rewrite filter_cons_True by congruence. by rewrite IH.
Qed.

(** *** One line *)

Lemma parseLine_from_plain val rest result cur :
  Csv.QUOTE ∉ val -> Csv.COMMA ∉ val ->
  parseLine_from (val ++ rest) result cur false
  = parseLine_from rest result (cur ++ val) false.
Proof.
  revert cur. induction val as [|x val IH]; intros cur Hq Hc.
  - by rewrite app_nil_r.
  - apply not_elem_of_cons in Hq as [Hq1 Hq2].
    apply not_elem_of_cons in Hc as [Hc1 Hc2].
    cbn [app Csv.parseLine_from].
    replace (Ascii.eqb x Csv.QUOTE) with false
      by (symmetry; apply Ascii.eqb_neq; congruence).
    replace (Ascii.eqb x Csv.COMMA) with false
      by (symmetry; apply Ascii.eqb_neq; congruence).
    cbn [andb]. rewrite IH by done. by rewrite <- app_assoc.
Qed.

(** Between the quotes that [exportToCSV] puts around a field every
    quote character of the value is doubled, so the parser is back
    inside the quotes after each pair and takes every comma as text. *)
Lemma parseLine_from_quoted val rest result cur :
  parseLine_from (Csv.doubleQuotes val ++ rest) result cur true
  = parseLine_from rest result (cur ++ unquote val) true.
Proof.
  revert cur. induction val as [|x val IH]; intros cur.
  - by rewrite app_nil_r.
  - unfold Csv.doubleQuotes. cbn [flat_map].
    fold (Csv.doubleQuotes val).
    destruct (Ascii.eqb x Csv.QUOTE) eqn:E.
    + apply Ascii.eqb_eq in E. subst x.
      cbn [app Csv.parseLine_from]. rewrite Ascii.eqb_refl. cbn [negb].
      rewrite IH. by rewrite filter_cons_False by (intros H; by apply H).
    + cbn [app Csv.parseLine_from]. rewrite E, andb_false_r.
      rewrite IH. apply Ascii.eqb_neq in E.
      rewrite filter_cons_True by done. by rewrite <- app_assoc.
Qed.

Lemma parseLine_from_exportField v rest result :
  parseLine_from (Csv.exportField nts v ++ rest) result [] false
  = parseLine_from rest result
      (unquote (String.list_ascii_of_string (displayVal nts v))) false.
Proof.
  unfold Csv.exportField. cbv zeta.
  set (val := String.list_ascii_of_string (displayVal nts v)).
  destruct (_ || _ || _) eqn:E.
  - cbn [app Csv.parseLine_from]. rewrite Ascii.eqb_refl. cbn [negb].
    rewrite <- app_assoc. rewrite parseLine_from_quoted.
    cbn [app Csv.parseLine_from]. by rewrite Ascii.eqb_refl.
  - apply orb_false_iff in E as [E _]. apply orb_false_iff in E as [Ec Eq].
    apply includes_false in Ec, Eq.
    rewrite parseLine_from_plain by done. by rewrite unquote_plain.
Qed.

(** [text] is a field of a line that the parser reads as [val]. *)
Let reads (text val : list ascii) : Prop :=
  forall rest result,
    parseLine_from (text ++ rest) result [] false
    = parseLine_from rest result val false.

Lemma parseLine_from_join texts vals result :
  Forall2 reads texts vals -> texts <> [] ->
  parseLine_from (Csv.join Csv.COMMA texts) result [] false
  = result ++ map trim vals.
Proof.
  intros Hall. revert result.
  induction Hall as [|text val texts vals Hread Hall IH]; intros result Hne;
    [done|].
  destruct texts as [|text2 texts].
  - apply Forall2_nil_inv_l in Hall. subst vals. cbn [Csv.join map].
    rewrite <- (app_nil_r text). by rewrite Hread.
  - cbn [Csv.join map]. rewrite Hread. cbn [Csv.parseLine_from].
    replace (Ascii.eqb Csv.COMMA Csv.QUOTE) with false by done.
    rewrite Ascii.eqb_refl. cbn [negb andb].
    rewrite IH by done. cbn [map]. by rewrite <- app_assoc.
Qed.


(** *** White space at the ends *)

(** No white space at either end. *)
Let tidy (s : list ascii) : Prop :=
  (forall c, head s = Some c -> isWhiteSpace c = false)
  /\ (forall c, last s = Some c -> isWhiteSpace c = false).

Lemma trimStart_length s : (length (trimStart s) <= length s)%nat.
Proof.
  induction s as [|x s IH]; cbn; [done|].
  destruct (isWhiteSpace x); cbn; lia.
Qed.

Lemma trimStart_head s :
  (forall c, head s = Some c -> isWhiteSpace c = false) -> trimStart s = s.
Proof.
  destruct s as [|x s]; [done|]. intros H. cbn. by rewrite (H x).
Qed.

Lemma trimStart_fixed s c :
  trimStart s = s -> head s = Some c -> isWhiteSpace c = false.
Proof.
  destruct s as [|x s]; [done|]. intros Hfix [= ->].
  destruct (isWhiteSpace c) eqn:E; [|done]. cbn in Hfix. rewrite E in Hfix.
  pose proof (trimStart_length s) as Hlen. rewrite Hfix in Hlen.
  cbn in Hlen. lia.
Qed.

Lemma trimEnd_length s : (length (trimEnd s) <= length s)%nat.
Proof.
  unfold Csv.trimEnd. rewrite length_reverse.
  etransitivity; [apply trimStart_length|]. by rewrite length_reverse.
Qed.

Lemma trim_tidy s : tidy s -> trim s = s.
Proof.
  intros [Hhead Hlast]. unfold Csv.trim, Csv.trimEnd.
  rewrite (trimStart_head s) by done.
  rewrite trimStart_head; [apply reverse_involutive|].
  intros c. rewrite head_reverse. apply Hlast.
Qed.

Lemma trim_fixed s : trim s = s -> tidy s.
Proof.
  intros Hfix.
  assert (Hstart : trimStart s = s).
  { pose proof (trimStart_length s) as H1.
    pose proof (trimEnd_length (trimStart s)) as H2.
    unfold Csv.trim in Hfix. rewrite Hfix in H2.
    assert (Hlen : length (trimStart s) = length s) by lia.
    clear -Hlen. induction s as [|x s IH]; [done|].
    cbn in *. destruct (isWhiteSpace x); [|done].
    pose proof (trimStart_length s). lia. }
  split.
  - intros c. by apply trimStart_fixed.
  - intros c Hc. unfold Csv.trim in Hfix. rewrite Hstart in Hfix.
    unfold Csv.trimEnd in Hfix.
    apply (trimStart_fixed (reverse s)).
    + apply (f_equal reverse) in Hfix.
      by rewrite reverse_involutive in Hfix.
    + by rewrite head_reverse.
Qed.

Lemma tidy_join sep (parts : list (list ascii)) :
  isWhiteSpace sep = false -> Forall tidy parts ->
  tidy (Csv.join sep parts).
Proof.
  intros Hsep Hall. induction Hall as [|p parts Hp Hall IH]; [done|].
  destruct parts as [|q parts]; [done|].
  change (Csv.join sep (p :: q :: parts))
    with (p ++ sep :: Csv.join sep (q :: parts)).
  destruct IH as [_ IHlast]. destruct Hp as [Hhead _]. split.
  - intros c. destruct p as [|x p]; cbn; [by intros [= <-]|]. apply Hhead.
  - intros c. rewrite last_app, last_cons.
    destruct (last (Csv.join sep (q :: parts))) as [y|]; [|by intros [= <-]].
    intros [= <-]. by apply IHlast.
Qed.

(** A line with two fields or more has a comma. *)
Lemma join_two_nonempty sep (p q : list ascii) parts :
  Csv.join sep (p :: q :: parts) <> [].
Proof.
  change (Csv.join sep (p :: q :: parts))
    with (p ++ sep :: Csv.join sep (q :: parts)).
  by destruct p.
Qed.

Lemma tidy_lines (lines : list (list ascii)) :
  lines <> [] ->
  Forall (fun line => tidy line /\ line <> []) lines ->
  tidy (Csv.join Csv.LF lines) /\ Csv.join Csv.LF lines <> [].
Proof.
  intros Hne Hall. induction Hall as [|p lines [Hp Hpne] Hall IH]; [done|].
  destruct lines as [|q lines]; [done|].
  change (Csv.join Csv.LF (p :: q :: lines))
    with (p ++ Csv.LF :: Csv.join Csv.LF (q :: lines)).
  destruct (IH ltac:(done)) as [[_ IHlast] IHne]. split; [|by destruct p].
  destruct Hp as [Hhead _]. split.
  - intros c. destruct p as [|x p]; [done|]. apply Hhead.
  - intros c. rewrite last_app, last_cons.
    destruct (last (Csv.join Csv.LF (q :: lines))) as [y|] eqn:Hlast.
    + intros [= <-]. by apply IHlast.
    + by apply last_None in Hlast.
Qed.

Lemma tidy_exportField v :
  isWhiteSpace Csv.QUOTE = false ->
  tidy (String.list_ascii_of_string (displayVal nts v)) ->
  tidy (Csv.exportField nts v).
Proof.
  intros Hq Hval. unfold Csv.exportField. cbv zeta.
  destruct (_ || _ || _); [|done]. split.
  - by intros c [= <-].
  - intros c. rewrite last_cons, last_snoc. by intros [= <-].
Qed.

(** *** The characters of a line *)

Lemma elem_of_join sep (parts : list (list ascii)) c :
  c ∈ Csv.join sep parts -> c = sep \/ exists p, p ∈ parts /\ c ∈ p.
Proof.
  induction parts as [|p [|q parts] IH].
  - by intros ?%elem_of_nil.
  - intros Hc. right. exists p. split; [by left|done].
  - change (Csv.join sep (p :: q :: parts))
      with (p ++ sep :: Csv.join sep (q :: parts)).
    rewrite elem_of_app, elem_of_cons. intros [Hc|[Hc|Hc]].
    + right. exists p. split; [by left|done].
    + by left.
    + destruct (IH Hc) as [?|(p' & Hp' & Hin)]; [by left|].
      right. exists p'. split; [by right|done].
Qed.

Lemma elem_of_exportField v c :
  Csv.QUOTE ∉ String.list_ascii_of_string (displayVal nts v) ->
  c ∈ Csv.exportField nts v ->
  c = Csv.QUOTE \/ c ∈ String.list_ascii_of_string (displayVal nts v).
Proof.
  intros Hq. unfold Csv.exportField. cbv zeta.
  set (val := String.list_ascii_of_string (displayVal nts v)) in *.
  destruct (_ || _ || _); [|by right].
  assert (E : Csv.doubleQuotes val = val).
  { clear -Hq. induction val as [|x val IH]; [done|].
    apply not_elem_of_cons in Hq as [Hx Hval].
    unfold Csv.doubleQuotes. cbn [flat_map]. fold (Csv.doubleQuotes val).
    replace (Ascii.eqb x Csv.QUOTE) with false
      by (symmetry; apply Ascii.eqb_neq; congruence).
    cbn [app]. by rewrite IH. }
  rewrite E, elem_of_cons, elem_of_app, list_elem_of_singleton. tauto.
Qed.

(** *** The split into lines *)

Lemma splitLines_from_plain val rest cur :
  Csv.LF ∉ val -> Csv.CR ∉ val ->
  Csv.splitLines_from cur (val ++ Csv.LF :: rest)
  = (cur ++ val) :: Csv.splitLines_from [] rest.
Proof.
  revert cur. induction val as [|x val IH]; intros cur Hlf Hcr.
  - cbn [app Csv.splitLines_from]. rewrite Ascii.eqb_refl.
    by rewrite app_nil_r.
  - apply not_elem_of_cons in Hlf as [Hlf1 Hlf2].
    apply not_elem_of_cons in Hcr as [Hcr1 Hcr2].
    cbn [app Csv.splitLines_from].
    replace (Ascii.eqb x Csv.LF) with false
      by (symmetry; apply Ascii.eqb_neq; congruence).
    replace (Ascii.eqb x Csv.CR) with false
      by (symmetry; apply Ascii.eqb_neq; congruence).
    cbn [andb].
    transitivity (Csv.splitLines_from (cur ++ [x]) (val ++ Csv.LF :: rest)).
    { by destruct (val ++ Csv.LF :: rest). }
    rewrite IH by done. by rewrite <- app_assoc.
Qed.

Lemma splitLines_from_last val cur :
  Csv.LF ∉ val -> Csv.CR ∉ val ->
  Csv.splitLines_from cur val = [cur ++ val].
Proof.
  revert cur. induction val as [|x val IH]; intros cur Hlf Hcr.
  - by rewrite app_nil_r.
  - apply not_elem_of_cons in Hlf as [Hlf1 Hlf2].
    apply not_elem_of_cons in Hcr as [Hcr1 Hcr2].
    cbn [Csv.splitLines_from].
    replace (Ascii.eqb x Csv.LF) with false
      by (symmetry; apply Ascii.eqb_neq; congruence).
    replace (Ascii.eqb x Csv.CR) with false
      by (symmetry; apply Ascii.eqb_neq; congruence).
    cbn [andb].
    transitivity (Csv.splitLines_from (cur ++ [x]) val).
    { by destruct val. }
    rewrite IH by done. by rewrite <- app_assoc.
Qed.

Lemma splitLines_join (lines : list (list ascii)) :
  lines <> [] ->
  Forall (fun line => (Csv.LF ∉ line) /\ (Csv.CR ∉ line)) lines ->
  Csv.splitLines (Csv.join Csv.LF lines) = lines.
Proof.
  intros Hne Hall. unfold Csv.splitLines.
  induction Hall as [|p lines [Hlf Hcr] Hall IH]; [done|].
  destruct lines as [|q lines].
  - cbn [Csv.join]. by rewrite splitLines_from_last.
  - change (Csv.join Csv.LF (p :: q :: lines))
      with (p ++ Csv.LF :: Csv.join Csv.LF (q :: lines)).
    rewrite splitLines_from_plain by done. by rewrite IH.
Qed.

(** *** The rows *)

Lemma parseRows_all (headers : list (list ascii))
    (lines : list (list ascii)) :
  Forall (fun line => length (parseLine line) = length headers) lines ->
  Csv.parseRows (number := number) isWhiteSpace headers lines
  = map (fun line => Some (Csv.makeRow headers (parseLine line))) lines.
Proof.
  induction 1 as [|line lines Hlen Hall IH]; [done|].
  cbn [Csv.parseRows map]. rewrite Hlen, Nat.eqb_refl. by rewrite IH.
Qed.

Lemma makeRow_fold (columns : list string) (g : string -> list ascii)
    (col : string) (acc : DataRow number) :
  col <> "__proto__" ->
  foldl (fun row hv => Csv.assign row (fst hv) (snd hv)) acc
    (zip (map String.list_ascii_of_string columns) (map g columns)) !! col
  = if decide (col ∈ columns)
    then Some (VString (String.string_of_list_ascii (g col)))
    else acc !! col.
Proof.
  intros Hproto. revert acc.
  induction columns as [|x columns IH]; intros acc.
  - rewrite decide_False; [done|]. apply not_elem_of_nil.
  - cbn [map zip foldl zip_with]. rewrite IH. cbn [fst snd].
    destruct (decide (col ∈ columns)) as [Hin|Hout].
    + rewrite decide_True; [done|]. by right.
    + unfold Csv.assign. rewrite String.string_of_list_ascii_of_string.
      destruct (decide (col = x)) as [->|Hne].
      * rewrite decide_True by by left.
        apply String.eqb_neq in Hproto. rewrite Hproto.
        by rewrite lookup_insert_eq.
      * rewrite decide_False by by intros [?|?]%elem_of_cons.
        destruct (String.eqb x "__proto__"); [done|].
        by rewrite lookup_insert_ne.
Qed.

Lemma makeRow_lookup (columns : list string) (g : string -> list ascii)
    (col : string) :
  col ∈ columns -> col <> "__proto__" ->
  Csv.makeRow (number := number)
    (map String.list_ascii_of_string columns) (map g columns) !! col
  = Some (VString (String.string_of_list_ascii (g col))).
Proof.
  intros Hin Hproto. unfold Csv.makeRow. rewrite makeRow_fold by done.
  by rewrite decide_True.
Qed.

(** *** Export, then parse *)

(** A text that comes back from a CSV file as it went in: no white space
    at either end, no quote character and no line break. *)
Let keeps (s : string) : Prop :=
  trim (String.list_ascii_of_string s) = String.list_ascii_of_string s
  /\ (Csv.QUOTE ∉ String.list_ascii_of_string s)
  /\ (Csv.LF ∉ String.list_ascii_of_string s)
  /\ (Csv.CR ∉ String.list_ascii_of_string s).

Section RoundTrip.

Variables (data : list (option (DataRow number))) (columns : list string).
Hypothesis comma_not_space : isWhiteSpace Csv.COMMA = false.
Hypothesis quote_not_space : isWhiteSpace Csv.QUOTE = false.
Hypothesis two_columns : (2 <= length columns)%nat.
Hypothesis columns_keep :
  Forall (fun col => keeps col
                     /\ (Csv.COMMA ∉ String.list_ascii_of_string col))
    columns.
Hypothesis values_keep :
  Forall (fun row =>
            exists r, row = Some r
              /\ Forall (fun col => keeps (displayVal nts (cell r col)))
                   columns) data.

Let headerRow : list ascii :=
  Csv.join Csv.COMMA (map String.list_ascii_of_string columns).

Lemma headerRow_line :
  (tidy headerRow /\ headerRow <> [])
  /\ (Csv.LF ∉ headerRow) /\ (Csv.CR ∉ headerRow).
Proof.
  assert (Hchars : forall c, c ∈ headerRow -> c <> Csv.COMMA ->
            exists col, col ∈ columns /\ c ∈ String.list_ascii_of_string col).
  { intros c Hc Hne. apply elem_of_join in Hc as [?|(p & Hp & Hin)]; [done|].
    apply list_elem_of_fmap in Hp as (col & -> & Hcol). by exists col. }
  rewrite Forall_forall in columns_keep.
  split; [split|split].
  - apply tidy_join; [done|]. apply Forall_fmap, Forall_forall.
    intros col Hcol. apply trim_fixed. by apply columns_keep.
  - unfold headerRow. destruct columns as [|c1 [|c2 cs]]; cbn in two_columns;
      [lia|lia|]. apply join_two_nonempty.
  - intros Hc. destruct (Hchars _ Hc ltac:(done)) as (col & Hcol & Hin).
    by destruct (columns_keep col Hcol) as [(_ & _ & Hlf & _) _].
  - intros Hc. destruct (Hchars _ Hc ltac:(done)) as (col & Hcol & Hin).
    by destruct (columns_keep col Hcol) as [(_ & _ & _ & Hcr) _].
Qed.

Lemma exportRow_line (row : option (DataRow number)) :
  row ∈ data ->
  (tidy (Csv.exportRow nts columns row) /\ Csv.exportRow nts columns row <> [])
  /\ (Csv.LF ∉ Csv.exportRow nts columns row)
  /\ (Csv.CR ∉ Csv.exportRow nts columns row).
Proof.
  intros Hrow. rewrite Forall_forall in values_keep.
  destruct (values_keep row Hrow) as (r & -> & Hvals).
  rewrite Forall_forall in Hvals. unfold Csv.exportRow.
  assert (Hchars : forall c,
            c ∈ Csv.join Csv.COMMA
                  (map (fun col => Csv.exportField nts (cell r col)) columns) ->
            c <> Csv.COMMA -> c <> Csv.QUOTE ->
            exists col, col ∈ columns
              /\ c ∈ String.list_ascii_of_string
                       (displayVal nts (cell r col))).
  { intros c Hc Hne Hnq.
    apply elem_of_join in Hc as [?|(p & Hp & Hin)]; [done|].
    apply list_elem_of_fmap in Hp as (col & -> & Hcol). exists col.
    split; [done|].
    apply elem_of_exportField in Hin as [?|?]; [done|done|].
    by apply Hvals. }
  split; [split|split].
  - apply tidy_join; [done|]. apply Forall_fmap, Forall_forall.
    intros col Hcol. apply tidy_exportField; [done|].
    apply trim_fixed. by apply Hvals.
  - destruct columns as [|c1 [|c2 cs]]; cbn in two_columns; [lia|lia|].
    apply join_two_nonempty.
  - intros Hc.
    destruct (Hchars _ Hc ltac:(done) ltac:(done)) as (col & Hcol & Hin).
    by destruct (Hvals col Hcol) as (_ & _ & Hlf & _).
  - intros Hc.
    destruct (Hchars _ Hc ltac:(done) ltac:(done)) as (col & Hcol & Hin).
    by destruct (Hvals col Hcol) as (_ & _ & _ & Hcr).
Qed.

Lemma parseLine_headerRow :
  parseLine headerRow = map String.list_ascii_of_string columns.
Proof.
  rewrite Forall_forall in columns_keep.
  unfold Csv.parseLine, headerRow.
  rewrite (parseLine_from_join _ (map String.list_ascii_of_string columns)).
  - cbn [app]. rewrite map_map. apply map_ext_in. intros col Hcol.
    apply list_elem_of_In in Hcol. by apply columns_keep.
  - apply Forall2_fmap, Forall_Forall2_diag, Forall_forall.
    intros col Hcol rest result.
    destruct (columns_keep col Hcol) as [(_ & Hq & _) Hc].
    by rewrite parseLine_from_plain.
  - destruct columns; [cbn in two_columns; lia|done].
Qed.

Lemma parseLine_kept_row (r : DataRow number) :
  Forall (fun col => keeps (displayVal nts (cell r col))) columns ->
  parseLine (Csv.exportRow nts columns (Some r))
  = map (fun col => String.list_ascii_of_string (displayVal nts (cell r col)))
      columns.
Proof.
  intros Hvals. rewrite Forall_forall in Hvals.
  unfold Csv.parseLine, Csv.exportRow.
  rewrite (parseLine_from_join _
             (map (fun col => String.list_ascii_of_string
                                (displayVal nts (cell r col))) columns)).
  - cbn [app]. rewrite map_map. apply map_ext_in. intros col Hcol.
    apply list_elem_of_In in Hcol. by apply Hvals.
  - apply Forall2_fmap, Forall_Forall2_diag, Forall_forall.
    intros col Hcol rest result. rewrite parseLine_from_exportField.
    destruct (Hvals col Hcol) as (_ & Hq & _). by rewrite unquote_plain.
  - destruct columns; [cbn in two_columns; lia|done].
Qed.

Lemma parseCSV_exportToCSV :
  Csv.parseCSV (number := number) isWhiteSpace
    (Csv.exportToCSV nts data columns)
  = (map (fun row =>
            Some (Csv.makeRow (map String.list_ascii_of_string columns)
                    (map (fun col =>
                            String.list_ascii_of_string
                              (displayVal nts (cell (default ∅ row) col)))
                       columns)))
       data,
     columns).
Proof.
  unfold Csv.parseCSV, Csv.exportToCSV. cbv zeta.
  fold headerRow.
  rewrite String.list_ascii_of_string_of_list_ascii.
  set (lines := headerRow :: map (Csv.exportRow nts columns) data).
  assert (Hlines : Forall (fun line => ((tidy line /\ line <> [])
                             /\ (Csv.LF ∉ line) /\ (Csv.CR ∉ line))) lines).
  { subst lines. constructor; [exact headerRow_line|].
    apply Forall_fmap, Forall_forall. intros row Hrow.
    by apply exportRow_line. }
  rewrite trim_tidy.
  2: { apply tidy_lines; [done|]. eapply Forall_impl; [exact Hlines|].
       by intros line [? _]. }
  rewrite splitLines_join.
  2: done.
  2: { eapply Forall_impl; [exact Hlines|]. by intros line [_ ?]. }
  subst lines. cbv beta iota. rewrite parseLine_headerRow.
  rewrite map_map.
  rewrite (map_ext _ id) by apply String.string_of_list_ascii_of_string.
  rewrite map_id. f_equal.
  rewrite parseRows_all.
  - rewrite map_map. apply map_ext_in. intros row Hrow.
    apply list_elem_of_In in Hrow.
    pose proof (proj1 (Forall_forall _ _) values_keep) as Hkeep.
    destruct (Hkeep row Hrow) as (r & -> & Hvals).
    by rewrite parseLine_kept_row.
  - apply Forall_fmap, Forall_forall. intros row Hrow.
    pose proof (proj1 (Forall_forall _ _) values_keep) as Hkeep.
    destruct (Hkeep row Hrow) as (r & -> & Hvals).
    unfold compose. cbv beta.
    rewrite parseLine_kept_row by done. by rewrite !length_map.
Qed.

End RoundTrip.

(** *** What [parseCSV] returns *)

Lemma parseLine_from_nonempty text result cur inQuote :
  parseLine_from text result cur inQuote <> [].
Proof.
  revert result cur inQuote.
  induction text as [|x text IH]; intros result cur inQuote;
    cbn [Csv.parseLine_from].
  - by destruct result.
  - destruct (Ascii.eqb x Csv.QUOTE); [apply IH|].
    destruct (_ && _); apply IH.
Qed.

Lemma splitLines_from_nonempty cur text : Csv.splitLines_from cur text <> [].
Proof.
  revert cur. induction text as [|x text IH]; intros cur;
    cbn [Csv.splitLines_from]; [done|].
  destruct (Ascii.eqb x Csv.LF); [done|].
  destruct text as [|y text]; [apply IH|].
  destruct (_ && _); [done|apply IH].
Qed.

Lemma assign_fold_lookup (pairs : list (list ascii * list ascii))
    (acc : DataRow number) (key : string) :
  let keys := map (fun hv => String.string_of_list_ascii (fst hv)) pairs in
  let row := foldl (fun row hv => Csv.assign row (fst hv) (snd hv)) acc pairs in
  (key ∈ keys -> key <> "__proto__" -> is_Some (row !! key))
  /\ (is_Some (acc !! key) -> is_Some (row !! key))
  /\ (forall v, row !! key = Some v ->
        acc !! key = Some v \/ (key ∈ keys /\ exists s, v = VString s)).
Proof.
  revert acc. induction pairs as [|[h val] pairs IH]; intros acc keys row.
  - subst keys row. cbn. split_and!; [by intros ?%elem_of_nil|done|by left].
  - subst keys row. cbn [map foldl fst snd].
    destruct (IH (Csv.assign acc h val)) as (IHin & IHacc & IHval).
    assert (Hhere : String.string_of_list_ascii h = key ->
              key <> "__proto__" ->
              Csv.assign (number := number) acc h val !! key
              = Some (VString (String.string_of_list_ascii val))).
    { intros <- Hproto. unfold Csv.assign. cbv zeta. apply String.eqb_neq in Hproto.
      rewrite Hproto. by rewrite lookup_insert_eq. }
    assert (Hother : forall v, Csv.assign (number := number) acc h val !! key
                               = Some v ->
              acc !! key = Some v
              \/ (String.string_of_list_ascii h = key
                  /\ v = VString (String.string_of_list_ascii val))).
    { intros v. unfold Csv.assign. cbv zeta.
      destruct (String.eqb _ "__proto__"); [by left|].
      destruct (decide (String.string_of_list_ascii h = key)) as [<-|Hne].
      - rewrite lookup_insert_eq. intros [= <-]. by right.
      - rewrite lookup_insert_ne by done. by left. }
    split_and!.
    + intros [Heq|Hin]%elem_of_cons Hproto.
      * apply IHacc. by rewrite Hhere.
      * by apply IHin.
    + intros [v Hv]. apply IHacc. unfold Csv.assign. cbv zeta.
      destruct (String.eqb _ "__proto__"); [by exists v|].
      destruct (decide (String.string_of_list_ascii h = key)) as [<-|Hne].
      * by rewrite lookup_insert_eq.
      * rewrite lookup_insert_ne by done. by exists v.
    + intros v Hv. destruct (IHval v Hv) as [Hacc|[Hin Hs]].
      * destruct (Hother v Hacc) as [?|[<- ->]]; [by left|].
        right. split; [by left|by eexists].
      * right. split; [by right|done].
Qed.

Lemma makeRow_entries (headers values : list (list ascii)) (key : string) :
  length values = length headers ->
  let columns := map String.string_of_list_ascii headers in
  let row := Csv.makeRow (number := number) headers values in
  (key ∈ columns -> key <> "__proto__" -> exists s, row !! key = Some (VString s))
  /\ (forall v, row !! key = Some v -> key ∈ columns /\ exists s, v = VString s).
Proof.
  intros Hlen columns row. subst columns row. unfold Csv.makeRow.
  destruct (assign_fold_lookup (zip headers values) ∅ key)
    as (Hin & _ & Hval).
  assert (Hkeys : map (fun hv : list ascii * list ascii =>
                         String.string_of_list_ascii (fst hv))
                    (zip headers values)
                  = map String.string_of_list_ascii headers).
  { rewrite <- (map_map fst String.string_of_list_ascii).
    f_equal. apply fst_zip. lia. }
  rewrite Hkeys in Hin, Hval. split.
  - intros Hkey Hproto. destruct (Hin Hkey Hproto) as [v Hv].
    destruct (Hval v Hv) as [Hempty|[_ [s ->]]]; [|by exists s].
    by rewrite lookup_empty in Hempty.
  - intros v Hv. destruct (Hval v Hv) as [Hempty|?]; [|done].
    by rewrite lookup_empty in Hempty.
Qed.

Lemma parseRows_rows (headers : list (list ascii))
    (lines : list (list ascii)) (row : option (DataRow number)) :
  row ∈ Csv.parseRows isWhiteSpace headers lines ->
  exists values, length values = length headers
                 /\ row = Some (Csv.makeRow headers values).
Proof.
  induction lines as [|line lines IH]; cbn [Csv.parseRows].
  - by intros ?%elem_of_nil.
  - destruct (_ =? _)%nat eqn:E; [|exact IH].
    intros [->|Hin]%elem_of_cons; [|by apply IH].
    apply Nat.eqb_eq in E. by eexists.
Qed.

End CsvFacts.




(** X21. Whatever the text, [parseCSV] returns at least one column (the
    test for an empty list of lines never succeeds: an empty file gives
    one column with the empty name), and rows without holes in which
    every entry is a string under the name of a column and every column,
    [__proto__] apart, has its entry. *)
Theorem parseCSV_rows_are_complete {number : Type}
    (isWhiteSpace : ascii -> bool) (content : string) :
  let result := Csv.parseCSV (number := number) isWhiteSpace content in
  snd result <> []
  /\ forall row, row ∈ fst result ->
       exists r : DataRow number,
         row = Some r
         /\ (forall col, col ∈ snd result -> col <> "__proto__" ->
               exists s, cell r col = Some (VString s))
         /\ (forall col v, cell r col = Some v ->
               col ∈ snd result /\ exists s, v = VString s).
Proof.
  intros result. subst result. unfold Csv.parseCSV, Csv.splitLines.
  destruct (Csv.splitLines_from [] _) as [|first rest] eqn:E.
  { by apply splitLines_from_nonempty in E. }
  cbn [fst snd]. split.
  - intros Hnil. apply fmap_nil_inv in Hnil.
    by apply parseLine_from_nonempty in Hnil.
  - intros row Hrow.
    apply parseRows_rows in Hrow as (values & Hlen & ->).
    eexists. split; [done|]. unfold cell. split.
    + intros col. by apply makeRow_entries.
    + intros col v. by apply makeRow_entries.
Qed.

(** ** An edit session in the plain grid *)

Section PlainSessionFacts.

Context {arith : Js.Arithmetic}.
Context {number : Type} (nts : number -> string).
Variable p : Grid.Props number.

Lemma plain_inputRendered_of_rendered s s' absoluteIndex colIndex col :
  PlainGrid.renderedCell p s absoluteIndex colIndex = true ->
  PlainGrid.scrollTop s' = PlainGrid.scrollTop s ->
  PlainGrid.containerHeight s' = PlainGrid.containerHeight s ->
  PlainGrid.editingCell s' = Some (absoluteIndex, col) ->
  col ∈ PlainGrid.columns p ->
  PlainGrid.inputRendered p s' = true.
Proof.
  unfold PlainGrid.renderedCell, PlainGrid.inputRendered.
  rewrite !andb_true_iff. intros [[[Hm Hrow] _] _] Htop Hheight -> Hcol.
  unfold PlainGrid.visibleRows, PlainGrid.startIndex, PlainGrid.endIndex in *.
  rewrite Htop, Hheight, Hm, Hrow. cbn. by apply bool_decide_eq_true_2.
Qed.

Lemma plain_dispatchAll_app (evs rest : list (Grid.Env * PlainGrid.Event))
    s0 e0 s1 e1 s2 :
  PlainGrid.dispatchAll nts p evs s0 = Some (s1, e0) ->
  PlainGrid.dispatchAll nts p rest s1 = Some (s2, e1) ->
  PlainGrid.dispatchAll nts p (evs ++ rest) s0 = Some (s2, e0 ++ e1).
Proof.
  revert s0 e0. induction evs as [|[env ev] evs IH]; intros s0 e0; cbn.
  - by intros [= -> <-].
  - destruct (PlainGrid.dispatch nts p env ev s0) as [[sa ea]|]; [|done]. cbn.
    destruct (PlainGrid.dispatchAll nts p evs sa) as [[sb eb]|] eqn:E;
      [|done].
    cbn. intros [= -> <-] Hrest.
    rewrite (IH _ _ E Hrest). cbn. by rewrite app_assoc.
Qed.

End PlainSessionFacts.

(** X22. In the plain grid, on a sheet whose column names are distinct,
    a double click on a rendered cell opens an edit session with the
    input shown in that cell and in no other. The session calls
    [onCellEdit] exactly once when it is closed by Enter and exactly
    once when it is closed by a blur, with the row, the column name and
    the text of the input (what was typed last, or the text the cell
    displayed); closed by Escape it calls nothing. The session is over
    in each case. The cell is read from the row itself: the row has an
    entry for the column, or the column has a name that a row does not
    inherit from [Object.prototype]. *)
Theorem plain_edit_session_commits_once {arith : Js.Arithmetic} {number : Type}
    (nts : number -> string) (p : Grid.Props number)
    (env1 env2 env3 : Grid.Env) (s : PlainGrid.State)
    (absoluteIndex colIndex : Z) (row : DataRow number) (col : string)
    (typed : option string) :
  let text := default (displayVal nts (cell row col)) typed in
  let session closing :=
    (env1, PlainGrid.CellDoubleClick absoluteIndex colIndex)
    :: match typed with
       | Some value => [(env2, PlainGrid.InputChange value)]
       | None => []
       end
    ++ [(env3, closing)] in
  NoDup (sheet_columns (Grid.sheet p)) ->
  PlainGrid.renderedCell p s absoluteIndex colIndex = true ->
  row_at (Grid.sheet p) absoluteIndex = Some row ->
  Js.index (PlainGrid.columns p) colIndex = Some col ->
  Js.inherited col = false \/ is_Some (row !! col) ->
  exists s' : PlainGrid.State,
    PlainGrid.editingCell s' = None
    /\ PlainGrid.dispatchAll nts p
         (session (PlainGrid.InputKeyDown Grid.Enter)) s
       = Some (s', [PlainGrid.OnCellEdit absoluteIndex col text])
    /\ PlainGrid.dispatchAll nts p (session PlainGrid.InputBlur) s
       = Some (s', [PlainGrid.OnCellEdit absoluteIndex col text])
    /\ PlainGrid.dispatchAll nts p
         (session (PlainGrid.InputKeyDown Grid.Escape)) s
       = Some (s', [])
    /\ exists s1,
         PlainGrid.dispatch nts p env1
           (PlainGrid.CellDoubleClick absoluteIndex colIndex) s
         = Some (s1, [])
         /\ forall cell,
              cell ∈ PlainGrid.editInputs p s1
              <-> cell = (absoluteIndex, colIndex).
Proof.
  intros text session Hnd Hcell Hrow Hcol _.
  destruct (index_columns p _ _ Hcol) as [Hc0 Hlook].
  assert (Hmem : col ∈ PlainGrid.columns p)
    by (apply list_elem_of_lookup; by eexists).
  set (s1 := PlainGrid.next
               (PlainGrid.startEditing nts absoluteIndex col (cell row col)
                  (PlainGrid.mkRun s []))).
  assert (Hin1 : PlainGrid.inputRendered p s1 = true).
  { eapply plain_inputRendered_of_rendered; [exact Hcell|by destruct s..|done]. }
  assert (Hd1 : PlainGrid.dispatch nts p env1
                  (PlainGrid.CellDoubleClick absoluteIndex colIndex) s
                = Some (s1, [])).
  { unfold PlainGrid.dispatch, PlainGrid.handle. rewrite Hcell, Hrow.
    cbn [mbind option_bind]. by rewrite Hcol. }
  set (typing := match typed with
                 | Some value => [(env2, PlainGrid.InputChange value)]
                 | None => []
                 end).
  set (s2 := match typed with
             | Some value =>
                 PlainGrid.next (PlainGrid.setEditValue value
                                   (PlainGrid.mkRun s1 []))
             | None => s1
             end).
  assert (Hin2 : PlainGrid.inputRendered p s2 = true).
  { subst s2. destruct typed; [|done].
    eapply plain_inputRendered_of_rendered;
      [exact Hcell|by destruct s..|done]. }
  assert (He2 : PlainGrid.editingCell s2 = Some (absoluteIndex, col))
    by (subst s2; by destruct typed).
  assert (Hv2 : PlainGrid.editValue s2 = text)
    by (subst s2 text; by destruct typed).
  assert (Hd2 : PlainGrid.dispatchAll nts p typing s1 = Some (s2, [])).
  { subst typing s2. destruct typed as [value|]; [|done].
    cbn [PlainGrid.dispatchAll]. unfold PlainGrid.dispatch, PlainGrid.handle.
    rewrite Hin1. done. }
  set (s3 := PlainGrid.next (PlainGrid.setEditingCell None
                               (PlainGrid.mkRun s2 []))).
  assert (Hclose : forall closing effs,
            PlainGrid.dispatch nts p env3 closing s2 = Some (s3, effs) ->
            PlainGrid.dispatchAll nts p (session closing) s
            = Some (s3, effs)).
  { intros closing effs Hd3. subst session. cbv beta.
    cbn [PlainGrid.dispatchAll]. rewrite Hd1. cbn [mbind option_bind].
    fold typing.
    rewrite (plain_dispatchAll_app nts p typing [(env3, closing)]
               s1 [] s2 effs s3 Hd2).
    - done.
    - cbn [PlainGrid.dispatchAll]. rewrite Hd3. cbn.
      by rewrite app_nil_r. }
  exists s3. split; [done|]. split; [|split; [|split]]; try apply Hclose;
    cycle 3.
  { exists s1. split; [exact Hd1|]. intros cell. split.
    - by apply (plain_one_edit_input p s1 absoluteIndex col colIndex).
    - intros ->. apply plain_elem_of_editInputs.
      unfold PlainGrid.renderedCell in Hcell.
      rewrite !andb_true_iff, bool_decide_eq_true in Hcell.
      destruct Hcell as [[[Hm Hvis] _] _].
      split; [done|]. split; [by destruct s|]. exists col.
      split; [done|]. unfold PlainGrid.isEditing. cbn.
      by rewrite Z.eqb_refl, String.eqb_refl. }
  - unfold PlainGrid.dispatch, PlainGrid.handle. rewrite Hin2.
    cbn [mbind option_bind PlainGrid.handleKeyDown].
    unfold PlainGrid.saveEdit. rewrite He2. cbn. by rewrite Hv2.
  - unfold PlainGrid.dispatch, PlainGrid.handle. rewrite Hin2.
    cbn [mbind option_bind].
    unfold PlainGrid.saveEdit. rewrite He2. cbn. by rewrite Hv2.
  - unfold PlainGrid.dispatch, PlainGrid.handle. by rewrite Hin2.
Qed.

Lemma plain_edit_session_commits_once_witness :
  exists s' : PlainGrid.State,
    PlainGrid.editingCell s' = None
    /\ PlainGrid.dispatchAll Scenario.showZ Scenario.props
         [(Scenario.env, PlainGrid.CellDoubleClick 1 1);
          (Scenario.env, PlainGrid.InputChange "42");
          (Scenario.env, PlainGrid.InputKeyDown Grid.Enter)]
         (PlainGrid.mount (number := Z) Scenario.props Scenario.env)
       = Some (s', [PlainGrid.OnCellEdit 1 "B" "42"]).
Proof.
  destruct (plain_edit_session_commits_once Scenario.showZ Scenario.props
              Scenario.env Scenario.env Scenario.env
              (PlainGrid.mount (number := Z) Scenario.props Scenario.env)
              1 1 Scenario.row2 "B" (Some "42"))
    as (s' & Hedit & Henter & _);
    [apply (bool_decide_unpack _); by vm_compute|by vm_compute..|by left|].
  exists s'. split; [exact Hedit|exact Henter].
Defined.

